(** * Conversation context manager: artifact store, identifiers, traces

    A shallow embedding of [src/context_manager.py] (class [Conversation])
    and the properties of its identifier assignment, text cleaning,
    trace building and (de)serialisation.

    Modelling conventions.
    - A Python [str] is a [string]; a character is a code point in the
      range U+0000..U+00FF.  The character classes below are the ones the
      interpreter uses on that range ([str.isspace], and the [re] classes
      [\s], [\d], [\w] for [str] patterns).
    - A Python [dict] is an association list in insertion order: assigning
      to an existing key keeps the key's position.
    - A Python [int] is an [N]: the counter starts at [0] and is only ever
      incremented or set to a value parsed from decimal digits.  The
      interpreter converts between [int] and decimal [str] up to
      [Str.int_max_str_digits] digits and raises [ValueError] beyond:
      [int] has the limit, and [generation_raises] says when the format
      of a new identifier meets it.
    - An exception is a value of [exn]; code that may raise returns a
      [result]. *)

From Stdlib Require Import DecimalFacts.
From Stdlib Require Import List String Ascii NArith Bool Arith Lia.
From Stdlib Require Import DecimalString DecimalN.
Import ListNotations.

Open Scope string_scope.
Open Scope bool_scope.

(** ** Characters *)

Module Char.

Definition code (c : ascii) : N := N_of_ascii c.

Definition between (lo hi : N) (c : ascii) : bool :=
  ((lo <=? code c) && (code c <=? hi))%N.

(** [str.isspace] and the regex class [\s]. *)
Definition is_space (c : ascii) : bool :=
  between 9 13 c || between 28 32 c || (code c =? 133)%N || (code c =? 160)%N.

(** The regex class [\d]. *)
Definition is_digit (c : ascii) : bool := between 48 57 c.

(** The regex class [[A-Z]]. *)
Definition is_upper_AZ (c : ascii) : bool := between 65 90 c.

Definition is_lower_az (c : ascii) : bool := between 97 122 c.

(** Letters of the upper half of the range: U+00C0..U+00DE without the
    multiplication sign are capitals, U+00E0..U+00FE without the division
    sign are their small forms. *)
Definition is_upper_hi (c : ascii) : bool :=
  between 192 222 c && negb (code c =? 215)%N.

Definition is_lower_hi (c : ascii) : bool :=
  between 224 254 c && negb (code c =? 247)%N.

(** The regex class [\w]: alphanumeric code points and the underscore. *)
Definition is_word (c : ascii) : bool :=
  is_digit c || is_upper_AZ c || is_lower_az c || (code c =? 95)%N
  || (code c =? 170)%N || (code c =? 178)%N || (code c =? 179)%N
  || (code c =? 181)%N || (code c =? 185)%N || (code c =? 186)%N
  || between 188 190 c
  || between 192 214 c || between 216 246 c || between 248 255 c.

(** [str.lower] on one character. *)
Definition lower (c : ascii) : ascii :=
  if is_upper_AZ c || is_upper_hi c then ascii_of_N (code c + 32) else c.

(** Equality of two characters under [re.IGNORECASE]. *)
Definition ci_eqb (a b : ascii) : bool := (lower a =? lower b)%char.

(** Value of a decimal digit. *)
Definition digit_value (c : ascii) : N := (code c - 48)%N.

Definition LF : ascii := "010"%char.

End Char.

(** ** Strings *)

Module Str.

Import Char.

Definition is_empty (s : string) : bool :=
  match s with "" => true | _ => false end.

(** [s.startswith(p)]. *)
Fixpoint startswith (p s : string) : bool :=
  match p with
  | "" => true
  | String a p' =>
      match s with
      | String b s' => (a =? b)%char && startswith p' s'
      | "" => false
      end
  end.

(** [s[n:]]. *)
Fixpoint drop (n : nat) (s : string) : string :=
  match n with
  | O => s
  | S k => match s with "" => "" | String _ t => drop k t end
  end.

(** [p in s] for strings. *)
Fixpoint contains (p s : string) : bool :=
  startswith p s ||
  match s with
  | "" => false
  | String _ t => contains p t
  end.

(** Whether the first character of [s] exists and satisfies [p]. *)
Definition head_is (p : ascii -> bool) (s : string) : bool :=
  match s with
  | String c _ => p c
  | "" => false
  end.

(** Whether the last character of [s] exists and satisfies [p]. *)
Fixpoint last_is (p : ascii -> bool) (s : string) : bool :=
  match s with
  | "" => false
  | String c "" => p c
  | String _ t => last_is p t
  end.

Fixpoint all_space (s : string) : bool :=
  match s with
  | "" => true
  | String c t => is_space c && all_space t
  end.

Fixpoint all_digits (s : string) : bool :=
  match s with
  | "" => true
  | String c t => is_digit c && all_digits t
  end.

Fixpoint no_digit (s : string) : bool :=
  match s with
  | "" => true
  | String c t => negb (is_digit c) && no_digit t
  end.

(** [s.lstrip()]. *)
Fixpoint lstrip (s : string) : string :=
  match s with
  | "" => ""
  | String c t => if is_space c then lstrip t else s
  end.

(** [s.rstrip()]. *)
Fixpoint rstrip (s : string) : string :=
  match s with
  | "" => ""
  | String c t =>
      let t' := rstrip t in
      if is_space c && is_empty t' then "" else String c t'
  end.

(** [s.strip()]. *)
Definition strip (s : string) : string := rstrip (lstrip s).

(** [s.lstrip(chars)], [s.rstrip(chars)] and [s.strip(chars)] for an
    explicit set of characters. *)
Fixpoint lstrip_set (p : ascii -> bool) (s : string) : string :=
  match s with
  | "" => ""
  | String c t => if p c then lstrip_set p t else s
  end.

Fixpoint rstrip_set (p : ascii -> bool) (s : string) : string :=
  match s with
  | "" => ""
  | String c t =>
      let t' := rstrip_set p t in
      if p c && is_empty t' then "" else String c t'
  end.

Definition strip_set (p : ascii -> bool) (s : string) : string :=
  rstrip_set p (lstrip_set p s).

(** [s.split(sep)] for a one-character separator: never an empty list. *)
Fixpoint split_char (sep : ascii) (s : string) : list string :=
  match s with
  | "" => [""]
  | String c t =>
      if (c =? sep)%char then "" :: split_char sep t
      else match split_char sep t with
           | h :: r => String c h :: r
           | [] => [String c ""]
           end
  end.

(** [s.upper()].  The sharp s becomes two letters; the micro sign and the
    y with diaeresis have capitals outside the range of code points and
    are kept. *)
Fixpoint upper (s : string) : string :=
  match s with
  | "" => ""
  | String c t =>
      if is_lower_az c || is_lower_hi c
      then String (ascii_of_N (code c - 32)) (upper t)
      else if (code c =? 223)%N then String "S" (String "S" (upper t))
      else String c (upper t)
  end.

(** [int(s)] on a string of decimal digits. *)
Definition int_of_digits (s : string) : N :=
  (fix go (acc : N) (s : string) : N :=
     match s with
     | "" => acc
     | String c t => go (acc * 10 + digit_value c)%N t
     end) 0%N s.

(** [str(n)]: the decimal digits of a number. *)
Definition str_of_N (n : N) : string :=
  NilZero.string_of_uint (N.to_uint n).

(** [format(n, "03d")]: decimal digits, zero-padded on the left to at
    least three characters. *)
Definition format_03d (n : N) : string :=
  let s := str_of_N n in
  match length s with
  | 0 => "000" ++ s
  | 1 => "00" ++ s
  | 2 => "0" ++ s
  | _ => s
  end.

(** The number of decimal digits up to which the interpreter converts
    between [int] and [str] ([sys.get_int_max_str_digits()], 4300 unless
    configured otherwise). *)
Definition int_max_str_digits : N := 4300.

(** A digit string short enough for [int]. *)
Definition within_limit (s : string) : bool :=
  (N.of_nat (length s) <=? int_max_str_digits)%N.

(** A number short enough for [str] and [format]. *)
Definition converts (n : N) : bool := within_limit (str_of_N n).

End Str.

(** ** Regular expressions

    Each pattern of the source is written as a backtracking matcher in
    continuation-passing style: a matcher takes the rest of the pattern
    as a continuation [k] on the remaining input, tries its alternatives
    in the order the [re] module tries them, and returns the first
    success. *)

Module Re.

Import Char Str.

(** A literal, case-sensitive. *)
Definition lit {A} (p : string) (k : string -> option A) (s : string)
  : option A :=
  if startswith p s then k (drop (length p) s) else None.

(** A literal under [re.IGNORECASE]. *)
Fixpoint lit_ci {A} (p : string) (k : string -> option A) (s : string)
  : option A :=
  match p with
  | "" => k s
  | String a p' =>
      match s with
      | String b s' => if ci_eqb a b then lit_ci p' k s' else None
      | "" => None
      end
  end.

(** [\s*]: greedy, giving characters back one at a time. *)
Fixpoint ws_star {A} (k : string -> option A) (s : string) : option A :=
  match s with
  | String c t =>
      if is_space c then
        match ws_star k t with
        | Some r => Some r
        | None => k s
        end
      else k s
  | "" => k s
  end.

(** [\d+]: greedy, giving digits back one at a time; returns the digits
    matched together with the continuation's result. *)
Fixpoint digits_plus {A} (k : string -> option A) (s : string)
  : option (string * A) :=
  match s with
  | String c t =>
      if is_digit c then
        match digits_plus k t with
        | Some (ds, r) => Some (String c ds, r)
        | None =>
            match k t with
            | Some r => Some (String c "", r)
            | None => None
            end
        end
      else None
  | "" => None
  end.

(** [[A-Z]{2}-\d+]: returns the text matched and the continuation's
    result. *)
Definition id_core {A} (k : string -> option A) (s : string)
  : option (string * A) :=
  match s with
  | String a (String b (String h r)) =>
      if is_upper_AZ a && is_upper_AZ b && (h =? "-")%char then
        match digits_plus k r with
        | Some (ds, x) => Some (String a (String b (String "-" ds)), x)
        | None => None
        end
      else None
  | _ => None
  end.

(** [###\s*([A-Z]{2}-\d+)] at the start of [s]: group 1. *)
Definition header_at (s : string) : option string :=
  lit "###" (ws_star (fun r => option_map fst (id_core Some r))) s.

(** [re.search(r'###\s*([A-Z]{2}-\d+)', s)]: group 1 of the leftmost
    match. *)
Fixpoint search_header (s : string) : option string :=
  match header_at s with
  | Some g => Some g
  | None =>
      match s with
      | "" => None
      | String _ t => search_header t
      end
  end.

Definition head_is_word (s : string) : bool := head_is is_word s.

(** [\b] between a character whose class is [prev_word] (false at the
    start of the text) and the head of [s]. *)
Definition at_boundary (prev_word : bool) (s : string) : bool :=
  xorb prev_word (head_is_word s).

(** [\b([A-Z]{2}-\d+)\b] at the start of [s]: group 1. *)
Definition id_token_at (prev_word : bool) (s : string) : option string :=
  if at_boundary prev_word s then
    option_map fst
      (id_core (fun r => if at_boundary true r then Some r else None) s)
  else None.

(** [pattern.findall(s)]: the matches from left to right, the search
    resuming where the previous match ended ([skip] characters are still
    inside it). *)
Fixpoint findall_ids_from (skip : nat) (prev_word : bool) (s : string)
  : list string :=
  match s with
  | "" => []
  | String c t =>
      match skip with
      | S n => findall_ids_from n (is_word c) t
      | O =>
          match id_token_at prev_word s with
          | Some tok => tok :: findall_ids_from (length tok - 1) (is_word c) t
          | None => findall_ids_from 0 (is_word c) t
          end
      end
  end.

Definition findall_ids (s : string) : list string :=
  findall_ids_from 0 false s.

(** [-(\d+)] at the start of [s]: group 1. *)
Definition hyphen_digits_at (s : string) : option string :=
  lit "-" (fun r => option_map fst (digits_plus Some r)) s.

(** [re.search(r'-(\d+)', s)]: group 1 of the leftmost match. *)
Fixpoint search_hyphen_digits (s : string) : option string :=
  match hyphen_digits_at s with
  | Some g => Some g
  | None =>
      match s with
      | "" => None
      | String _ t => search_hyphen_digits t
      end
  end.

(** [^ID:\s*###\s*ID:\s*] under [re.IGNORECASE], where [ID] is the
    escaped identifier, at the start of [s]: the text after the match. *)
Definition dup_header_at (artifact_id : string) (s : string)
  : option string :=
  lit_ci artifact_id
    (lit_ci ":"
       (ws_star
          (lit_ci "###"
             (ws_star
                (lit_ci artifact_id
                   (lit_ci ":"
                      (ws_star Some))))))) s.

(** [pattern.sub("", s, 1)] for the pattern above: it is anchored at the
    start of the text, so only a match at position 0 is replaced. *)
Definition sub_dup_header (artifact_id : string) (s : string) : string :=
  match dup_header_at artifact_id s with
  | Some rest => rest
  | None => s
  end.

(** [(.*?)] under [re.DOTALL]: lazy, the continuation is tried before
    one more character is taken; returns the text matched together with
    the continuation's result. *)
Fixpoint any_lazy {A} (k : string -> option A) (s : string)
  : option (string * A) :=
  match k s with
  | Some r => Some ("", r)
  | None =>
      match s with
      | "" => None
      | String c t =>
          match any_lazy k t with
          | Some (g, r) => Some (String c g, r)
          | None => None
          end
      end
  end.

(** The lookahead [(?=\n^- \*\*|\Z)] under [re.MULTILINE]. *)
Definition next_component_or_end (s : string) : bool :=
  startswith (String LF "- **") s || is_empty s.

(** [^- \*\*(.*?):\*\*(.*?(?=\n^- \*\*|\Z))] under
    [re.DOTALL | re.MULTILINE] at the start of [s], which is at the start
    of a line iff [line_start]: groups 1 and 2 and the text after the
    match. *)
Definition component_at (line_start : bool) (s : string)
  : option (string * string * string) :=
  if line_start then
    lit "- **"
      (fun r1 =>
         match
           any_lazy
             (lit ":**"
                (any_lazy
                   (fun r => if next_component_or_end r then Some r else None)))
             r1
         with
         | Some (g1, (g2, rest)) => Some (g1, g2, rest)
         | None => None
         end) s
  else None.

(** [pattern.finditer(s)] for the pattern above: groups 1 and 2 of the
    matches from left to right. *)
Fixpoint finditer_components (skip : nat) (line_start : bool) (s : string)
  : list (string * string) :=
  match s with
  | "" => []
  | String c t =>
      let nl := (c =? LF)%char in
      match skip with
      | S n => finditer_components n nl t
      | O =>
          match component_at line_start s with
          | Some (g1, g2, rest) =>
              (g1, g2)
                :: finditer_components (length s - length rest - 1) nl t
          | None => finditer_components 0 nl t
          end
      end
  end.

End Re.

(** [s.split(sep)] for a separator of several characters ([skip]
    characters of a separator are still to be passed over). *)
Fixpoint split_sep (sep : string) (skip : nat) (s : string) : list string :=
  match s with
  | "" => [""]
  | String c t =>
      match skip with
      | S n => split_sep sep n t
      | O =>
          if Str.startswith sep s
          then "" :: split_sep sep (length sep - 1) t
          else match split_sep sep 0 t with
               | h :: r => String c h :: r
               | [] => [String c ""]
               end
      end
  end.

(** ** Dictionaries in insertion order *)

Module Dict.

Definition dict (V : Type) : Type := list (string * V).

(** [d[k]], [None] for a missing key. *)
Fixpoint get {V} (d : dict V) (k : string) : option V :=
  match d with
  | [] => None
  | (k', v) :: r => if (k' =? k)%string then Some v else get r k
  end.

(** [k in d]. *)
Definition mem {V} (k : string) (d : dict V) : bool :=
  match get d k with Some _ => true | None => false end.

(** [d[k] = v]: an existing key keeps its position. *)
Fixpoint set {V} (d : dict V) (k : string) (v : V) : dict V :=
  match d with
  | [] => [(k, v)]
  | (k', v') :: r =>
      if (k' =? k)%string then (k, v) :: r else (k', v') :: set r k v
  end.

(** [d.keys()]. *)
Definition keys {V} (d : dict V) : list string := map fst d.

End Dict.

(** ** Data model *)

Record component := mk_component {
  comp_name : string;
  comp_details : list string
}.

Record artifact := mk_artifact {
  art_id : string;
  art_type : string;
  art_text : string;
  art_components : list component
}.

Definition trace : Type := (string * string)%type.

Record Conversation := mk_conversation {
  system_topic : string;
  artifacts : Dict.dict artifact;
  traces : list trace;
  _artifact_counter : N
}.

(** ** Exceptions *)

Inductive exn : Type :=
| ValueError (msg : string)
| KeyError (key : string).

Inductive result (A : Type) : Type :=
| Ok (a : A)
| Raise (e : exn).

Arguments Ok {A} a.
Arguments Raise {A} e.

Definition bind {A B} (m : result A) (f : A -> result B) : result B :=
  match m with
  | Ok a => f a
  | Raise e => Raise e
  end.

Notation "x <- m ;; f" := (bind m (fun x => f))
  (at level 61, m at next level, right associativity).

(** [int(s)] on a run of decimal digits, as the patterns capture them:
    a run longer than the limit raises [ValueError]. *)
Definition int (s : string) : result N :=
  if Str.within_limit s then Ok (Str.int_of_digits s)
  else Raise (ValueError
                "Exceeds the limit (4300 digits) for integer string conversion").

(** A [for] loop over a list whose body may raise. *)
Fixpoint for_each {S A} (body : S -> A -> result S) (l : list A) (s : S)
  : result S :=
  match l with
  | [] => Ok s
  | x :: l' => s' <- body s x ;; for_each body l' s'
  end.

(** ** The class [Conversation] *)

Definition set_artifacts (self : Conversation) (a : Dict.dict artifact)
  : Conversation :=
  mk_conversation (system_topic self) a (traces self) (_artifact_counter self).

Definition set_traces (self : Conversation) (t : list trace) : Conversation :=
  mk_conversation (system_topic self) (artifacts self) t
    (_artifact_counter self).

Definition set_counter (self : Conversation) (n : N) : Conversation :=
  mk_conversation (system_topic self) (artifacts self) (traces self) n.

(** [Conversation(system_topic)]. *)
Definition __init__ (topic : string) : result Conversation :=
  if Str.is_empty topic
  then Raise (ValueError "System topic must be a non-empty string.")
  else Ok (mk_conversation topic [] [] 0).

(** [_extract_or_generate_id]: the identifier and the conversation with
    its counter as the call leaves it.  The generating branch formats
    the new counter value; the definition gives the identifier of the
    calls whose format returns, and [generation_raises] below says which
    calls these are not. *)
Definition _extract_or_generate_id (self : Conversation)
    (artifact_type text : string) : string * Conversation :=
  match Re.search_header text with
  | Some g => (g, self)
  | None =>
      let self' := set_counter self (_artifact_counter self + 1) in
      (Str.upper artifact_type ++ "-"
         ++ Str.format_03d (_artifact_counter self'), self')
  end.

(** When the call raises instead: the text has no header and the new
    counter value has more digits than [format] converts.  The
    [ValueError] leaves [_extract_or_generate_id] after the counter was
    incremented, and [add_artifact] before anything is stored. *)
Definition generation_raises (self : Conversation) (text : string) : bool :=
  match Re.search_header text with
  | Some _ => false
  | None => negb (Str.converts (_artifact_counter self + 1))
  end.

Definition _clean_artifact_text (artifact_id text : string) : string :=
  let cleaned_text := Re.sub_dup_header artifact_id text in
  Str.strip cleaned_text.

(** The first loop of [_parse_components]: one component per match. *)
Definition component_of_match (m : string * string) : component :=
  let component_name := Str.strip (fst m) in
  let details_block := Str.strip (snd m) in
  let details :=
    filter
      (fun stripped_line =>
         negb (Str.is_empty stripped_line)
         && negb (Str.startswith "- **" stripped_line))
      (map Str.strip (Str.split_char Char.LF details_block)) in
  mk_component component_name details.

Definition add_detail (c : component) (d : string) : component :=
  mk_component (comp_name c) (comp_details c ++ [d])%list.

Definition is_some {A} (o : option A) : bool :=
  match o with Some _ => true | None => false end.

(** One turn of the fallback loop on the pair of [components] and
    [current_component]. *)
Definition fallback_line (st : list component * option component)
    (raw : string) : list component * option component :=
  let '(components, current_component) := st in
  let line := Str.strip raw in
  if Str.startswith "- **" line then
    let components' :=
      match current_component with
      | Some c => (components ++ [c])%list
      | None => components
      end in
    let component_name :=
      Str.strip_set (Ascii.eqb ":") (nth 1 (split_sep "**" 0 line) "") in
    (components', Some (mk_component component_name []))
  else
    match current_component with
    | Some c =>
        if Str.startswith "-" line then
          let detail :=
            Str.strip
              (Str.lstrip_set
                 (fun x => (x =? "-")%char || (x =? " ")%char) line) in
          (components, Some (add_detail c detail))
        else if negb (Str.is_empty line) then
          (components, Some (add_detail c line))
        else st
    | None => st
    end.

Definition _parse_components (text : string) : list component :=
  let components :=
    map component_of_match (Re.finditer_components 0 true text) in
  match components with
  | [] =>
      let '(components', current_component) :=
        fold_left fallback_line (Str.split_char Char.LF text) ([], None) in
      match current_component with
      | Some c => (components' ++ [c])%list
      | None => components'
      end
  | _ => components
  end.

Definition add_artifact (self : Conversation) (artifact_type text : string)
  : Conversation :=
  if Str.is_empty artifact_type || Str.is_empty text then self
  else
    let '(artifact_id, self1) :=
      _extract_or_generate_id self artifact_type text in
    if Str.is_empty artifact_id then self1
    else
      let cleaned_text := _clean_artifact_text artifact_id text in
      set_artifacts self1
        (Dict.set (artifacts self1) artifact_id
           (mk_artifact artifact_id artifact_type cleaned_text
              (_parse_components cleaned_text))).

(** [self.artifacts[k]]. *)
Definition lookup (arts : Dict.dict artifact) (k : string) : result artifact :=
  match Dict.get arts k with
  | Some a => Ok a
  | None => Raise (KeyError k)
  end.

Definition trace_eqb (t u : trace) : bool :=
  (fst t =? fst u)%string && (snd t =? snd u)%string.

(** The chain of tests that fixes the direction of a trace. *)
Definition trace_tuple (source_id target_id source_type target_type : string)
  : option trace :=
  let is_v (t : string) := (t =? "VR")%string || (t =? "VM")%string in
  if (source_type =? "SD")%string && (target_type =? "SR")%string
  then Some (target_id, source_id)
  else if (source_type =? "SR")%string && (target_type =? "SD")%string
  then Some (source_id, target_id)
  else if is_v source_type && (target_type =? "SR")%string
  then Some (target_id, source_id)
  else if (source_type =? "SR")%string && is_v target_type
  then Some (source_id, target_id)
  else if is_v source_type && (target_type =? "SD")%string
  then Some (target_id, source_id)
  else if (source_type =? "SD")%string && is_v target_type
  then Some (source_id, target_id)
  else None.

(** The body of the inner loop of [build_traces]. *)
Definition consider_target (arts : Dict.dict artifact) (source_id : string)
    (traces : list trace) (target_id : string) : result (list trace) :=
  let all_artifact_ids := Dict.keys arts in
  if existsb (String.eqb target_id) all_artifact_ids
     && negb (source_id =? target_id)%string
  then
    source <- lookup arts source_id ;;
    target <- lookup arts target_id ;;
    match
      trace_tuple source_id target_id (art_type source) (art_type target)
    with
    | Some t =>
        if existsb (trace_eqb t) traces then Ok traces
        else Ok (traces ++ [t])%list
    | None => Ok traces
    end
  else Ok traces.

Section TraceBuilding.

(** The order in which a [set] built from a list yields its elements.
    The interpreter fixes it for the life of the process; all the code
    may rely on is that every element comes once. *)
Variable set_order : list string -> list string.
Hypothesis set_order_NoDup : forall l, NoDup (set_order l).
Hypothesis set_order_In : forall l x, In x (set_order l) <-> In x l.

(** The body of the outer loop of [build_traces]. *)
Definition scan_source (arts : Dict.dict artifact) (traces : list trace)
    (item : string * artifact) : result (list trace) :=
  let '(source_id, artifact) := item in
  let found_ids := set_order (Re.findall_ids (art_text artifact)) in
  for_each (consider_target arts source_id) found_ids traces.

Definition build_traces (self : Conversation) : result Conversation :=
  traces' <- for_each (scan_source (artifacts self)) (artifacts self) [] ;;
  Ok (set_traces self traces').

End TraceBuilding.

(** ** Serialisation *)

(** The dictionary exchanged with the session store: the three keys
    [to_dict] writes, each present or not, and the names of any other
    keys. *)
Record payload := mk_payload {
  p_system_topic : option string;
  p_artifacts : option (Dict.dict artifact);
  p_traces : option (list trace);
  p_other_keys : list string
}.

(** [not data] for a dictionary: it has no key. *)
Definition payload_is_empty (data : payload) : bool :=
  negb (is_some (p_system_topic data)) && negb (is_some (p_artifacts data))
  && negb (is_some (p_traces data))
  && match p_other_keys data with [] => true | _ => false end.

Definition to_dict (self : Conversation) : payload :=
  mk_payload (Some (system_topic self)) (Some (artifacts self))
    (Some (traces self)) [].

(** The loop of [from_dict] over the keys of the artifact map.  A key
    whose digits [int] refuses is passed over ([except ValueError:
    continue]). *)
Definition max_counter_of (ids : list string) : N :=
  fold_left
    (fun max_counter art_id =>
       match Re.search_hyphen_digits art_id with
       | Some g =>
           match int g with
           | Ok num => if (max_counter <? num)%N then num else max_counter
           | Raise _ => max_counter
           end
       | None => max_counter
       end)
    ids 0%N.

Definition from_dict (data : payload) : result (option Conversation) :=
  if payload_is_empty data || negb (is_some (p_system_topic data))
  then Ok None
  else
    topic <- match p_system_topic data with
             | Some t => Ok t
             | None => Raise (KeyError "system_topic")
             end ;;
    conversation <- __init__ topic ;;
    let arts := match p_artifacts data with Some a => a | None => [] end in
    let trs := match p_traces data with Some t => t | None => [] end in
    let conversation := set_traces (set_artifacts conversation arts) trs in
    let max_counter :=
      match arts with
      | [] => 0%N
      | _ => max_counter_of (Dict.keys arts)
      end in
    Ok (Some (set_counter conversation max_counter)).

(** ** Read views of the conversation *)

(** [d.values()]. *)
Definition dict_values {V} (d : Dict.dict V) : list V := map snd d.

(** A value of the dictionary [get_context_for_text_generation] returns:
    the topic, or an artifact. *)
Inductive context_value : Type :=
| TopicValue (topic : string)
| ArtifactValue (a : artifact).

(** [{"system_topic": self.system_topic, **self.artifacts}]: the topic
    first, then every item of the artifact map written over it. *)
Definition get_context_for_text_generation (self : Conversation)
  : Dict.dict context_value :=
  fold_left
    (fun d item => Dict.set d (fst item) (ArtifactValue (snd item)))
    (artifacts self)
    [("system_topic", TopicValue (system_topic self))].

Definition get_structured_artifacts (self : Conversation) : list artifact :=
  dict_values (artifacts self).

Definition get_all_artifacts (self : Conversation) : list artifact :=
  dict_values (artifacts self).

(** ** The type tag the chat handler chooses ([app.py], [chat]) *)

(** [s.lower()]. *)
Fixpoint str_lower (s : string) : string :=
  match s with
  | "" => ""
  | String c t => String (Char.lower c) (str_lower t)
  end.

Definition artifact_type_of_prompt (prompt : string) : string :=
  if Str.contains "system requirements" (str_lower prompt) then "SR"
  else if Str.contains "system design" (str_lower prompt) then "SD"
  else if Str.contains "verification requirement" (str_lower prompt) then "VR"
  else if Str.contains "verification model" (str_lower prompt) then "VM"
  else "Unknown".

(** ** The diagram of a list of artifacts ([systems_diagram.py]) *)

Record node := mk_node {
  node_id : string;
  node_label : string;
  node_group : string;
  node_shape : option string;
  node_level : N
}.

Record edge := mk_edge {
  edge_from : string;
  edge_to : string;
  edge_label : string
}.

Record diagram := mk_diagram {
  nodes : list node;
  edges : list edge
}.

(** The state of [create_system_diagram]: [nodes], [edges] and the set
    [node_ids]. *)
Record diagram_state := mk_state {
  st_nodes : list node;
  st_edges : list edge;
  st_node_ids : list string
}.

(** [if x not in node_ids: nodes.append(n); node_ids.add(x)]. *)
Definition add_node_once (st : diagram_state) (n : node) : diagram_state :=
  if existsb (String.eqb (node_id n)) (st_node_ids st) then st
  else mk_state (st_nodes st ++ [n])%list (st_edges st)
         (st_node_ids st ++ [node_id n])%list.

(** [edges.append(e)]. *)
Definition add_edge (st : diagram_state) (e : edge) : diagram_state :=
  mk_state (st_nodes st) (st_edges st ++ [e])%list (st_node_ids st).

(** The loop that sorts the artifacts into [artifacts_by_type]. *)
Definition group_by_type (arts : list artifact) : Dict.dict (list artifact) :=
  fold_left
    (fun by_type a =>
       let artifact_type := art_type a in
       match Dict.get by_type artifact_type with
       | Some l => Dict.set by_type artifact_type (l ++ [a])%list
       | None => by_type
       end)
    arts
    [("SR", []); ("SD", []); ("VR", []); ("VM", [])].

(** [artifacts_by_type[t]] for one of the four keys. *)
Definition of_type (by_type : Dict.dict (list artifact)) (t : string)
  : list artifact :=
  match Dict.get by_type t with
  | Some l => l
  | None => []
  end.

Definition process_sr (st : diagram_state) (sr : artifact) : diagram_state :=
  let sr_id := art_id sr in
  let st :=
    add_node_once st
      (mk_node sr_id (sr_id ++ ": System Requirement")
         "System Requirement" None 1) in
  add_edge st (mk_edge "system_topic" sr_id "has requirement").

Definition process_sd (srs : list artifact) (st : diagram_state)
    (sd : artifact) : diagram_state :=
  let sd_id := art_id sd in
  let st :=
    add_node_once st
      (mk_node sd_id (sd_id ++ ": System Design") "System Design" None 1) in
  let st := add_edge st (mk_edge "system_topic" sd_id "has design") in
  fold_left
    (fun st sr => add_edge st (mk_edge sd_id (art_id sr) "adheres to"))
    srs st.

Definition process_vr (srs : list artifact) (st : diagram_state)
    (vr : artifact) : diagram_state :=
  let vr_id := art_id vr in
  let st :=
    add_node_once st
      (mk_node vr_id (vr_id ++ ": Verification Requirement")
         "Verification Requirement" None 2) in
  fold_left
    (fun st sr => add_edge st (mk_edge vr_id (art_id sr) "verifies"))
    srs st.

Definition process_vm (vrs : list artifact) (st : diagram_state)
    (vm : artifact) : diagram_state :=
  let vm_id := art_id vm in
  let st :=
    add_node_once st
      (mk_node vm_id (vm_id ++ ": Verification Method")
         "Verification Method" None 3) in
  fold_left
    (fun st vr => add_edge st (mk_edge vm_id (art_id vr) "satisfies"))
    vrs st.

Definition create_system_diagram (arts : list artifact) (topic : string)
  : diagram :=
  let st :=
    add_node_once (mk_state [] [] [])
      (mk_node "system_topic" topic "System" (Some "ellipse") 0) in
  let artifacts_by_type := group_by_type arts in
  let srs := of_type artifacts_by_type "SR" in
  let sds := of_type artifacts_by_type "SD" in
  let vrs := of_type artifacts_by_type "VR" in
  let vms := of_type artifacts_by_type "VM" in
  let st := fold_left process_sr srs st in
  let st := fold_left (process_sd srs) sds st in
  let st := fold_left (process_vr srs) vrs st in
  let st := fold_left (process_vm vrs) vms st in
  mk_diagram (st_nodes st) (st_edges st).

(** ** Notions used to state the properties *)

(** *** Identifiers *)

(** An identifier token: two capitals, a hyphen, at least one digit. *)
Definition is_id_token (s : string) : bool :=
  match s with
  | String a (String b (String h ds)) =>
      Char.is_upper_AZ a && Char.is_upper_AZ b && (h =? "-")%char
      && negb (Str.is_empty ds) && Str.all_digits ds
  | _ => false
  end.

(** The longest suffix made of decimal digits. *)
Fixpoint trailing_digits (s : string) : string :=
  match s with
  | "" => ""
  | String _ t => if Str.all_digits s then s else trailing_digits t
  end.

(** The numeric suffix of an identifier: the number its trailing digits
    write. *)
Definition numeric_suffix (k : string) : N :=
  Str.int_of_digits (trailing_digits k).

(** An identifier made of a tag without digits, a hyphen and at least one
    digit, such as ["SR-007"]. *)
Definition tagged_id (k : string) : Prop :=
  exists tag ds,
    k = tag ++ "-" ++ ds
    /\ Str.no_digit tag = true /\ Str.all_digits ds = true /\ ds <> "".

(** No hyphen of [s] comes right before a digit. *)
Fixpoint no_hyphen_digit (s : string) : bool :=
  match s with
  | "" => true
  | String c t =>
      negb ((c =? "-")%char && Str.head_is Char.is_digit t)
      && no_hyphen_digit t
  end.

(** An identifier [from_dict] counts by its numeric suffix: a tag in
    which no hyphen comes right before a digit, a hyphen, and digits
    that are few enough for [int]. *)
Definition counted_id (k : string) : Prop :=
  exists tag ds,
    k = tag ++ "-" ++ ds
    /\ no_hyphen_digit tag = true /\ Str.all_digits ds = true /\ ds <> ""
    /\ Str.within_limit ds = true.

(** *** Texts *)

(** A text without leading or trailing whitespace. *)
Definition trimmed (s : string) : Prop :=
  Str.strip s = s
  /\ Str.head_is Char.is_space s = false
  /\ Str.last_is Char.is_space s = false.

(** Equality of two strings under [re.IGNORECASE]. *)
Fixpoint ci_equal (a b : string) : bool :=
  match a, b with
  | "", "" => true
  | String x a', String y b' => Char.ci_eqb x y && ci_equal a' b'
  | _, _ => false
  end.

(** Whether [p] starts [s] when letter case is ignored. *)
Fixpoint startswith_ci (p s : string) : bool :=
  match p with
  | "" => true
  | String a p' =>
      match s with
      | String b s' => Char.ci_eqb a b && startswith_ci p' s'
      | "" => false
      end
  end.

(** The duplicated header as the documentation writes it:
    ["<id>: ### <id>: "]. *)
Definition duplicated_header (artifact_id : string) : string :=
  artifact_id ++ ": ### " ++ artifact_id ++ ": ".

(** The duplicated headers the cleaning pattern accepts: the identifier
    and a colon, the three hashes, the identifier and a colon again, in
    any letter case, each followed by any amount of whitespace. *)
Definition dup_header_prefix (artifact_id p : string) : Prop :=
  exists h1 w1 w2 h2 w3,
    p = h1 ++ ":" ++ w1 ++ "###" ++ w2 ++ h2 ++ ":" ++ w3
    /\ ci_equal artifact_id h1 = true /\ ci_equal artifact_id h2 = true
    /\ Str.all_space w1 = true /\ Str.all_space w2 = true
    /\ Str.all_space w3 = true.

(** A text mentions an identifier when the identifier is one of the
    tokens [build_traces] finds in it. *)
Definition mentions (text id : string) : Prop :=
  In id (Re.findall_ids text).

(** *** The store *)

(** A conversation as the constructor leaves it. *)
Definition fresh (topic : string) : Conversation :=
  mk_conversation topic [] [] 0.

(** A sequence of calls to [add_artifact], each with a type and a
    text. *)
Definition add_all (self : Conversation) (calls : list (string * string))
  : Conversation :=
  fold_left (fun c call => add_artifact c (fst call) (snd call)) calls self.

Definition all_trimmed (arts : Dict.dict artifact) : Prop :=
  forall k a, In (k, a) arts -> trimmed (art_text a).

(** Every artifact is stored under its own identifier. *)
Definition ids_are_keys (arts : Dict.dict artifact) : Prop :=
  forall k a, In (k, a) arts -> art_id a = k.

(** *** Traces *)

(** The directions of the table: requirement to design, requirement to
    verification, design to verification. *)
Definition canonical (from_type to_type : string) : bool :=
  let is_v (t : string) := (t =? "VR")%string || (t =? "VM")%string in
  ((from_type =? "SR")%string && ((to_type =? "SD")%string || is_v to_type))
  || ((from_type =? "SD")%string && is_v to_type).

(** A trace between two different stored artifacts, in a direction of
    the table. *)
Definition sound (arts : Dict.dict artifact) (t : trace) : Prop :=
  fst t <> snd t
  /\ exists x y,
      Dict.get arts (fst t) = Some x /\ Dict.get arts (snd t) = Some y
      /\ canonical (art_type x) (art_type y) = true.

(** The invariant of both loops of [build_traces]: no trace twice, every
    trace sound. *)
Definition well_formed (arts : Dict.dict artifact) (traces : list trace)
  : Prop :=
  NoDup traces /\ Forall (sound arts) traces.

Definition trace_dec (t u : trace) : {t = u} + {t <> u}.
Proof. decide equality; apply string_dec. Defined.

(** One possible order of a set: each element where it first came. *)
Fixpoint first_seen (l : list string) : list string :=
  match l with
  | [] => []
  | x :: r => x :: filter (fun y => negb (y =? x)%string) (first_seen r)
  end.

(** *** Example inputs *)

(** A text with two headers, the second of which is ["### SR-007"]. *)
Definition two_headers : string :=
  "### SD-001: Airframe" ++ String Char.LF "See ### SR-007: Payload".

(** Two texts that do not start with the duplicated header of
    ["SR-001"]: one ends with a line feed, one has the header without
    its spaces. *)
Definition text_with_newline : string :=
  "### SR-001: Payload" ++ String Char.LF "".

Definition tight_header : string := "SR-001:###SR-001:Payload".

(** The texts of the drone delivery scenario. *)
Definition sr_text : string :=
  "### SR-001: Payload"
    ++ String Char.LF "- **Payload Capacity:** Must carry 5kg.".

Definition sd_text : string :=
  "### SD-001: Airframe"
    ++ String Char.LF "References SR-001 for load bearing.".

Definition vm_text : string :=
  "### VM-001: Flight test"
    ++ String Char.LF "Verifies SR-001 against ZZ-999.".

(** A requirement and a design that refers to it. *)
Definition drone : Conversation :=
  add_all (fresh "drone delivery system") [("SR", sr_text); ("SD", sd_text)].

(** A requirement and a verification method that refers to it and to an
    identifier nobody stored. *)
Definition drone_vm : Conversation :=
  add_all (fresh "drone delivery system") [("SR", sr_text); ("VM", vm_text)].

(** Five notes of a type that has a hyphen before a digit. *)
Definition hyphenated_type : Conversation :=
  add_all (fresh "drone delivery system")
    [("X-1", "One."); ("X-1", "Two."); ("X-1", "Three."); ("X-1", "Four.");
     ("X-1", "Five.")].

(** The digit nine, [n] times. *)
Fixpoint nines (n : nat) : string :=
  match n with
  | 0 => ""
  | S k => String "9" (nines k)
  end.

(** An identifier with one digit more than [int] reads. *)
Definition long_id : string := "SR-" ++ nines 4301.

(** A design, and a requirement whose header carries [long_id]. *)
Definition long_header : Conversation :=
  add_all (fresh "drone delivery system")
    [("SD", "### SD-007: Frame"); ("SR", "### " ++ long_id ++ ": Payload")].


(** *** Sequences of insertions *)

(** A call that reaches the generating branch of
    [_extract_or_generate_id]: a type, a text, and no header in the
    text. *)
Definition headerless (call : string * string) : Prop :=
  fst call <> "" /\ snd call <> "" /\ Re.search_header (snd call) = None.

(** The identifiers a sequence of calls to [add_artifact] assigns, in
    order. *)
Fixpoint assigned_ids (self : Conversation) (calls : list (string * string))
  : list string :=
  match calls with
  | [] => []
  | call :: rest =>
      fst (_extract_or_generate_id self (fst call) (snd call))
        :: assigned_ids (add_artifact self (fst call) (snd call)) rest
  end.

(** No call of the sequence raises: each finds a header in its text or
    a counter value [format] converts. *)
Fixpoint none_raises (self : Conversation) (calls : list (string * string))
  : Prop :=
  match calls with
  | [] => True
  | call :: rest =>
      generation_raises self (snd call) = false
      /\ none_raises (add_artifact self (fst call) (snd call)) rest
  end.

(** The numbers [n + 1], ..., [n + len]. *)
Definition count_from (n : N) (len : nat) : list N :=
  map (fun i => (n + N.of_nat i)%N) (seq 1 len).

(** [int] on decimal digits, continuing from the value [acc] of the
    digits already read. *)
Fixpoint parse_from (acc : N) (s : string) : N :=
  match s with
  | "" => acc
  | String c t => parse_from (acc * 10 + Char.digit_value c)%N t
  end.

(** *** The shape of a store *)

(** What every store built by [add_artifact] looks like: no key twice,
    every artifact under its own identifier, a hyphen in every key. *)
Definition store_shape (arts : Dict.dict artifact) : Prop :=
  NoDup (Dict.keys arts)
  /\ ids_are_keys arts
  /\ forall k, In k (Dict.keys arts) -> Str.contains "-" k = true.

(** *** Diagrams *)

Definition has_type (t : string) (a : artifact) : bool :=
  (art_type a =? t)%string.

(** The four types [create_system_diagram] draws. *)
Definition known_type (a : artifact) : bool :=
  has_type "SR" a || has_type "SD" a || has_type "VR" a || has_type "VM" a.

(** The edges of a diagram, said at once: every requirement hangs on
    the topic; every design hangs on the topic and adheres to every
    requirement; every verification requirement verifies every
    requirement; every verification method satisfies every verification
    requirement. *)
Definition expected_edges (arts : list artifact) : list edge :=
  let srs := filter (has_type "SR") arts in
  let sds := filter (has_type "SD") arts in
  let vrs := filter (has_type "VR") arts in
  let vms := filter (has_type "VM") arts in
  (map (fun sr => mk_edge "system_topic" (art_id sr) "has requirement") srs
   ++ flat_map
        (fun sd =>
           mk_edge "system_topic" (art_id sd) "has design"
             :: map (fun sr => mk_edge (art_id sd) (art_id sr) "adheres to")
                  srs)
        sds
   ++ flat_map
        (fun vr =>
           map (fun sr => mk_edge (art_id vr) (art_id sr) "verifies") srs)
        vrs
   ++ flat_map
        (fun vm =>
           map (fun vr => mk_edge (art_id vm) (art_id vr) "satisfies") vrs)
        vms)%list.

(** The list of nodes and the set of their identifiers agree, and no
    identifier is there twice. *)
Definition ids_ok (st : diagram_state) : Prop :=
  map node_id (st_nodes st) = st_node_ids st /\ NoDup (st_node_ids st).

(** *** More example inputs *)

(** A requirement alone. *)
Definition drone_sr : Conversation :=
  add_all (fresh "drone delivery system") [("SR", sr_text)].

(** Three texts without header. *)
Definition plain_calls : list (string * string) :=
  [("SR", "The payload."); ("Unknown", "Notes."); ("SR", "Range.")].

(** * Properties *)

(** ** Characters and strings *)

Module StrFacts.

Import Char Str.

Lemma append_nil_r (s : string) : s ++ "" = s.
Proof. induction s as [|c s IH]; simpl; [reflexivity | now rewrite IH]. Qed.

Lemma append_assoc (a b c : string) : (a ++ b) ++ c = a ++ (b ++ c).
Proof. induction a as [|x a IH]; simpl; [reflexivity | now rewrite IH]. Qed.

Lemma length_append (a b : string) :
  length (a ++ b) = length a + length b.
Proof. induction a as [|x a IH]; simpl; [reflexivity | now rewrite IH]. Qed.

Lemma is_empty_true (s : string) : is_empty s = true -> s = "".
Proof. destruct s; simpl; [reflexivity | discriminate]. Qed.

Lemma is_empty_false (s : string) : s <> "" -> is_empty s = false.
Proof. destruct s; simpl; [congruence | reflexivity]. Qed.

(** *** Trimming *)

Lemma rstrip_idem (s : string) : rstrip (rstrip s) = rstrip s.
Proof.
  induction s as [|c s IH]; simpl; [reflexivity|].
  destruct (is_space c && is_empty (rstrip s)) eqn:E; simpl; [reflexivity|].
  rewrite IH, E. reflexivity.
Qed.

Lemma lstrip_head (s : string) :
  lstrip s = "" \/ exists c t, lstrip s = String c t /\ is_space c = false.
Proof.
  induction s as [|c s IH]; simpl; [now left|].
  destruct (is_space c) eqn:E; [exact IH|].
  right. now exists c, s.
Qed.

Lemma lstrip_rstrip_fixed (c : ascii) (t : string) :
  is_space c = false -> lstrip (rstrip (String c t)) = rstrip (String c t).
Proof. intros E. simpl. rewrite E. simpl. now rewrite E. Qed.

Lemma strip_idem (s : string) : strip (strip s) = strip s.
Proof.
  unfold strip.
  destruct (lstrip_head s) as [E | (c & t & E & Hc)]; rewrite E.
  - reflexivity.
  - rewrite (lstrip_rstrip_fixed c t Hc). apply rstrip_idem.
Qed.

Lemma lstrip_app_space (w s : string) :
  all_space w = true -> lstrip (w ++ s) = lstrip s.
Proof.
  induction w as [|c w IH]; simpl; [reflexivity|].
  intros H. apply andb_true_iff in H as [Hc Hw].
  rewrite Hc. auto.
Qed.

Lemma strip_app_space (w s : string) :
  all_space w = true -> strip (w ++ s) = strip s.
Proof. intros H. unfold strip. now rewrite lstrip_app_space. Qed.

Lemma lstrip_idem (s : string) : lstrip (lstrip s) = lstrip s.
Proof.
  induction s as [|c s IH]; simpl; [reflexivity|].
  destruct (is_space c) eqn:E; [exact IH|]. simpl. now rewrite E.
Qed.

Lemma strip_lstrip (s : string) : strip (lstrip s) = strip s.
Proof. unfold strip. now rewrite lstrip_idem. Qed.

Lemma rstrip_last (s : string) : last_is is_space (rstrip s) = false.
Proof.
  induction s as [|c s IH]; simpl; [reflexivity|].
  destruct (is_space c) eqn:Ec; simpl.
  - destruct (rstrip s) eqn:E; simpl; [reflexivity | exact IH].
  - destruct (rstrip s) eqn:E; [exact Ec | exact IH].
Qed.

Lemma strip_head (s : string) : head_is is_space (strip s) = false.
Proof.
  unfold strip.
  destruct (lstrip_head s) as [E | (c & t & E & Hc)]; rewrite E.
  - reflexivity.
  - simpl. now rewrite Hc.
Qed.

Lemma strip_last (s : string) : last_is is_space (strip s) = false.
Proof. apply rstrip_last. Qed.

End StrFacts.

Module ReFacts.

Import Char Str Re StrFacts.

Lemma digits_plus_not_digit {A} (k : string -> option A) (s : string) :
  head_is is_digit s = false -> digits_plus k s = None.
Proof. destruct s as [|c t]; simpl; [reflexivity | now intros ->]. Qed.

(** On a run of digits that ends where the continuation accepts, [\d+]
    takes the whole run. *)
Lemma digits_plus_run {A} (k : string -> option A) (ds r : string) (x : A) :
  all_digits ds = true -> ds <> "" -> head_is is_digit r = false ->
  k r = Some x -> digits_plus k (ds ++ r) = Some (ds, x).
Proof.
  intros Hds Hne Hr Hk. induction ds as [|c ds IH]; [congruence|].
  simpl in *. apply andb_true_iff in Hds as [Hc Hds]. rewrite Hc.
  destruct ds as [|c' ds'].
  - simpl. rewrite (digits_plus_not_digit k r Hr), Hk. reflexivity.
  - rewrite IH; [reflexivity | assumption | discriminate].
Qed.

Lemma ws_star_nonspace {A} (k : string -> option A) (s : string) :
  head_is is_space s = false -> ws_star k s = k s.
Proof. destruct s as [|c t]; simpl; [reflexivity | now intros ->]. Qed.

(** Whitespace before a position the rest of the pattern accepts behind
    [\s*] is taken. *)
Lemma ws_star_app {A} (k : string -> option A) (w s : string) (r : A) :
  all_space w = true -> ws_star k s = Some r -> ws_star k (w ++ s) = Some r.
Proof.
  intros Hw Hs. induction w as [|c w IH]; [exact Hs|].
  simpl in Hw. apply andb_true_iff in Hw as [Hc Hw].
  simpl. rewrite Hc, (IH Hw). reflexivity.
Qed.

Lemma all_digits_hyphen (a b : string) : all_digits (a ++ "-" ++ b) = false.
Proof.
  induction a as [|c a IH]; simpl; [reflexivity|].
  simpl in IH. rewrite IH. apply andb_false_r.
Qed.

Lemma trailing_digits_all (ds : string) :
  all_digits ds = true -> trailing_digits ds = ds.
Proof. destruct ds; simpl; [reflexivity | now intros ->]. Qed.

Lemma trailing_digits_tagged (tag ds : string) :
  all_digits ds = true -> trailing_digits (tag ++ "-" ++ ds) = ds.
Proof.
  intros Hds. induction tag as [|c tag IH].
  - change ("" ++ "-" ++ ds) with (String "-" ds).
    unfold trailing_digits; fold trailing_digits.
    change (all_digits (String "-" ds)) with (is_digit "-" && all_digits ds).
    simpl. now apply trailing_digits_all.
  - change (String c tag ++ "-" ++ ds) with (String c (tag ++ "-" ++ ds)).
    unfold trailing_digits; fold trailing_digits.
    change (all_digits (String c (tag ++ "-" ++ ds)))
      with (is_digit c && all_digits (tag ++ "-" ++ ds)).
    now rewrite all_digits_hyphen, andb_false_r.
Qed.

Lemma head_no_digit (tag r : string) :
  no_digit tag = true -> head_is is_digit r = false ->
  head_is is_digit (tag ++ r) = false.
Proof.
  destruct tag as [|c tag]; simpl; [auto|].
  intros H _. apply andb_true_iff in H as [H _].
  now apply negb_true_iff in H.
Qed.

Lemma hyphen_digits_at_cons (c : ascii) (s : string) :
  hyphen_digits_at (String c s)
  = if ("-" =? c)%char then option_map fst (digits_plus Some s) else None.
Proof.
  unfold hyphen_digits_at, lit. cbn [startswith length drop].
  destruct ("-" =? c)%char; reflexivity.
Qed.

(** [re.search(r'-(\d+)', k)] on a tagged identifier finds its digits. *)
Lemma search_hyphen_digits_tagged (tag ds : string) :
  no_digit tag = true -> all_digits ds = true -> ds <> "" ->
  search_hyphen_digits (tag ++ "-" ++ ds) = Some ds.
Proof.
  intros Htag Hds Hne. induction tag as [|c tag IH].
  - change ("" ++ "-" ++ ds) with (String "-" ds).
    unfold search_hyphen_digits. rewrite hyphen_digits_at_cons.
    change ("-" =? "-")%char with true. cbv iota.
    rewrite <- (append_nil_r ds) at 1.
    rewrite (digits_plus_run Some ds "" ""); auto.
  - change (String c tag ++ "-" ++ ds) with (String c (tag ++ "-" ++ ds)).
    simpl in Htag. apply andb_true_iff in Htag as [Hc Htag].
    unfold search_hyphen_digits; fold search_hyphen_digits.
    assert (E : hyphen_digits_at (String c (tag ++ "-" ++ ds)) = None).
    { rewrite hyphen_digits_at_cons.
      destruct (("-" =? c)%char); [|reflexivity].
      rewrite digits_plus_not_digit; [reflexivity|].
      apply head_no_digit; [assumption | reflexivity]. }
    rewrite E. now apply IH.
Qed.

Lemma head_no_hyphen_digit (tag ds : string) :
  head_is is_digit tag = false ->
  head_is is_digit (tag ++ "-" ++ ds) = false.
Proof. destruct tag as [|c tag]; simpl; auto. Qed.

(** The same for any tag in which no hyphen comes right before a
    digit. *)
Lemma search_hyphen_digits_suffix (tag ds : string) :
  no_hyphen_digit tag = true -> all_digits ds = true -> ds <> "" ->
  search_hyphen_digits (tag ++ "-" ++ ds) = Some ds.
Proof.
  intros Htag Hds Hne. induction tag as [|c tag IH].
  - now apply (search_hyphen_digits_tagged "").
  - change (String c tag ++ "-" ++ ds) with (String c (tag ++ "-" ++ ds)).
    cbn [no_hyphen_digit] in Htag. apply andb_true_iff in Htag as [Hc Htag].
    unfold search_hyphen_digits; fold search_hyphen_digits.
    assert (E : hyphen_digits_at (String c (tag ++ "-" ++ ds)) = None).
    { rewrite hyphen_digits_at_cons. rewrite Ascii.eqb_sym.
      destruct ((c =? "-")%char); [|reflexivity].
      rewrite digits_plus_not_digit; [reflexivity|].
      apply head_no_hyphen_digit.
      simpl in Hc. now apply negb_true_iff in Hc. }
    rewrite E. now apply IH.
Qed.

Lemma no_digit_no_hyphen_digit (tag : string) :
  no_digit tag = true -> no_hyphen_digit tag = true.
Proof.
  induction tag as [|c tag IH]; [reflexivity|].
  cbn [no_digit no_hyphen_digit]. intros H.
  apply andb_true_iff in H as [Hc Htag]. rewrite (IH Htag), andb_true_r.
  apply negb_true_iff, andb_false_iff.
  destruct tag as [|d tag]; [now right|].
  cbn [no_digit] in Htag. apply andb_true_iff in Htag as [Hd _].
  right. simpl. now apply negb_true_iff in Hd.
Qed.

End ReFacts.

(** ** Dictionaries *)

Module DictFacts.

Import Dict.

Lemma get_set_same {V} (d : dict V) (k : string) (v : V) :
  get (set d k v) k = Some v.
Proof.
  induction d as [|[k' v'] d IH]; simpl.
  - now rewrite String.eqb_refl.
  - destruct (String.eqb_spec k' k) as [E | E]; simpl.
    + now rewrite String.eqb_refl.
    + apply String.eqb_neq in E. now rewrite E.
Qed.

Lemma in_set {V} (d : dict V) (k : string) (v : V) (x : string * V) :
  In x (set d k v) -> x = (k, v) \/ In x d.
Proof.
  induction d as [|[k' v'] d IH]; simpl.
  - intros [H | []]. now left.
  - destruct (k' =? k)%string; simpl.
    + intros [H | H]; [now left | now right; right].
    + intros [H | H]; [now right; left|].
      destruct (IH H); [now left | now right; right].
Qed.

Lemma get_in {V} (d : dict V) (k : string) (v : V) :
  get d k = Some v -> In (k, v) d.
Proof.
  induction d as [|[k' v'] d IH]; simpl; [discriminate|].
  destruct (String.eqb_spec k' k) as [E | E].
  - intros [= ->]. subst. now left.
  - intros H. right. now apply IH.
Qed.

Lemma in_get {V} (d : dict V) (k : string) (v : V) :
  In (k, v) d -> exists v', get d k = Some v'.
Proof.
  induction d as [|[k' v'] d IH]; simpl; [contradiction|].
  intros [H | H]; destruct (String.eqb_spec k' k) as [E | E]; eauto.
  congruence.
Qed.

Lemma mem_keys {V} (d : dict V) (k : string) :
  existsb (String.eqb k) (keys d) = true -> exists v, get d k = Some v.
Proof.
  unfold keys. rewrite existsb_exists. intros (x & Hin & Hx).
  apply String.eqb_eq in Hx. subst x.
  apply in_map_iff in Hin as ([k' v] & E & Hin). simpl in E. subst k'.
  eapply in_get; eauto.
Qed.

Lemma get_keys {V} (d : dict V) (k : string) (v : V) :
  get d k = Some v -> existsb (String.eqb k) (keys d) = true.
Proof.
  intros H. apply existsb_exists. exists k. split.
  - apply get_in in H. unfold keys. apply in_map_iff. now exists (k, v).
  - apply String.eqb_refl.
Qed.

End DictFacts.

(** ** Insertion *)

(** C8. [add_artifact] with an empty type or an empty text raises
    nothing (it is a total function of the conversation) and returns the
    conversation it was given: artifact map, trace list and counter are
    those of before the call. *)
Theorem add_artifact_empty_is_noop :
  (forall (self : Conversation) (text : string),
      add_artifact self "" text = self)
  /\ (forall (self : Conversation) (artifact_type : string),
         add_artifact self artifact_type "" = self).
Proof.
  split; intros self x; unfold add_artifact; simpl.
  - reflexivity.
  - now rewrite orb_true_r.
Qed.

Lemma extract_or_generate_artifacts (self : Conversation) (ty text : string) :
  artifacts (snd (_extract_or_generate_id self ty text)) = artifacts self.
Proof.
  unfold _extract_or_generate_id.
  destruct (Re.search_header text); reflexivity.
Qed.

(** What a call stores: nothing, or one artifact whose text went through
    [_clean_artifact_text]. *)
Lemma add_artifact_artifacts (self : Conversation) (ty text : string) :
  artifacts (add_artifact self ty text) = artifacts self
  \/ exists artifact_id,
      artifacts (add_artifact self ty text)
      = Dict.set (artifacts self) artifact_id
          (mk_artifact artifact_id ty (_clean_artifact_text artifact_id text)
             (_parse_components (_clean_artifact_text artifact_id text))).
Proof.
  unfold add_artifact.
  destruct (Str.is_empty ty || Str.is_empty text); [now left|].
  pose proof (extract_or_generate_artifacts self ty text) as E.
  destruct (_extract_or_generate_id self ty text) as [artifact_id self1].
  simpl in E.
  destruct (Str.is_empty artifact_id); [now left|].
  right. exists artifact_id. simpl. now rewrite E.
Qed.

Lemma clean_artifact_text_trimmed (artifact_id text : string) :
  trimmed (_clean_artifact_text artifact_id text).
Proof.
  unfold trimmed, _clean_artifact_text.
  split; [apply StrFacts.strip_idem|].
  split; [apply StrFacts.strip_head | apply StrFacts.strip_last].
Qed.

Lemma add_artifact_all_trimmed (self : Conversation) (ty text : string) :
  all_trimmed (artifacts self) ->
  all_trimmed (artifacts (add_artifact self ty text)).
Proof.
  intros H.
  destruct (add_artifact_artifacts self ty text) as [E | (i & E)];
    rewrite E; [assumption|].
  intros k a Hin. apply DictFacts.in_set in Hin as [[= -> ->] | Hin].
  - apply clean_artifact_text_trimmed.
  - eapply H; eauto.
Qed.

Lemma add_all_all_trimmed (calls : list (string * string)) :
  forall self, all_trimmed (artifacts self) ->
               all_trimmed (artifacts (add_all self calls)).
Proof.
  induction calls as [|call calls IH]; intros self H; simpl; [assumption|].
  apply IH. now apply add_artifact_all_trimmed.
Qed.

(** C9. After any sequence of calls to [add_artifact] on a new
    conversation, the text of every stored artifact equals its own
    [strip()] and has no whitespace at either end. *)
Theorem stored_text_is_trimmed (topic : string) (c0 : Conversation)
    (calls : list (string * string)) :
  __init__ topic = Ok c0 ->
  forall k a, In (k, a) (artifacts (add_all c0 calls)) ->
    Str.strip (art_text a) = art_text a
    /\ Str.head_is Char.is_space (art_text a) = false
    /\ Str.last_is Char.is_space (art_text a) = false.
Proof.
  intros Hnew k a Hin.
  assert (H0 : all_trimmed (artifacts c0)).
  { unfold __init__ in Hnew. destruct (Str.is_empty topic); [discriminate|].
    injection Hnew as <-. intros k' a' []. }
  exact (add_all_all_trimmed calls c0 H0 k a Hin).
Qed.

(** ** Identifier assignment *)

Module IdFacts.

Import Char Str Re StrFacts ReFacts.

(** Positions at which no header starts can be passed over. *)
Lemma search_header_skip (pre s : string) :
  (forall i, i < length pre -> header_at (drop i (pre ++ s)) = None) ->
  search_header (pre ++ s) = search_header s.
Proof.
  induction pre as [|c pre IH]; intros H; [reflexivity|].
  change (String c pre ++ s) with (String c (pre ++ s)) in *.
  unfold search_header; fold search_header.
  pose proof (H 0 ltac:(simpl; lia)) as H0. cbn [drop] in H0. rewrite H0.
  apply IH. intros i Hi. apply (H (S i)). simpl. lia.
Qed.

Lemma header_at_sr007 (post : string) :
  head_is is_digit post = false ->
  header_at ("### SR-007" ++ post) = Some "SR-007".
Proof.
  intros Hpost.
  assert (E : id_core Some ("SR-007" ++ post) = Some ("SR-007", post)).
  { unfold id_core.
    change ("SR-007" ++ post)
      with (String "S" (String "R" (String "-" ("007" ++ post)))).
    change (is_upper_AZ "S" && is_upper_AZ "R" && ("-" =? "-")%char) with true.
    cbv iota.
    now rewrite (digits_plus_run Some "007" post post). }
  unfold header_at, lit.
  change (startswith "###" ("### SR-007" ++ post)) with true. cbv iota.
  change (drop (length "###") ("### SR-007" ++ post))
    with (" " ++ "SR-007" ++ post).
  rewrite (ws_star_app _ " " ("SR-007" ++ post) "SR-007"); [reflexivity..|].
  rewrite ws_star_nonspace by reflexivity.
  now rewrite E.
Qed.

Lemma search_header_here (s g : string) :
  header_at s = Some g -> search_header s = Some g.
Proof. intros H. destruct s; cbn [search_header]; now rewrite H. Qed.

End IdFacts.

(** C4, as amended.  When the first header of the text is ["### SR-007"]
    (no header of the form [### XX-DDD] starts before it, and no digit
    follows it), [_extract_or_generate_id] returns ["SR-007"] for every
    type and every counter and leaves the counter alone, and
    [add_artifact] with a type that is not empty stores the artifact
    under ["SR-007"]. *)
Theorem first_header_fixes_id (pre post : string) :
  (forall i, i < length pre ->
             Re.header_at (Str.drop i (pre ++ "### SR-007" ++ post)) = None) ->
  Str.head_is Char.is_digit post = false ->
  forall (self : Conversation) (artifact_type : string),
    let text := pre ++ "### SR-007" ++ post in
    _extract_or_generate_id self artifact_type text = ("SR-007", self)
    /\ (artifact_type <> "" ->
        let self' := add_artifact self artifact_type text in
        _artifact_counter self' = _artifact_counter self
        /\ Dict.get (artifacts self') "SR-007"
           = Some (mk_artifact "SR-007" artifact_type
                     (_clean_artifact_text "SR-007" text)
                     (_parse_components
                        (_clean_artifact_text "SR-007" text)))).
Proof.
  intros Hpre Hpost self artifact_type text.
  assert (E : _extract_or_generate_id self artifact_type text
              = ("SR-007", self)).
  { unfold _extract_or_generate_id, text.
    rewrite (IdFacts.search_header_skip pre _ Hpre).
    now rewrite (IdFacts.search_header_here _ "SR-007"
                   (IdFacts.header_at_sr007 post Hpost)). }
  split; [exact E|].
  intros Hty self'. unfold self', add_artifact.
  rewrite (StrFacts.is_empty_false _ Hty).
  assert (Htext : Str.is_empty text = false).
  { unfold text. destruct pre; reflexivity. }
  rewrite Htext, E. simpl.
  split; [reflexivity | apply DictFacts.get_set_same].
Qed.

(** The claim as first stated fails: a text can contain ["### SR-007"]
    after another header, and the first header wins. *)
Lemma later_header_is_ignored :
  Str.contains "### SR-007" two_headers = true
  /\ fst (_extract_or_generate_id (fresh "drone delivery system") "SR"
            two_headers) = "SD-001"
  /\ fst (_extract_or_generate_id (fresh "drone delivery system") "SR"
            two_headers) <> "SR-007".
Proof.
  assert (E : fst (_extract_or_generate_id (fresh "drone delivery system")
                     "SR" two_headers) = "SD-001") by (vm_compute; reflexivity).
  split; [vm_compute; reflexivity|].
  split; [exact E|]. rewrite E. discriminate.
Qed.

(** ** Text cleaning *)

Module CleanFacts.

Import Char Str Re StrFacts ReFacts.

Lemma ci_eqb_colon_l (c : ascii) : ci_eqb ":" c = true -> c = ":"%char.
Proof.
  destruct c as [[] [] [] [] [] [] [] []]; vm_compute; intros H;
    first [reflexivity | discriminate H].
Qed.

Lemma ci_eqb_colon_r (c : ascii) : ci_eqb c ":" = true -> c = ":"%char.
Proof.
  destruct c as [[] [] [] [] [] [] [] []]; vm_compute; intros H;
    first [reflexivity | discriminate H].
Qed.

Lemma ci_eqb_hash (c : ascii) : ci_eqb "#" c = true -> c = "#"%char.
Proof.
  destruct c as [[] [] [] [] [] [] [] []]; vm_compute; intros H;
    first [reflexivity | discriminate H].
Qed.

Lemma ci_equal_nil (q : string) : ci_equal "" q = true -> q = "".
Proof. destruct q; simpl; [reflexivity | discriminate]. Qed.

Lemma ci_equal_colon (q : string) : ci_equal ":" q = true -> q = ":".
Proof.
  destruct q as [|a q]; simpl; [discriminate|]. intros H.
  apply andb_true_iff in H as [Ha Hq].
  apply ci_eqb_colon_l in Ha. apply ci_equal_nil in Hq. now subst.
Qed.

Lemma ci_equal_hashes (q : string) : ci_equal "###" q = true -> q = "###".
Proof.
  destruct q as [|a [|b [|c q]]]; simpl; try discriminate;
    try (intros H; repeat (apply andb_true_iff in H as [? H]); discriminate).
  intros H.
  apply andb_true_iff in H as [Ha H]. apply andb_true_iff in H as [Hb H].
  apply andb_true_iff in H as [Hc H].
  apply ci_eqb_hash in Ha, Hb, Hc. apply ci_equal_nil in H. now subst.
Qed.

Lemma ci_eqb_refl (c : ascii) : ci_eqb c c = true.
Proof. unfold ci_eqb. apply Ascii.eqb_refl. Qed.

Lemma ci_equal_refl (s : string) : ci_equal s s = true.
Proof.
  induction s as [|c s IH]; simpl; [reflexivity|].
  now rewrite ci_eqb_refl, IH.
Qed.

Lemma ci_equal_length (a b : string) :
  ci_equal a b = true -> length a = length b.
Proof.
  revert b. induction a as [|x a IH]; intros [|y b]; simpl;
    try discriminate; [reflexivity|].
  intros H. apply andb_true_iff in H as [_ H]. f_equal. now apply IH.
Qed.

Lemma ci_equal_get (a b : string) :
  ci_equal a b = true ->
  forall i c, get i b = Some c ->
              exists c0, get i a = Some c0 /\ ci_eqb c0 c = true.
Proof.
  revert b. induction a as [|x a IH]; intros [|y b]; simpl;
    try discriminate.
  intros H i c Hc. apply andb_true_iff in H as [Hxy H].
  destruct i as [|i]; simpl in *.
  - injection Hc as <-. now exists x.
  - now apply (IH b H i c).
Qed.

Lemma ci_equal_app (a1 a2 b1 b2 : string) :
  ci_equal a1 b1 = true -> ci_equal a2 b2 = true ->
  ci_equal (a1 ++ a2) (b1 ++ b2) = true.
Proof.
  revert b1. induction a1 as [|x a1 IH]; intros [|y b1]; simpl;
    try discriminate; [auto|].
  intros H H2. apply andb_true_iff in H as [Hxy H].
  rewrite Hxy. simpl. now apply IH.
Qed.

Lemma ci_equal_app_inv (a1 a2 b : string) :
  ci_equal (a1 ++ a2) b = true ->
  exists b1 b2, b = b1 ++ b2 /\ ci_equal a1 b1 = true
                /\ ci_equal a2 b2 = true.
Proof.
  revert b. induction a1 as [|x a1 IH]; intros b H.
  - exists "", b. auto.
  - destruct b as [|y b]; simpl in H; [discriminate|].
    apply andb_true_iff in H as [Hxy H].
    destruct (IH b H) as (b1 & b2 & -> & H1 & H2).
    exists (String y b1), b2. simpl. rewrite Hxy. auto.
Qed.

Lemma lit_ci_app {A} (p h v : string) (k : string -> option A) :
  ci_equal p h = true -> lit_ci p k (h ++ v) = k v.
Proof.
  revert h. induction p as [|a p IH]; intros [|b h]; simpl;
    try discriminate; [reflexivity|].
  intros H. apply andb_true_iff in H as [Hab H]. rewrite Hab. now apply IH.
Qed.

Lemma lit_ci_inv {A} (p s : string) (k : string -> option A) (r : A) :
  lit_ci p k s = Some r ->
  exists h v, s = h ++ v /\ ci_equal p h = true /\ k v = Some r.
Proof.
  revert s. induction p as [|a p IH]; intros s H; simpl in H.
  - exists "", s. auto.
  - destruct s as [|b s]; [discriminate|].
    destruct (ci_eqb a b) eqn:Hab; [|discriminate].
    destruct (IH s H) as (h & v & -> & Hh & Hk).
    exists (String b h), v. simpl. rewrite Hab. auto.
Qed.

Lemma ws_star_inv {A} (k : string -> option A) (s : string) (r : A) :
  ws_star k s = Some r ->
  exists w v, s = w ++ v /\ all_space w = true /\ k v = Some r.
Proof.
  induction s as [|c s IH]; simpl; intros H.
  - exists "", "". auto.
  - destruct (is_space c) eqn:Hc.
    + destruct (ws_star k s) as [r'|] eqn:E.
      * injection H as <-. destruct (IH eq_refl) as (w & v & -> & Hw & Hk).
        exists (String c w), v. simpl. rewrite Hc. auto.
      * exists "", (String c s). auto.
    + exists "", (String c s). auto.
Qed.

(** [\s*] takes no whitespace when the rest of the pattern accepts
    nowhere further into the run. *)
Lemma ws_star_here {A} (k : string -> option A) (s : string) :
  (forall u v, s = u ++ v -> u <> "" -> all_space u = true -> k v = None) ->
  ws_star k s = k s.
Proof.
  induction s as [|c s IH]; intros H; [reflexivity|].
  simpl. destruct (is_space c) eqn:Hc; [|reflexivity].
  rewrite IH.
  - rewrite (H (String c "") s); [reflexivity | reflexivity | discriminate|].
    simpl. now rewrite Hc.
  - intros u v -> Hu Hsp. apply (H (String c u) v); [reflexivity | discriminate|].
    simpl. now rewrite Hc.
Qed.

(** A final [\s*] takes all the whitespace there is. *)
Lemma ws_star_final (s : string) : ws_star Some s = Some (lstrip s).
Proof.
  induction s as [|c s IH]; simpl; [reflexivity|].
  destruct (is_space c); [now rewrite IH | reflexivity].
Qed.

Lemma get_all_space (u : string) (i : nat) (c : ascii) :
  all_space u = true -> get i u = Some c -> is_space c = true.
Proof.
  revert i. induction u as [|x u IH]; intros i H Hc; [discriminate Hc|].
  simpl in H. apply andb_true_iff in H as [Hx H].
  destruct i as [|i]; simpl in Hc.
  - now injection Hc as <-.
  - now apply (IH i).
Qed.

Lemma get_lt (a : string) (i : nat) :
  i < length a -> exists c, get i a = Some c.
Proof.
  revert i. induction a as [|x a IH]; intros i H; simpl in H; [lia|].
  destruct i as [|i]; simpl; [now exists x|]. apply IH. lia.
Qed.

Lemma ci_eqb_space (c : ascii) : ci_eqb " " c = true -> is_space c = true.
Proof.
  destruct c as [[] [] [] [] [] [] [] []]; vm_compute; intros H;
    first [reflexivity | discriminate H].
Qed.

Lemma get_app_l (a b : string) (i : nat) :
  i < length a -> get i (a ++ b) = get i a.
Proof. intros H. symmetry. now apply append_correct1. Qed.

Lemma get_app_r (a b : string) (i : nat) :
  get (length a + i) (a ++ b) = get i b.
Proof. symmetry. rewrite Nat.add_comm. apply append_correct2. Qed.

(** A colon cannot stand at position [j] of a text that both starts with
    a copy of the identifier and, after some whitespace, with a second
    copy followed by a colon: the colon would repeat one whitespace run
    earlier, down into the whitespace itself. *)
Lemma no_colon_before (artifact_id x u y t t' : string) :
  ci_equal artifact_id x = true -> ci_equal artifact_id y = true ->
  u <> "" -> all_space u = true ->
  x ++ t = u ++ y ++ ":" ++ t' ->
  forall j, j <= length x -> get j (x ++ t) = Some ":"%char -> False.
Proof.
  intros Hx Hy Hu Hsp E j.
  assert (Hd : 0 < length u) by (destruct u; simpl; [congruence | lia]).
  pose proof (ci_equal_length _ _ Hx) as Lx.
  pose proof (ci_equal_length _ _ Hy) as Ly.
  induction j as [j IH] using lt_wf_ind. intros Hj Hc.
  destruct (Nat.lt_ge_cases j (length u)) as [Hlt | Hge].
  - rewrite E, get_app_l in Hc by assumption.
    pose proof (get_all_space u j ":" Hsp Hc) as F. discriminate F.
  - assert (Hjd : j - length u < length y) by lia.
    assert (Hy' : get (j - length u) y = Some ":"%char).
    { rewrite <- (get_app_l y (":" ++ t')) by assumption.
      rewrite <- (get_app_r u). rewrite <- E.
      replace (length u + (j - length u)) with j by lia. exact Hc. }
    destruct (ci_equal_get _ _ Hy _ _ Hy') as (c0 & Hc0 & Hci).
    apply ci_eqb_colon_r in Hci. subst c0.
    destruct (get_lt x (j - length u) ltac:(lia)) as (c1 & G).
    destruct (ci_equal_get _ _ Hx _ _ G) as (c2 & Hc2 & Hci).
    assert (c2 = ":"%char) by congruence. subst c2.
    apply ci_eqb_colon_l in Hci. subst c1.
    apply (IH (j - length u)); [lia | lia|].
    now rewrite get_app_l by lia.
Qed.

(** Behind the whitespace that follows the hashes, the rest of the
    pattern accepts at one place only. *)
Lemma no_shifted_copy {A} (k : string -> option A)
    (artifact_id h2 tail u v : string) :
  ci_equal artifact_id h2 = true -> u <> "" -> all_space u = true ->
  h2 ++ ":" ++ tail = u ++ v ->
  lit_ci artifact_id (lit_ci ":" k) v = None.
Proof.
  intros Hh Hu Hsp E.
  destruct (lit_ci artifact_id (lit_ci ":" k) v) as [r|] eqn:M; [|reflexivity].
  exfalso.
  apply lit_ci_inv in M as (y & v1 & -> & Hy & M).
  apply lit_ci_inv in M as (q & t' & -> & Hq & _).
  apply ci_equal_colon in Hq. subst q.
  apply (no_colon_before artifact_id h2 u y (":" ++ tail) t' Hh Hy Hu Hsp E
           (length h2) (le_n _)).
  rewrite <- (Nat.add_0_r (length h2)), get_app_r. reflexivity.
Qed.

(** The pattern accepts every duplicated header of the shape above, and
    what is left starts after all the whitespace behind it. *)
Lemma dup_header_at_complete (artifact_id p rest : string) :
  dup_header_prefix artifact_id p ->
  dup_header_at artifact_id (p ++ rest) = Some (lstrip rest).
Proof.
  intros (h1 & w1 & w2 & h2 & w3 & -> & H1 & H2 & Hw1 & Hw2 & Hw3).
  repeat rewrite append_assoc.
  unfold dup_header_at.
  rewrite lit_ci_app by assumption.
  rewrite (lit_ci_app ":" ":") by reflexivity.
  apply ws_star_app; [assumption|].
  rewrite ws_star_nonspace by reflexivity.
  rewrite (lit_ci_app "###" "###") by reflexivity.
  apply ws_star_app; [assumption|].
  rewrite ws_star_here.
  - rewrite lit_ci_app by assumption.
    rewrite (lit_ci_app ":" ":") by reflexivity.
    now rewrite ws_star_final, lstrip_app_space.
  - intros u v E Hu Hsp. eapply no_shifted_copy; eauto.
Qed.

(** Whatever the pattern accepts is a duplicated header of that shape. *)
Lemma dup_header_at_sound (artifact_id text r : string) :
  dup_header_at artifact_id text = Some r ->
  exists p, text = p ++ r /\ dup_header_prefix artifact_id p.
Proof.
  unfold dup_header_at. intros M.
  apply lit_ci_inv in M as (h1 & s1 & -> & H1 & M).
  apply lit_ci_inv in M as (q1 & s2 & -> & Hq1 & M).
  apply ws_star_inv in M as (w1 & s3 & -> & Hw1 & M).
  apply lit_ci_inv in M as (q2 & s4 & -> & Hq2 & M).
  apply ws_star_inv in M as (w2 & s5 & -> & Hw2 & M).
  apply lit_ci_inv in M as (h2 & s6 & -> & H2 & M).
  apply lit_ci_inv in M as (q3 & s7 & -> & Hq3 & M).
  apply ws_star_inv in M as (w3 & s8 & -> & Hw3 & M).
  injection M as ->.
  apply ci_equal_colon in Hq1, Hq3. apply ci_equal_hashes in Hq2.
  subst q1 q2 q3.
  exists (h1 ++ ":" ++ w1 ++ "###" ++ w2 ++ h2 ++ ":" ++ w3). split.
  - now repeat rewrite append_assoc.
  - now exists h1, w1, w2, h2, w3.
Qed.

Lemma ci_equal_space (q : string) :
  ci_equal " " q = true -> all_space q = true.
Proof.
  destruct q as [|a q]; simpl; [discriminate|]. intros H.
  apply andb_true_iff in H as [Ha Hq].
  apply ci_eqb_space in Ha. apply ci_equal_nil in Hq. subst.
  now rewrite Ha.
Qed.

(** The header as documented is one of the accepted shapes. *)
Lemma duplicated_header_prefix (artifact_id p : string) :
  ci_equal (duplicated_header artifact_id) p = true ->
  dup_header_prefix artifact_id p.
Proof.
  unfold duplicated_header.
  change (artifact_id ++ ": ### " ++ artifact_id ++ ": ")
    with (artifact_id ++ ":" ++ " " ++ "###" ++ " " ++ artifact_id
            ++ ":" ++ " ").
  intros H.
  apply ci_equal_app_inv in H as (h1 & p1 & -> & H1 & H).
  apply ci_equal_app_inv in H as (c1 & p2 & -> & Hc1 & H).
  apply ci_equal_app_inv in H as (w1 & p3 & -> & Hw1 & H).
  apply ci_equal_app_inv in H as (m & p4 & -> & Hm & H).
  apply ci_equal_app_inv in H as (w2 & p5 & -> & Hw2 & H).
  apply ci_equal_app_inv in H as (h2 & p6 & -> & H2 & H).
  apply ci_equal_app_inv in H as (c2 & w3 & -> & Hc2 & Hw3).
  apply ci_equal_colon in Hc1, Hc2. apply ci_equal_hashes in Hm.
  apply ci_equal_space in Hw1, Hw2, Hw3. subst c1 c2 m.
  now exists h1, w1, w2, h2, w3.
Qed.

End CleanFacts.

(** C5, as amended.  When the text starts with the duplicated header
    ["<id>: ### <id>: "], in any letter case, or with the same header
    with any amount of whitespace (or none) after each colon and after
    the hashes, [_clean_artifact_text] removes that header once and
    strips the rest.  When the text starts with no such header, it
    returns the text stripped of surrounding whitespace and changes
    nothing else: the pattern is anchored at the start, so later copies
    of the header stay. *)
Theorem clean_artifact_text_spec (artifact_id text : string) :
  (forall p rest,
      text = p ++ rest ->
      ci_equal (duplicated_header artifact_id) p = true ->
      _clean_artifact_text artifact_id text = Str.strip rest)
  /\ (forall p rest,
         text = p ++ rest -> dup_header_prefix artifact_id p ->
         _clean_artifact_text artifact_id text = Str.strip rest)
  /\ ((forall p rest, text = p ++ rest -> ~ dup_header_prefix artifact_id p) ->
      _clean_artifact_text artifact_id text = Str.strip text).
Proof.
  assert (Hshape : forall p rest,
             text = p ++ rest -> dup_header_prefix artifact_id p ->
             _clean_artifact_text artifact_id text = Str.strip rest).
  { intros p rest -> Hp. unfold _clean_artifact_text, Re.sub_dup_header.
    rewrite (CleanFacts.dup_header_at_complete artifact_id p rest Hp).
    apply StrFacts.strip_lstrip. }
  split; [|split].
  - intros p rest E Hp. apply (Hshape p rest E).
    now apply CleanFacts.duplicated_header_prefix.
  - exact Hshape.
  - intros Hnone. unfold _clean_artifact_text, Re.sub_dup_header.
    destruct (Re.dup_header_at artifact_id text) as [r|] eqn:M; [|reflexivity].
    exfalso.
    destruct (CleanFacts.dup_header_at_sound _ _ _ M) as (p & E & Hp).
    exact (Hnone p r E Hp).
Qed.

(** The claim as first stated fails on texts that do not start with the
    duplicated header: surrounding whitespace is stripped all the same,
    and a header written without its spaces is removed as well. *)
Lemma cleaning_changes_other_texts :
  (startswith_ci (duplicated_header "SR-001") text_with_newline = false
   /\ _clean_artifact_text "SR-001" text_with_newline = "### SR-001: Payload"
   /\ _clean_artifact_text "SR-001" text_with_newline <> text_with_newline)
  /\ (startswith_ci (duplicated_header "SR-001") tight_header = false
      /\ _clean_artifact_text "SR-001" tight_header = "Payload"
      /\ _clean_artifact_text "SR-001" tight_header <> tight_header).
Proof.
  repeat split; try (vm_compute; reflexivity); vm_compute; discriminate.
Qed.

(** ** Serialisation *)

Lemma max_counter_step_ge (ids : list string) (f : N -> string -> N) :
  (forall m k, (m <= f m k)%N) ->
  forall m, (m <= fold_left f ids m)%N.
Proof.
  intros Hf. induction ids as [|k ids IH]; intros m; simpl; [lia|].
  specialize (IH (f m k)). specialize (Hf m k). lia.
Qed.

(** Digits within the limit are read; longer ones raise. *)
Lemma int_within (g : string) :
  Str.within_limit g = true -> int g = Ok (Str.int_of_digits g).
Proof. intros H. unfold int. now rewrite H. Qed.

(** The counter [from_dict] computes is at least every number the loop
    read from a key. *)
Lemma max_counter_of_bound (ids : list string) (k g : string) (n : N) :
  In k ids -> Re.search_hyphen_digits k = Some g -> int g = Ok n ->
  (n <= max_counter_of ids)%N.
Proof.
  unfold max_counter_of.
  set (f := fun (max_counter : N) (art_id : string) => _).
  assert (Hf : forall m x, (m <= f m x)%N).
  { intros m x. unfold f. destruct (Re.search_hyphen_digits x); [|lia].
    destruct (int s) as [num|]; [|lia].
    destruct (N.ltb_spec m num); lia. }
  generalize 0%N as m.
  induction ids as [|x ids IH]; intros m Hin Hk Hg; [contradiction|].
  simpl. destruct Hin as [-> | Hin].
  - pose proof (max_counter_step_ge ids f Hf (f m k)) as H.
    assert (n <= f m k)%N; [|lia].
    unfold f. rewrite Hk, Hg.
    destruct (N.ltb_spec m n); lia.
  - now apply IH.
Qed.

Lemma numeric_suffix_le_max (ids : list string) (k : string) :
  counted_id k -> In k ids -> (numeric_suffix k <= max_counter_of ids)%N.
Proof.
  intros (tag & ds & -> & Htag & Hds & Hne & Hlim) Hin.
  unfold numeric_suffix. rewrite ReFacts.trailing_digits_tagged by assumption.
  apply max_counter_of_bound with (k := tag ++ "-" ++ ds) (g := ds);
    [assumption | | now apply int_within].
  now apply ReFacts.search_hyphen_digits_suffix.
Qed.

(** C2. Deserialising what [to_dict] wrote gives a conversation with the
    same topic, the same artifact map and the same trace list, whatever
    counter the conversation held.  The new counter is at least the
    numeric suffix of every key that is a counted identifier: a tag
    without a hyphen right before a digit, a hyphen, and digits within
    the limit of [int].  The conversation has a topic, as every
    conversation the constructor accepted does. *)
Theorem from_dict_to_dict (c : Conversation) :
  system_topic c <> "" ->
  exists c',
    from_dict (to_dict c) = Ok (Some c')
    /\ system_topic c' = system_topic c
    /\ artifacts c' = artifacts c
    /\ traces c' = traces c
    /\ (forall k, In k (Dict.keys (artifacts c)) -> counted_id k ->
                  (numeric_suffix k <= _artifact_counter c')%N).
Proof.
  intros Htopic.
  unfold from_dict, to_dict, payload_is_empty, __init__. simpl.
  rewrite (StrFacts.is_empty_false _ Htopic). simpl.
  eexists. split; [reflexivity|]. simpl. repeat split.
  intros k Hk Hcounted.
  destruct (artifacts c) as [|kv rest] eqn:E; [contradiction|].
  rewrite <- E in *.
  now apply numeric_suffix_le_max.
Qed.

(** C2, as first stated, fails: the counter [from_dict] computes can be
    below the numeric suffix of a key.  The pattern reads the digits
    after the first hyphen that has digits behind it, so five notes of
    type ["X-1"] reload with the counter at [1] while the last key ends
    in [005]; and a key of 4301 digits, set by a header, is passed over,
    so the store reloads with the [7] of ["SD-007"]. *)
Lemma reload_counter_below_suffix :
  (In "X-1-005" (Dict.keys (artifacts hyphenated_type))
   /\ numeric_suffix "X-1-005" = 5%N
   /\ exists c',
        from_dict (to_dict hyphenated_type) = Ok (Some c')
        /\ _artifact_counter c' = 1%N)
  /\ (In long_id (Dict.keys (artifacts long_header))
      /\ (7 < numeric_suffix long_id)%N
      /\ exists c',
           from_dict (to_dict long_header) = Ok (Some c')
           /\ _artifact_counter c' = 7%N).
Proof.
  split; (split; [vm_compute; tauto|]); (split; [vm_compute; reflexivity|]);
    eexists; (split; [vm_compute; reflexivity|]); reflexivity.
Qed.

(** C10. A payload that is empty, or that has no ["system_topic"] key,
    deserialises to [None]: no exception and no conversation. *)
Theorem from_dict_without_topic :
  (forall data, payload_is_empty data = true -> from_dict data = Ok None)
  /\ (forall data, p_system_topic data = None -> from_dict data = Ok None).
Proof.
  split; intros data H; unfold from_dict; rewrite H; simpl.
  - reflexivity.
  - now rewrite orb_true_r.
Qed.

(** ** Identifier tokens in a text *)

Module TokenFacts.

Import Char Str Re StrFacts ReFacts.

Lemma digit_is_word (c : ascii) : is_digit c = true -> is_word c = true.
Proof. intros H. unfold is_word. now rewrite H. Qed.

Lemma upper_is_word (c : ascii) : is_upper_AZ c = true -> is_word c = true.
Proof. intros H. unfold is_word. rewrite H. now rewrite orb_true_r. Qed.

Lemma upper_not_digit (c : ascii) :
  is_upper_AZ c = true -> is_digit c = false.
Proof.
  destruct c as [[] [] [] [] [] [] [] []]; vm_compute; intros H;
    first [reflexivity | discriminate H].
Qed.

Lemma head_not_word_not_digit (s : string) :
  head_is is_word s = false -> head_is is_digit s = false.
Proof.
  destruct s as [|c s]; simpl; [reflexivity|]. intros H.
  destruct (is_digit c) eqn:E; [|reflexivity].
  now rewrite (digit_is_word c E) in H.
Qed.

(** What [\d+] takes is a run of digits at the start of the input. *)
Lemma digits_plus_prefix {A} (k : string -> option A) (s ds : string) (x : A) :
  digits_plus k s = Some (ds, x) ->
  exists r, s = ds ++ r /\ all_digits ds = true /\ ds <> "".
Proof.
  revert ds. induction s as [|c s IH]; intros ds H; simpl in H;
    [discriminate|].
  destruct (is_digit c) eqn:Hc; [|discriminate].
  destruct (digits_plus k s) as [[ds' x']|] eqn:E.
  - injection H as <- <-. destruct (IH ds' eq_refl) as (r & -> & Hd & _).
    exists r. simpl. rewrite Hc. repeat split; [assumption | discriminate].
  - destruct (k s); [|discriminate]. injection H as <- <-.
    exists s. simpl. rewrite Hc. repeat split. discriminate.
Qed.

Lemma is_id_token_inv (id : string) :
  is_id_token id = true ->
  exists a b ds,
    id = String a (String b (String "-" ds))
    /\ is_upper_AZ a = true /\ is_upper_AZ b = true
    /\ ds <> "" /\ all_digits ds = true.
Proof.
  destruct id as [|a [|b [|h ds]]]; try discriminate. unfold is_id_token.
  intros H.
  apply andb_true_iff in H as [H Hds]. apply andb_true_iff in H as [H Hne].
  apply andb_true_iff in H as [H Hh]. apply andb_true_iff in H as [Ha Hb].
  apply Ascii.eqb_eq in Hh. subst h.
  exists a, b, ds. repeat split; try assumption.
  intros ->. discriminate.
Qed.

(** A free-standing token is matched where it stands. *)
Lemma id_token_at_token (id post : string) :
  is_id_token id = true -> head_is is_word post = false ->
  id_token_at false (id ++ post) = Some id.
Proof.
  intros Hid Hpost.
  destruct (is_id_token_inv id Hid) as (a & b & ds & -> & Ha & Hb & Hne & Hds).
  unfold id_token_at, at_boundary, head_is_word.
  cbn [append head_is]. rewrite (upper_is_word a Ha). cbn [xorb].
  unfold id_core. rewrite Ha, Hb. cbn [andb].
  change ("-" =? "-")%char with true. cbv iota.
  rewrite (digits_plus_run _ ds post post); try assumption.
  - reflexivity.
  - now apply head_not_word_not_digit.
  - unfold head_is_word. now rewrite Hpost.
Qed.

Lemma prefix_all_digits (a ds r1 r2 : string) :
  a ++ r1 = ds ++ r2 -> length a <= length ds -> all_digits ds = true ->
  all_digits a = true.
Proof.
  revert ds. induction a as [|x a IH]; intros [|d ds] E L Hd; simpl in *;
    try reflexivity; try lia.
  injection E as -> E. apply andb_true_iff in Hd as [Hx Hd].
  rewrite Hx. simpl. apply (IH ds); [assumption | lia | assumption].
Qed.

Lemma all_digits_last (a : string) :
  all_digits a = true -> a <> "" -> last_is is_word a = true.
Proof.
  induction a as [|x a IH]; intros H Hne; [congruence|].
  simpl in H. apply andb_true_iff in H as [Hx H].
  destruct a as [|y a]; [now apply digit_is_word|].
  change (last_is is_word (String x (String y a)))
    with (last_is is_word (String y a)).
  apply IH; [assumption | discriminate].
Qed.

(** A token matched inside the text before a free-standing token ends
    before that token starts. *)
Lemma earlier_token_fits (prev : bool) (pre id post tok : string) :
  is_id_token id = true -> pre <> "" -> last_is is_word pre = false ->
  id_token_at prev (pre ++ id ++ post) = Some tok ->
  length tok <= length pre.
Proof.
  intros Hid Hne Hlast M. unfold id_token_at in M.
  destruct (at_boundary prev (pre ++ id ++ post)); [|discriminate].
  unfold id_core in M.
  destruct (pre ++ id ++ post) as [|x [|y [|h r]]] eqn:E; try discriminate.
  destruct (is_upper_AZ x && is_upper_AZ y && (h =? "-")%char) eqn:C;
    [|discriminate].
  apply andb_true_iff in C as [C Hh]. apply andb_true_iff in C as [Hx Hy].
  destruct (digits_plus _ r) as [[ds z]|] eqn:D; [|discriminate].
  injection M as <-.
  apply digits_plus_prefix in D as (r' & -> & Hds & Hdne).
  destruct pre as [|p0 [|p1 [|p2 pre']]]; [congruence | | |].
  - simpl in E. injection E as -> _. simpl in Hlast.
    now rewrite (upper_is_word x Hx) in Hlast.
  - simpl in E. injection E as -> -> _. simpl in Hlast.
    now rewrite (upper_is_word y Hy) in Hlast.
  - destruct pre' as [|p3 pre'].
    + exfalso. simpl in E. injection E as _ _ _ E.
      destruct (is_id_token_inv id Hid) as (a & b & ids & -> & Ha & _).
      destruct ds as [|d ds]; [congruence|]. simpl in E. injection E as <- _.
      simpl in Hds. apply andb_true_iff in Hds as [Hd _].
      now rewrite (upper_not_digit a Ha) in Hd.
    + simpl in E. injection E as _ _ _ E.
      destruct (Nat.le_gt_cases (length ds) (length (String p3 pre')))
        as [L | L]; [simpl in *; lia|].
      exfalso.
      assert (Hp : all_digits (String p3 pre') = true).
      { apply (prefix_all_digits _ ds (id ++ post) r'); [assumption | lia
                                                         | assumption]. }
      apply all_digits_last in Hp; [|discriminate].
      change (last_is is_word (String p0 (String p1 (String p2 (String p3 pre')))))
        with (last_is is_word (String p3 pre')) in Hlast.
      congruence.
Qed.

Lemma last_is_cons (p : ascii -> bool) (c : ascii) (s : string) :
  s <> "" -> last_is p (String c s) = last_is p s.
Proof. destruct s; [congruence | reflexivity]. Qed.

Lemma scan_reaches_token (id post : string) :
  is_id_token id = true -> head_is is_word post = false ->
  forall pre skip prev,
    skip <= length pre -> (pre = "" -> prev = false) ->
    last_is is_word pre = false ->
    In id (findall_ids_from skip prev (pre ++ id ++ post)).
Proof.
  intros Hid Hpost. induction pre as [|c pre IH]; intros skip prev Hs Hp Hl.
  - simpl in Hs. assert (skip = 0) as -> by lia. rewrite (Hp eq_refl).
    pose proof (id_token_at_token id post Hid Hpost) as M.
    change ("" ++ id ++ post) with (id ++ post).
    destruct (id ++ post) as [|x s] eqn:E.
    + destruct id; discriminate.
    + cbn [findall_ids_from]. rewrite M. now left.
  - assert (Hnext : forall n, n <= length pre ->
               In id (findall_ids_from n (is_word c) (pre ++ id ++ post))).
    { intros n Hn. apply IH; [assumption| |].
      - intros ->. exact Hl.
      - destruct pre as [|c' pre']; [reflexivity|].
        now rewrite last_is_cons in Hl by discriminate. }
    change (String c pre ++ id ++ post) with (String c (pre ++ id ++ post)).
    cbn [findall_ids_from]. destruct skip as [|n].
    + destruct (id_token_at prev (String c (pre ++ id ++ post))) as [tok|] eqn:M.
      * right. apply Hnext.
        pose proof (earlier_token_fits prev (String c pre) id post tok Hid
                      ltac:(discriminate) Hl M) as L.
        simpl in L. lia.
      * apply Hnext. lia.
    + apply Hnext. simpl in Hs. lia.
Qed.

End TokenFacts.

(** A text mentions every identifier token that stands free in it: not
    preceded and not followed by a letter, a digit or an underscore. *)
Lemma free_token_is_mentioned (pre id post : string) :
  is_id_token id = true ->
  Str.last_is Char.is_word pre = false ->
  Str.head_is Char.is_word post = false ->
  mentions (pre ++ id ++ post) id.
Proof.
  intros Hid Hpre Hpost. unfold mentions, Re.findall_ids.
  apply TokenFacts.scan_reaches_token; auto. lia.
Qed.

(** ** Invariants of the store *)

Module StoreFacts.

Import Char Str Re StrFacts ReFacts TokenFacts Dict DictFacts.

Lemma keys_set {V} (d : dict V) (k : string) (v : V) (x : string) :
  In x (keys (set d k v)) -> x = k \/ In x (keys d).
Proof.
  unfold keys. intros H. apply in_map_iff in H as ([k' v'] & <- & Hin).
  apply in_set in Hin as [[= -> ->] | Hin]; [now left|].
  right. apply in_map_iff. now exists (k', v').
Qed.

Lemma set_keeps_NoDup {V} (d : dict V) (k : string) (v : V) :
  NoDup (keys d) -> NoDup (keys (set d k v)).
Proof.
  induction d as [|[k' v'] d IH]; simpl; intros H.
  - repeat constructor. intros [].
  - inversion H as [|? ? Hnot Hd]; subst.
    destruct (String.eqb_spec k' k) as [-> | Hne]; simpl.
    + now constructor.
    + constructor; [|now apply IH].
      intros Hin. apply keys_set in Hin as [-> | Hin]; congruence.
Qed.

Lemma all_digits_app (a b : string) :
  all_digits a = true -> all_digits b = true -> all_digits (a ++ b) = true.
Proof.
  induction a as [|c a IH]; simpl; [auto|]. intros H Hb.
  apply andb_true_iff in H as [Hc Ha]. rewrite Hc. simpl. auto.
Qed.

Lemma all_digits_uint (d : Decimal.uint) :
  all_digits (NilEmpty.string_of_uint d) = true.
Proof. induction d; simpl; auto. Qed.

Lemma all_digits_str_of_N (n : N) :
  all_digits (str_of_N n) = true /\ str_of_N n <> "".
Proof.
  unfold str_of_N, NilZero.string_of_uint.
  destruct (N.to_uint n) eqn:E;
    (split; [try reflexivity; apply (all_digits_uint (_ u)) | discriminate]).
Qed.

Lemma all_digits_format_03d (n : N) :
  all_digits (format_03d n) = true /\ format_03d n <> "".
Proof.
  unfold format_03d. destruct (all_digits_str_of_N n) as [Hd Hne].
  destruct (str_of_N n) as [|a [|b [|c s]]]; [congruence | | |];
    (split; [|discriminate]).
  - now apply (all_digits_app "00").
  - now apply (all_digits_app "0").
  - exact Hd.
Qed.

Lemma upper_char_not_digit (c : ascii) :
  is_lower_az c || is_lower_hi c = true ->
  is_digit (ascii_of_N (code c - 32)) = false.
Proof.
  destruct c as [[] [] [] [] [] [] [] []]; vm_compute; intros H;
    first [reflexivity | discriminate H].
Qed.

Lemma no_digit_upper (s : string) : no_digit s = true -> no_digit (upper s) = true.
Proof.
  induction s as [|c s IH]; simpl; [reflexivity|]. intros H.
  apply andb_true_iff in H as [Hc Hs].
  destruct (is_lower_az c || is_lower_hi c) eqn:L.
  - simpl. now rewrite (upper_char_not_digit c L), IH.
  - destruct (code c =? 223)%N; simpl; [now apply IH|].
    now rewrite Hc, IH.
Qed.

(** What the header pattern captures is an identifier token. *)
Lemma header_at_token (s g : string) :
  header_at s = Some g -> is_id_token g = true.
Proof.
  unfold header_at, lit. destruct (startswith "###" s); [|discriminate].
  intros H. apply CleanFacts.ws_star_inv in H as (w & v & _ & _ & H).
  unfold id_core in H.
  destruct v as [|a [|b [|h r]]]; try discriminate.
  destruct (is_upper_AZ a && is_upper_AZ b && (h =? "-")%char) eqn:C;
    [|discriminate].
  destruct (digits_plus Some r) as [[ds x]|] eqn:D; [|discriminate].
  injection H as <-.
  apply digits_plus_prefix in D as (r' & _ & Hds & Hne).
  apply andb_true_iff in C as [C _].
  unfold is_id_token. rewrite C, Hds.
  now rewrite (is_empty_false ds Hne).
Qed.

Lemma search_header_token (s g : string) :
  search_header s = Some g -> is_id_token g = true.
Proof.
  induction s as [|c s IH]; cbn [search_header].
  - destruct (header_at "") as [g'|] eqn:E; [|discriminate].
    intros H. injection H as ->. exact (header_at_token _ _ E).
  - destruct (header_at (String c s)) as [g'|] eqn:E; [|exact IH].
    intros H. injection H as ->. exact (header_at_token _ _ E).
Qed.

Lemma token_is_tagged (g : string) : is_id_token g = true -> tagged_id g.
Proof.
  intros H.
  destruct (is_id_token_inv g H) as (a & b & ds & -> & Ha & Hb & Hne & Hds).
  exists (String a (String b "")), ds. repeat split; try assumption.
  simpl. now rewrite (upper_not_digit a Ha), (upper_not_digit b Hb).
Qed.

(** An identifier is never empty, and it is a tagged identifier when the
    type has no digit. *)
Lemma extract_or_generate_tagged (self : Conversation) (ty text : string) :
  no_digit ty = true ->
  tagged_id (fst (_extract_or_generate_id self ty text)).
Proof.
  intros Hty. unfold _extract_or_generate_id.
  destruct (search_header text) as [g|] eqn:E; simpl.
  - apply token_is_tagged. now apply search_header_token in E.
  - destruct (all_digits_format_03d (_artifact_counter self + 1)) as [Hd Hne].
    exists (upper ty), (format_03d (_artifact_counter self + 1)).
    repeat split; try assumption. now apply no_digit_upper.
Qed.

Lemma add_artifact_keys (self : Conversation) (ty text : string) (k : string) :
  In k (keys (artifacts (add_artifact self ty text))) ->
  In k (keys (artifacts self))
  \/ k = fst (_extract_or_generate_id self ty text).
Proof.
  unfold add_artifact.
  destruct (is_empty ty || is_empty text); [now left|].
  pose proof (extract_or_generate_artifacts self ty text) as E.
  destruct (_extract_or_generate_id self ty text) as [artifact_id self1].
  simpl in *. destruct (is_empty artifact_id).
  - rewrite E. now left.
  - simpl. rewrite E. intros H. apply keys_set in H as [-> | H]; auto.
Qed.

End StoreFacts.

(** Insertions with types that have no digit keep every key a tagged
    identifier, every artifact under its own identifier, and no key
    twice. *)
Lemma add_artifact_keeps_store (self : Conversation) (ty text : string) :
  Str.no_digit ty = true ->
  Forall tagged_id (Dict.keys (artifacts self))
  /\ ids_are_keys (artifacts self) /\ NoDup (Dict.keys (artifacts self)) ->
  let self' := add_artifact self ty text in
  Forall tagged_id (Dict.keys (artifacts self'))
  /\ ids_are_keys (artifacts self') /\ NoDup (Dict.keys (artifacts self')).
Proof.
  intros Hty (Htag & Hids & Hnd) self'. split; [|split].
  - apply Forall_forall. intros k Hk.
    apply StoreFacts.add_artifact_keys in Hk as [Hk | ->].
    + rewrite Forall_forall in Htag. now apply Htag.
    + now apply StoreFacts.extract_or_generate_tagged.
  - unfold self'.
    destruct (add_artifact_artifacts self ty text) as [E | (i & E)];
      rewrite E; [assumption|].
    intros k a Hin. apply DictFacts.in_set in Hin as [[= -> ->] | Hin].
    + reflexivity.
    + now apply Hids.
  - unfold self'.
    destruct (add_artifact_artifacts self ty text) as [E | (i & E)];
      rewrite E; [assumption|].
    now apply StoreFacts.set_keeps_NoDup.
Qed.

Lemma add_all_keeps_store (calls : list (string * string)) :
  Forall (fun call => Str.no_digit (fst call) = true) calls ->
  forall self,
    Forall tagged_id (Dict.keys (artifacts self))
    /\ ids_are_keys (artifacts self) /\ NoDup (Dict.keys (artifacts self)) ->
    Forall tagged_id (Dict.keys (artifacts (add_all self calls)))
    /\ ids_are_keys (artifacts (add_all self calls))
    /\ NoDup (Dict.keys (artifacts (add_all self calls))).
Proof.
  induction calls as [|call calls IH]; intros Hc self H; simpl; [assumption|].
  inversion Hc as [|? ? Hty Hrest]; subst.
  apply IH; [assumption|]. now apply add_artifact_keeps_store.
Qed.

(** ** Trace building *)

Module LoopFacts.

(** A loop whose body keeps an invariant and never raises ends with the
    invariant. *)
Lemma for_each_invariant {S A} (I : S -> Prop) (body : S -> A -> result S)
    (l : list A) :
  (forall s x, In x l -> I s -> exists s', body s x = Ok s' /\ I s') ->
  forall s, I s -> exists s', for_each body l s = Ok s' /\ I s'.
Proof.
  induction l as [|x l IH]; intros Hbody s Hs; simpl.
  - now exists s.
  - destruct (Hbody s x (or_introl eq_refl) Hs) as (s1 & E & H1).
    rewrite E. simpl. apply IH; [|assumption].
    intros s0 y Hy. apply Hbody. now right.
Qed.

(** If moreover the turn for [x] establishes [J], and every turn keeps
    [J], the loop ends with [J]. *)
Lemma for_each_reaches {S A} (I J : S -> Prop) (body : S -> A -> result S)
    (l : list A) (x : A) :
  In x l ->
  (forall s y, In y l -> I s -> exists s', body s y = Ok s' /\ I s') ->
  (forall s s', I s -> body s x = Ok s' -> J s') ->
  (forall s y s', In y l -> I s -> J s -> body s y = Ok s' -> J s') ->
  forall s, I s -> exists s', for_each body l s = Ok s' /\ I s' /\ J s'.
Proof.
  intros Hx Hbody Hhit Hkeep.
  induction l as [|y l IH]; [contradiction|].
  intros s Hs. simpl.
  destruct (Hbody s y (or_introl eq_refl) Hs) as (s1 & E & H1).
  rewrite E. simpl.
  destruct Hx as [-> | Hx].
  - assert (HJ : J s1) by exact (Hhit s s1 Hs E).
    destruct (for_each_invariant (fun s => I s /\ J s) body l) with (s := s1)
      as (s2 & E2 & H2 & HJ2); [|now split|now exists s2].
    intros s0 z Hz [H0 HJ0].
    destruct (Hbody s0 z (or_intror Hz) H0) as (s3 & E3 & H3).
    exists s3. repeat split; try assumption.
    apply (Hkeep s0 z s3); auto. now right.
  - apply IH; try assumption.
    + intros s0 z Hz. apply Hbody. now right.
    + intros s0 z s' Hz. apply Hkeep. now right.
Qed.

End LoopFacts.

Module TraceFacts.

Import Dict DictFacts LoopFacts.

Lemma trace_eqb_eq (t u : trace) : trace_eqb t u = true <-> t = u.
Proof.
  destruct t as [a b], u as [c d]. unfold trace_eqb. simpl.
  rewrite andb_true_iff, !String.eqb_eq. split.
  - now intros [-> ->].
  - now intros [= -> ->].
Qed.

Lemma existsb_trace (t : trace) (l : list trace) :
  existsb (trace_eqb t) l = true <-> In t l.
Proof.
  rewrite existsb_exists. split.
  - intros (u & Hu & E). apply trace_eqb_eq in E. now subst.
  - intros H. exists t. split; [assumption | now apply trace_eqb_eq].
Qed.

(** Whatever [trace_tuple] answers runs in a direction of the table. *)
Lemma trace_tuple_canonical (s t ts tt : string) (e : trace) :
  trace_tuple s t ts tt = Some e ->
  (e = (t, s) /\ canonical tt ts = true)
  \/ (e = (s, t) /\ canonical ts tt = true).
Proof.
  unfold trace_tuple, canonical.
  destruct (ts =? "SD")%string, (ts =? "SR")%string, (ts =? "VR")%string,
    (ts =? "VM")%string, (tt =? "SD")%string, (tt =? "SR")%string,
    (tt =? "VR")%string, (tt =? "VM")%string; simpl;
    intros [= <-] || discriminate; auto.
Qed.

(** One turn of the inner loop: the list is kept, or one new sound trace
    is appended. *)
Lemma consider_target_step (arts : dict artifact) (source_id : string)
    (sa : artifact) (traces : list trace) (target_id : string) :
  get arts source_id = Some sa ->
  exists traces',
    consider_target arts source_id traces target_id = Ok traces'
    /\ (traces' = traces
        \/ exists t ta,
            traces' = (traces ++ [t])%list /\ ~ In t traces
            /\ get arts target_id = Some ta /\ source_id <> target_id
            /\ trace_tuple source_id target_id (art_type sa) (art_type ta)
               = Some t).
Proof.
  intros Hs. unfold consider_target.
  destruct (existsb (String.eqb target_id) (keys arts)) eqn:Hk; simpl;
    [|now exists traces; auto].
  destruct (String.eqb_spec source_id target_id) as [E | E]; simpl;
    [now exists traces; auto|].
  destruct (mem_keys arts target_id Hk) as (ta & Ht).
  unfold lookup. rewrite Hs, Ht. simpl.
  destruct (trace_tuple source_id target_id (art_type sa) (art_type ta))
    as [t|] eqn:Ed; [|now exists traces; auto].
  destruct (existsb (trace_eqb t) traces) eqn:Ex; [now exists traces; auto|].
  exists (traces ++ [t])%list. split; [reflexivity|]. right.
  exists t, ta. repeat split; try assumption.
  intros Hin. apply existsb_trace in Hin. congruence.
Qed.

(** A turn of the inner loop for a stored target that the table joins to
    the source leaves the trace in the list. *)
Lemma consider_target_hit (arts : dict artifact) (source_id target_id : string)
    (sa ta : artifact) (traces traces' : list trace) (t : trace) :
  get arts source_id = Some sa -> get arts target_id = Some ta ->
  source_id <> target_id ->
  trace_tuple source_id target_id (art_type sa) (art_type ta) = Some t ->
  consider_target arts source_id traces target_id = Ok traces' ->
  In t traces'.
Proof.
  intros Hs Ht Hne Ed. unfold consider_target.
  rewrite (get_keys arts target_id ta Ht).
  apply String.eqb_neq in Hne. rewrite Hne. simpl.
  unfold lookup. rewrite Hs, Ht. simpl. rewrite Ed.
  destruct (existsb (trace_eqb t) traces) eqn:Ex; intros [= <-].
  - now apply existsb_trace.
  - apply in_or_app. right. now left.
Qed.

Lemma consider_target_keeps (arts : dict artifact) (source_id target_id : string)
    (sa : artifact) (traces traces' : list trace) (t : trace) :
  get arts source_id = Some sa ->
  consider_target arts source_id traces target_id = Ok traces' ->
  In t traces -> In t traces'.
Proof.
  intros Hs E Hin.
  destruct (consider_target_step arts source_id sa traces target_id Hs)
    as (tr & E' & Hcase).
  rewrite E in E'. injection E' as <-.
  destruct Hcase as [-> | (u & ta & -> & _)]; [assumption|].
  apply in_or_app. now left.
Qed.

Lemma consider_target_well_formed (arts : dict artifact) (source_id : string)
    (sa : artifact) (traces : list trace) (target_id : string) :
  get arts source_id = Some sa -> well_formed arts traces ->
  exists traces',
    consider_target arts source_id traces target_id = Ok traces'
    /\ well_formed arts traces'.
Proof.
  intros Hs [Hnd Hsound].
  destruct (consider_target_step arts source_id sa traces target_id Hs)
    as (tr & E & Hcase).
  exists tr. split; [assumption|].
  destruct Hcase as [-> | (t & ta & -> & Hnew & Ht & Hne & Ed)];
    [now split|].
  split.
  - apply NoDup_app; [assumption | repeat constructor; auto|].
    intros u Hu [<- | []]. contradiction.
  - apply Forall_app. split; [assumption|]. constructor; [|constructor].
    apply trace_tuple_canonical in Ed as [[-> Hc] | [-> Hc]];
      (split; [simpl; congruence | simpl; eauto]).
Qed.

End TraceFacts.

Section TraceTheorems.

Import Dict DictFacts LoopFacts TraceFacts.

Variable set_order : list string -> list string.
Hypothesis set_order_In : forall l x, In x (set_order l) <-> In x l.

Lemma scan_source_well_formed (arts : dict artifact) (traces : list trace)
    (source_id : string) (a : artifact) :
  In (source_id, a) arts -> well_formed arts traces ->
  exists traces',
    scan_source set_order arts traces (source_id, a) = Ok traces'
    /\ well_formed arts traces'.
Proof.
  intros Hin Hwf. destruct (in_get arts source_id a Hin) as (sa & Hs).
  unfold scan_source.
  apply for_each_invariant; [|assumption].
  intros s x _ Hs'. now apply consider_target_well_formed with (sa := sa).
Qed.

Lemma scan_source_keeps (arts : dict artifact) (traces traces' : list trace)
    (source_id : string) (a : artifact) (t : trace) :
  In (source_id, a) arts ->
  scan_source set_order arts traces (source_id, a) = Ok traces' ->
  In t traces -> In t traces'.
Proof.
  intros Hin E Ht. destruct (in_get arts source_id a Hin) as (sa & Hs).
  unfold scan_source in E.
  destruct (for_each_invariant (fun tr => In t tr)
              (consider_target arts source_id)
              (set_order (Re.findall_ids (art_text a)))) with (s := traces)
    as (tr & E' & Htr); [|assumption|congruence].
  intros s x _ Hs'.
  destruct (consider_target_step arts source_id sa s x Hs) as (s' & Es & _).
  exists s'. split; [assumption|].
  now apply (consider_target_keeps arts source_id x sa s s' t).
Qed.

(** The loops of [build_traces] end, and with a well-formed list. *)
Lemma traces_well_formed (arts : dict artifact) :
  exists traces,
    for_each (scan_source set_order arts) arts [] = Ok traces
    /\ well_formed arts traces.
Proof.
  apply for_each_invariant.
  - intros s [k a] Hin Hs. now apply scan_source_well_formed.
  - split; constructor.
Qed.

(** A stored source whose text mentions a stored target that the table
    joins it to leaves the trace in the final list. *)
Lemma mention_gives_trace (arts : dict artifact) (source_id target_id : string)
    (sa ta : artifact) (t : trace) :
  get arts source_id = Some sa -> get arts target_id = Some ta ->
  source_id <> target_id ->
  trace_tuple source_id target_id (art_type sa) (art_type ta) = Some t ->
  mentions (art_text sa) target_id ->
  exists traces,
    for_each (scan_source set_order arts) arts [] = Ok traces
    /\ well_formed arts traces /\ In t traces.
Proof.
  intros Hs Ht Hne Ed Hm.
  apply for_each_reaches with (x := (source_id, sa)).
  - now apply get_in.
  - intros s [k a] Hin Hwf. now apply scan_source_well_formed.
  - intros s s' _ E. unfold scan_source in E.
    destruct (for_each_reaches (fun _ => True) (fun tr => In t tr)
                (consider_target arts source_id)
                (set_order (Re.findall_ids (art_text sa))) target_id)
      with (s := s) as (tr & E' & _ & Htr).
    + now apply set_order_In.
    + intros s0 y _ _.
      destruct (consider_target_step arts source_id sa s0 y Hs)
        as (s1 & E1 & _). now exists s1.
    + intros s0 s1 _ E1.
      now apply (consider_target_hit arts source_id target_id sa ta s0 s1 t).
    + intros s0 y s1 _ _ H0 E1.
      now apply (consider_target_keeps arts source_id y sa s0 s1 t).
    + exact I.
    + congruence.
  - intros s [k a] s' Hin _ H0 E.
    now apply (scan_source_keeps arts s s' k a t).
  - split; constructor.
Qed.

Lemma build_traces_result (self : Conversation) (tr : list trace) :
  for_each (scan_source set_order (artifacts self)) (artifacts self) []
  = Ok tr ->
  build_traces set_order self = Ok (set_traces self tr).
Proof. intros E. unfold build_traces. now rewrite E. Qed.

(** C6. [build_traces] returns, and the trace list it leaves has no
    trace from an artifact to itself and no trace twice. *)
Theorem build_traces_no_loop_no_duplicate (self : Conversation) :
  exists self',
    build_traces set_order self = Ok self'
    /\ NoDup (traces self')
    /\ forall a b, In (a, b) (traces self') -> a <> b.
Proof.
  destruct (traces_well_formed (artifacts self)) as (tr & E & Hnd & Hsound).
  exists (set_traces self tr). split; [now apply build_traces_result|].
  split; [exact Hnd|].
  intros a b Hin. rewrite Forall_forall in Hsound.
  exact (proj1 (Hsound (a, b) Hin)).
Qed.

(** C3. A second [build_traces] right after a first one returns the
    conversation the first one returned: the same traces in the same
    order. *)
Theorem build_traces_idempotent (self : Conversation) :
  exists once,
    build_traces set_order self = Ok once
    /\ exists twice,
        build_traces set_order once = Ok twice
        /\ traces twice = traces once
        /\ artifacts once = artifacts self.
Proof.
  destruct (traces_well_formed (artifacts self)) as (tr & E & _).
  exists (set_traces self tr). split; [now apply build_traces_result|].
  exists (set_traces self tr). split; [|split; reflexivity].
  unfold build_traces. simpl. now rewrite E.
Qed.

(** C1. When the store holds an artifact of type [SR] under [sr_id] and
    one of type [SD] under [sd_id], and the text of either mentions the
    key of the other, [build_traces] leaves the trace [(sr_id, sd_id)]
    in the list and never [(sd_id, sr_id)]. *)
Theorem requirement_before_design (self : Conversation)
    (sr_id sd_id : string) (R D : artifact) :
  get (artifacts self) sr_id = Some R -> art_type R = "SR" ->
  get (artifacts self) sd_id = Some D -> art_type D = "SD" ->
  mentions (art_text R) sd_id \/ mentions (art_text D) sr_id ->
  exists self',
    build_traces set_order self = Ok self'
    /\ In (sr_id, sd_id) (traces self')
    /\ ~ In (sd_id, sr_id) (traces self').
Proof.
  intros HR HtR HD HtD Hm.
  assert (Hne : sr_id <> sd_id).
  { intros ->. rewrite HR in HD. injection HD as ->.
    rewrite HtR in HtD. discriminate. }
  assert (Hex : exists tr,
             for_each (scan_source set_order (artifacts self))
               (artifacts self) [] = Ok tr
             /\ well_formed (artifacts self) tr /\ In (sr_id, sd_id) tr).
  { destruct Hm as [Hm | Hm].
    - apply (mention_gives_trace _ sr_id sd_id R D); auto.
      now rewrite HtR, HtD.
    - apply (mention_gives_trace _ sd_id sr_id D R); auto.
      now rewrite HtR, HtD. }
  destruct Hex as (tr & E & [_ Hsound] & Hin).
  exists (set_traces self tr). split; [now apply build_traces_result|].
  split; [exact Hin|].
  intros Hrev. rewrite Forall_forall in Hsound.
  destruct (Hsound _ Hrev) as (_ & x & y & Hx & Hy & Hc). simpl in Hx, Hy.
  rewrite HD in Hx. rewrite HR in Hy.
  injection Hx as <-. injection Hy as <-.
  rewrite HtR, HtD in Hc. discriminate.
Qed.

(** What the inner loop does for a [VM] source whose text mentions one
    stored requirement, itself and an identifier that is not stored. *)
Lemma consider_vm_target (arts : dict artifact) (sr_id vm_id absent : string)
    (R V : artifact) (s : list trace) (y : string) :
  get arts sr_id = Some R -> art_type R = "SR" ->
  get arts vm_id = Some V -> art_type V = "VM" ->
  get arts absent = None ->
  y = sr_id \/ y = absent \/ y = vm_id ->
  s = [] \/ s = [(sr_id, vm_id)] ->
  exists s',
    consider_target arts vm_id s y = Ok s'
    /\ (s' = [] \/ s' = [(sr_id, vm_id)])
    /\ (y = sr_id -> s' = [(sr_id, vm_id)])
    /\ (s = [(sr_id, vm_id)] -> s' = [(sr_id, vm_id)]).
Proof.
  intros HR HtR HV HtV Habs Hy Hs.
  assert (Hne : vm_id <> sr_id).
  { intros E. rewrite E in HV. rewrite HR in HV. injection HV as ->.
    rewrite HtR in HtV. discriminate. }
  unfold consider_target.
  destruct Hy as [-> | [-> | ->]].
  - rewrite (get_keys arts sr_id R HR).
    apply String.eqb_neq in Hne. rewrite Hne. simpl.
    unfold lookup. rewrite HV, HR. simpl. rewrite HtV, HtR.
    change (trace_tuple vm_id sr_id "VM" "SR") with (Some (sr_id, vm_id)).
    destruct Hs as [-> | ->].
    + simpl. eexists. split; [reflexivity|]. auto.
    + assert (Ex : existsb (trace_eqb (sr_id, vm_id)) [(sr_id, vm_id)] = true).
      { apply existsb_trace. now left. }
      rewrite Ex. eexists. split; [reflexivity|]. auto.
  - assert (Hk : existsb (String.eqb absent) (keys arts) = false).
    { destruct (existsb (String.eqb absent) (keys arts)) eqn:Hk;
        [|reflexivity].
      destruct (mem_keys arts absent Hk) as (v & Hv). congruence. }
    rewrite Hk. simpl. exists s. split; [reflexivity|].
    split; [assumption|]. split; [|auto].
    intros ->. congruence.
  - rewrite String.eqb_refl, andb_false_r. exists s. split; [reflexivity|].
    split; [assumption|]. split; [|auto]. intros E. congruence.
Qed.

(** C7. A [VM] artifact whose text mentions a stored [SR] artifact and
    an identifier that is not a key of the store (and nothing else but,
    possibly, itself) contributes exactly the trace from the requirement
    to itself; [build_traces] returns with that trace once in its list
    and with no trace to or from the missing identifier. *)
Theorem absent_mention_adds_no_trace (self : Conversation)
    (sr_id vm_id absent : string) (R V : artifact) :
  get (artifacts self) sr_id = Some R -> art_type R = "SR" ->
  get (artifacts self) vm_id = Some V -> art_type V = "VM" ->
  get (artifacts self) absent = None ->
  mentions (art_text V) sr_id -> mentions (art_text V) absent ->
  (forall y, mentions (art_text V) y ->
             y = sr_id \/ y = absent \/ y = vm_id) ->
  scan_source set_order (artifacts self) [] (vm_id, V) = Ok [(sr_id, vm_id)]
  /\ exists self',
      build_traces set_order self = Ok self'
      /\ count_occ trace_dec (traces self') (sr_id, vm_id) = 1
      /\ forall a b, In (a, b) (traces self') -> a <> absent /\ b <> absent.
Proof.
  intros HR HtR HV HtV Habs Hsr Hab Honly.
  split.
  - unfold scan_source.
    destruct (for_each_reaches
                (fun s => s = [] \/ s = [(sr_id, vm_id)])
                (fun s => s = [(sr_id, vm_id)])
                (consider_target (artifacts self) vm_id)
                (set_order (Re.findall_ids (art_text V))) sr_id)
      with (s := @nil trace) as (tr & E & _ & Htr).
    + now apply set_order_In.
    + intros s y Hy Hs. apply (proj1 (set_order_In _ _)) in Hy.
      destruct (consider_vm_target (artifacts self) sr_id vm_id absent R V
                  s y HR HtR HV HtV Habs (Honly y Hy) Hs)
        as (s' & E & H1 & _). now exists s'.
    + intros s s' Hs E.
      destruct (consider_vm_target (artifacts self) sr_id vm_id absent R V
                  s sr_id HR HtR HV HtV Habs (or_introl eq_refl) Hs)
        as (s1 & E1 & _ & H2 & _).
      rewrite E in E1. injection E1 as <-. now apply H2.
    + intros s y s' Hy Hs HJ E. apply (proj1 (set_order_In _ _)) in Hy.
      destruct (consider_vm_target (artifacts self) sr_id vm_id absent R V
                  s y HR HtR HV HtV Habs (Honly y Hy) Hs)
        as (s1 & E1 & _ & _ & H3).
      rewrite E in E1. injection E1 as <-. now apply H3.
    + now left.
    + rewrite <- Htr. exact E.
  - destruct (mention_gives_trace (artifacts self) vm_id sr_id V R
                (sr_id, vm_id) HV HR) as (tr & E & [Hnd Hsound] & Hin).
    + intros E. rewrite E in HV. rewrite HR in HV. injection HV as ->.
      rewrite HtR in HtV. discriminate.
    + now rewrite HtV, HtR.
    + assumption.
    + exists (set_traces self tr). split; [now apply build_traces_result|].
      split.
      * now apply NoDup_count_occ'.
      * intros a b Hab'. rewrite Forall_forall in Hsound.
        destruct (Hsound _ Hab') as (_ & x & y & Hx & Hy & _).
        simpl in Hx, Hy. split; intros ->; congruence.
Qed.

End TraceTheorems.

(** ** The properties at work on the drone delivery scenario *)

Lemma first_seen_In (l : list string) (x : string) :
  In x (first_seen l) <-> In x l.
Proof.
  induction l as [|y l IH]; simpl; [tauto|].
  rewrite filter_In, IH, negb_true_iff, String.eqb_neq.
  destruct (string_dec y x) as [-> | Hne]; [tauto|].
  split; [tauto|]. intros [H | H]; [tauto|]. right. split; [assumption|].
  congruence.
Qed.

Lemma first_seen_NoDup (l : list string) : NoDup (first_seen l).
Proof.
  induction l as [|y l IH]; simpl; constructor.
  - rewrite filter_In, negb_true_iff, String.eqb_neq. tauto.
  - now apply NoDup_filter.
Qed.

(** The scenario of the specification: one trace, from the requirement
    to the design. *)
Example drone_traces :
  build_traces first_seen drone
  = Ok (set_traces drone [("SR-001", "SD-001")]).
Proof. vm_compute. reflexivity. Qed.

Example drone_components :
  option_map art_components (Dict.get (artifacts drone) "SR-001")
  = Some [mk_component "Payload Capacity" ["Must carry 5kg."]].
Proof. vm_compute. reflexivity. Qed.

Example drone_vm_traces :
  build_traces first_seen drone_vm
  = Ok (set_traces drone_vm [("SR-001", "VM-001")]).
Proof. vm_compute. reflexivity. Qed.

(** The patterns on texts that try their corners. *)
Example findall_ids_corners :
  Re.findall_ids
    "SR-001 XSR-002 SD-3_ VM-44, (VR-5) SR-0012 AB-1-2 AB-1CD-2 ZZ-999."
  = ["SR-001"; "VM-44"; "VR-5"; "SR-0012"; "AB-1"; "ZZ-999"].
Proof. vm_compute. reflexivity. Qed.

Example search_header_corners :
  Re.search_header ("abc ####  " ++ String Char.LF "SR-0071x ### SD-1")
  = Some "SR-0071"
  /\ Re.search_header "### sr-1 ###AB-" = None
  /\ Re.search_header "###AB-12" = Some "AB-12".
Proof. vm_compute. auto. Qed.

Example sub_dup_header_corners :
  Re.sub_dup_header "SR-001"
    "sr-001:   ###sr-001:  body SR-001: ### SR-001: x"
  = "body SR-001: ### SR-001: x"
  /\ Re.sub_dup_header "SR-001" " SR-001: ### SR-001: x"
     = " SR-001: ### SR-001: x"
  /\ Re.sub_dup_header " a" " a: ###   a: rest" = "rest"
  /\ Re.sub_dup_header "a.c" "abc: ### abc: rest" = "abc: ### abc: rest".
Proof. vm_compute. auto. Qed.

Example parse_components_fallback :
  _parse_components
    ("x" ++ String Char.LF " - **Name**: d0"
       ++ String Char.LF "- d1 - " ++ String Char.LF "cont")
  = [mk_component "Name" ["d1 -"; "cont"]].
Proof. vm_compute. reflexivity. Qed.

Example generated_ids :
  map fst
    (artifacts
       (add_all (fresh "drone delivery system")
          [("SR", "The payload."); ("Unknown", "Notes."); ("SR", "Range.")]))
  = ["SR-001"; "UNKNOWN-002"; "SR-003"].
Proof. vm_compute. reflexivity. Qed.

Lemma requirement_before_design_witness :
  exists self',
    build_traces first_seen drone = Ok self'
    /\ In ("SR-001", "SD-001") (traces self')
    /\ ~ In ("SD-001", "SR-001") (traces self').
Proof.
  eapply (requirement_before_design first_seen first_seen_In drone
            "SR-001" "SD-001").
  - vm_compute. reflexivity.
  - reflexivity.
  - vm_compute. reflexivity.
  - reflexivity.
  - right. unfold mentions. vm_compute. auto.
Defined.

Lemma drone_keys_counted : Forall counted_id (Dict.keys (artifacts drone)).
Proof.
  vm_compute Dict.keys. repeat constructor.
  - exists "SR", "001". repeat split. discriminate.
  - exists "SD", "001". repeat split. discriminate.
Qed.

Lemma from_dict_to_dict_witness :
  exists c',
    from_dict (to_dict drone) = Ok (Some c')
    /\ system_topic c' = system_topic drone
    /\ artifacts c' = artifacts drone
    /\ traces c' = traces drone
    /\ (numeric_suffix "SR-001" <= _artifact_counter c')%N
    /\ (numeric_suffix "SD-001" <= _artifact_counter c')%N.
Proof.
  destruct (from_dict_to_dict drone) as (c' & E & Ht & Ha & Htr & Hc).
  - vm_compute. discriminate.
  - pose proof drone_keys_counted as K. rewrite Forall_forall in K.
    exists c'. repeat split; try assumption;
      (apply Hc; [|apply K]; vm_compute; auto).
Defined.

Lemma first_header_fixes_id_witness :
  let self := set_counter drone 41 in
  let text := "Imported. ### SR-007: Range" in
  _extract_or_generate_id self "VR" text = ("SR-007", self)
  /\ _artifact_counter (add_artifact self "VR" text) = 41%N
  /\ option_map art_type
       (Dict.get (artifacts (add_artifact self "VR" text)) "SR-007")
     = Some "VR".
Proof.
  intros self text.
  destruct (first_header_fixes_id "Imported. " ": Range") with
    (self := self) (artifact_type := "VR") as [E H].
  - intros i Hi. simpl in Hi.
    do 10 (destruct i as [|i]; [vm_compute; reflexivity|]). lia.
  - reflexivity.
  - destruct H as [Hc Hg]; [discriminate|].
    split; [exact E|]. split; [exact Hc|].
    exact (f_equal (option_map art_type) Hg).
Defined.

Lemma clean_artifact_text_spec_witness :
  _clean_artifact_text "SR-001" ("sr-001: ### SR-001: Payload SR-001: ### SR-001: x ")
  = "Payload SR-001: ### SR-001: x"
  /\ _clean_artifact_text "SR-001" tight_header = "Payload"
  /\ _clean_artifact_text "SR-001" text_with_newline = "### SR-001: Payload".
Proof.
  split; [|split].
  - apply (proj1 (clean_artifact_text_spec "SR-001" _)
             "sr-001: ### SR-001: " "Payload SR-001: ### SR-001: x ");
      reflexivity.
  - apply (proj1 (proj2 (clean_artifact_text_spec "SR-001" _))
             "SR-001:###SR-001:" "Payload"); [reflexivity|].
    exists "SR-001", "", "", "SR-001", "". repeat split.
  - transitivity (Str.strip text_with_newline); [|vm_compute; reflexivity].
    apply (proj2 (proj2 (clean_artifact_text_spec "SR-001" _))).
    intros p rest E Hp.
    pose proof (CleanFacts.dup_header_at_complete "SR-001" p rest Hp) as M.
    rewrite <- E in M. vm_compute in M. discriminate M.
Defined.

Lemma absent_mention_adds_no_trace_witness :
  scan_source first_seen (artifacts drone_vm) []
    ("VM-001", mk_artifact "VM-001" "VM" vm_text (_parse_components vm_text))
  = Ok [("SR-001", "VM-001")]
  /\ exists self',
      build_traces first_seen drone_vm = Ok self'
      /\ count_occ trace_dec (traces self') ("SR-001", "VM-001") = 1
      /\ forall a b, In (a, b) (traces self') ->
                     a <> "ZZ-999" /\ b <> "ZZ-999".
Proof.
  eapply (absent_mention_adds_no_trace first_seen first_seen_In drone_vm
            "SR-001" "VM-001" "ZZ-999").
  - vm_compute. reflexivity.
  - reflexivity.
  - vm_compute. reflexivity.
  - reflexivity.
  - vm_compute. reflexivity.
  - unfold mentions. vm_compute. auto.
  - unfold mentions. vm_compute. auto.
  - unfold mentions. vm_compute. intros y [<- | [<- | [<- | []]]]; auto.
Defined.

Lemma stored_text_is_trimmed_witness :
  exists a,
    Dict.get (artifacts drone) "SD-001" = Some a
    /\ Str.strip (art_text a) = art_text a
    /\ Str.head_is Char.is_space (art_text a) = false
    /\ Str.last_is Char.is_space (art_text a) = false.
Proof.
  eexists. split; [vm_compute; reflexivity|].
  apply (stored_text_is_trimmed "drone delivery system"
           (fresh "drone delivery system")
           [("SR", sr_text); ("SD", sd_text)] eq_refl "SD-001").
  vm_compute. auto.
Defined.

Lemma from_dict_without_topic_witness :
  from_dict (mk_payload None None None []) = Ok None
  /\ from_dict (mk_payload None (Some (artifacts drone)) (Some []) ["user"])
     = Ok None.
Proof.
  split.
  - apply (proj1 from_dict_without_topic). reflexivity.
  - apply (proj2 from_dict_without_topic). reflexivity.
Defined.

(** * Further properties of the code *)

(** ** Insertion, identifiers and the counter *)

Module MoreDictFacts.

Import Dict DictFacts.

Lemma get_set_other {V} (d : dict V) (k k' : string) (v : V) :
  k' <> k -> get (set d k v) k' = get d k'.
Proof.
  intros Hne. induction d as [|[k0 v0] d IH]; simpl.
  - apply String.eqb_neq in Hne. rewrite String.eqb_sym in Hne.
    now rewrite Hne.
  - destruct (String.eqb_spec k0 k) as [-> | E]; simpl.
    + assert (Hk : (k =? k')%string = false).
      { apply String.eqb_neq. congruence. }
      now rewrite Hk.
    + destruct (k0 =? k')%string; [reflexivity | exact IH].
Qed.

Lemma get_none_keys {V} (d : dict V) (k : string) :
  get d k = None <-> ~ In k (keys d).
Proof.
  split.
  - intros H Hin. unfold keys in Hin.
    apply in_map_iff in Hin as ([k' v] & E & Hin). simpl in E. subst k'.
    destruct (in_get d k v Hin) as (v' & Hv). congruence.
  - intros H. destruct (get d k) as [v|] eqn:E; [|reflexivity].
    exfalso. apply H. apply get_in in E. unfold keys.
    apply in_map_iff. now exists (k, v).
Qed.

(** Assigning to a key keeps the order of the keys: an existing key
    stays where it is, a new key goes to the end. *)
Lemma keys_set_cases {V} (d : dict V) (k : string) (v : V) :
  (In k (keys d) /\ keys (set d k v) = keys d)
  \/ (~ In k (keys d) /\ keys (set d k v) = (keys d ++ [k])%list).
Proof.
  induction d as [|[k0 v0] d IH]; simpl.
  - right. split; [tauto | reflexivity].
  - destruct (String.eqb_spec k0 k) as [-> | E]; simpl.
    + left. split; [now left | reflexivity].
    + destruct IH as [[Hin Hk] | [Hn Hk]].
      * left. split; [now right | now rewrite Hk].
      * right. split; [|now rewrite Hk]. intros [H | H]; congruence.
Qed.

End MoreDictFacts.

Module IdNumberFacts.

Import Char Str Re StrFacts ReFacts StoreFacts.

Lemma int_of_digits_parse (s : string) : int_of_digits s = parse_from 0 s.
Proof.
  unfold int_of_digits. generalize 0%N as acc.
  induction s as [|c s IH]; intros acc; simpl; [reflexivity | apply IH].
Qed.

Lemma parse_from_uint_acc (d : Decimal.uint) (acc : positive) :
  parse_from (Npos acc) (NilEmpty.string_of_uint d)
  = Npos (Pos.of_uint_acc d acc).
Proof.
  revert acc. induction d; intros acc;
    cbn [parse_from NilEmpty.string_of_uint Pos.of_uint_acc];
    try reflexivity; rewrite <- IHd; f_equal;
    match goal with
    | |- context [digit_value ?c] =>
        let v := eval vm_compute in (digit_value c) in
        change (digit_value c) with v
    end; lia.
Qed.

Lemma parse_from_uint (d : Decimal.uint) :
  parse_from 0 (NilEmpty.string_of_uint d) = Pos.of_uint d.
Proof.
  induction d; cbn [parse_from NilEmpty.string_of_uint Pos.of_uint];
    try reflexivity; try exact IHd; apply parse_from_uint_acc.
Qed.

(** [int(str(n)) == n]. *)
Lemma int_of_str (n : N) : int_of_digits (str_of_N n) = n.
Proof.
  rewrite int_of_digits_parse. unfold str_of_N, NilZero.string_of_uint.
  rewrite <- (DecimalN.Unsigned.of_to n) at 2. unfold N.of_uint.
  destruct (N.to_uint n) eqn:E; try apply (parse_from_uint (_ u)).
  reflexivity.
Qed.

(** [int(format(n, "03d")) == n]: the padding adds nothing. *)
Lemma int_of_format_03d (n : N) : int_of_digits (format_03d n) = n.
Proof.
  pose proof (int_of_str n) as H. rewrite int_of_digits_parse in *.
  unfold format_03d.
  destruct (str_of_N n) as [|a [|b [|c s]]]; exact H.
Qed.

Lemma numeric_suffix_generated (tag : string) (n : N) :
  numeric_suffix (tag ++ "-" ++ format_03d n) = n.
Proof.
  unfold numeric_suffix.
  rewrite trailing_digits_tagged by apply all_digits_format_03d.
  apply int_of_format_03d.
Qed.

End IdNumberFacts.

(** The limit on conversions between numbers and decimal strings. *)
Module LimitFacts.

Import Char Str StrFacts StoreFacts IdNumberFacts.

Lemma digit_value_le (c : ascii) :
  is_digit c = true -> (digit_value c <= 9)%N.
Proof.
  unfold is_digit, between, digit_value. intros H.
  apply andb_true_iff in H as [H1 H2]. apply N.leb_le in H1, H2. lia.
Qed.

Lemma pow10_succ (n : nat) :
  (10 ^ N.of_nat (S n) = 10 * 10 ^ N.of_nat n)%N.
Proof. rewrite Nat2N.inj_succ. apply N.pow_succ_r'. Qed.

(** The value of [k] digits read after [acc] lies between [acc] and
    [acc + 1], both shifted by [k] digits. *)
Lemma parse_from_bounds (s : string) :
  all_digits s = true ->
  forall acc,
    (acc * 10 ^ N.of_nat (String.length s) <= parse_from acc s
     /\ parse_from acc s < (acc + 1) * 10 ^ N.of_nat (String.length s))%N.
Proof.
  induction s as [|c s IH]; intros H acc.
  - simpl. lia.
  - cbn [all_digits] in H. apply andb_true_iff in H as [Hc Hs].
    cbn [parse_from String.length]. rewrite pow10_succ.
    pose proof (digit_value_le c Hc) as Hd.
    destruct (IH Hs (acc * 10 + digit_value c)%N) as [L U].
    set (P := (10 ^ N.of_nat (String.length s))%N) in *. nia.
Qed.

Lemma str_of_N_upper (n : N) :
  (n < 10 ^ N.of_nat (String.length (str_of_N n)))%N.
Proof.
  destruct (all_digits_str_of_N n) as [Hd _].
  destruct (parse_from_bounds _ Hd 0%N) as [_ U].
  rewrite <- int_of_digits_parse, int_of_str in U. lia.
Qed.

Lemma to_uint_normal (n : N) : Decimal.unorm (N.to_uint n) = N.to_uint n.
Proof.
  pose proof (DecimalN.Unsigned.to_of (N.to_uint n)) as H.
  rewrite DecimalN.Unsigned.of_to in H. now symmetry.
Qed.

(** [str(n)] does not start with a zero, except for [n = 0]. *)
Lemma str_of_N_head (n : N) :
  n <> 0%N ->
  exists c t, str_of_N n = String c t /\ (1 <= digit_value c)%N.
Proof.
  intros Hn. pose proof (to_uint_normal n) as Hu.
  unfold str_of_N, NilZero.string_of_uint.
  destruct (N.to_uint n) as [|d|d|d|d|d|d|d|d|d|d] eqn:E;
    [cbn in Hu; discriminate Hu | |
     eexists; eexists; split; [reflexivity | vm_compute; discriminate] ..].
  exfalso. unfold Decimal.unorm in Hu. cbn [Decimal.nzhead] in Hu.
  pose proof (DecimalFacts.nb_digits_nzhead d) as B.
  destruct (Decimal.nzhead d) eqn:Z; try discriminate Hu.
  - injection Hu as <-. apply Hn.
    rewrite <- (DecimalN.Unsigned.of_to n), E. reflexivity.
  - injection Hu as ->. cbn [Decimal.nb_digits] in B. lia.
Qed.

Lemma str_of_N_lower (n : N) :
  n <> 0%N ->
  (10 ^ (N.of_nat (String.length (str_of_N n)) - 1) <= n)%N.
Proof.
  intros Hn. destruct (str_of_N_head n Hn) as (c & t & E & Hc).
  destruct (all_digits_str_of_N n) as [Hd _].
  pose proof (int_of_str n) as Hv.
  rewrite int_of_digits_parse in Hv. rewrite E in *.
  cbn [all_digits] in Hd. apply andb_true_iff in Hd as [_ Ht].
  cbn [parse_from String.length] in *.
  destruct (parse_from_bounds t Ht (0 * 10 + digit_value c)%N) as [L _].
  replace (N.of_nat (S (String.length t)) - 1)%N
    with (N.of_nat (String.length t)) by lia.
  rewrite Hv in L.
  set (P := (10 ^ N.of_nat (String.length t))%N) in *. nia.
Qed.

(** A number converts exactly when it is below ten to the power of the
    limit. *)
Lemma converts_iff (n : N) :
  converts n = true <-> (n < 10 ^ int_max_str_digits)%N.
Proof.
  unfold converts, within_limit. rewrite N.leb_le.
  split; intros H.
  - pose proof (str_of_N_upper n) as U.
    pose proof (N.pow_le_mono_r 10 _ _ ltac:(discriminate) H) as M. lia.
  - destruct (N.eq_dec n 0) as [-> | Hn]; [vm_compute; discriminate|].
    pose proof (str_of_N_lower n Hn) as Lw.
    destruct (N.le_gt_cases (N.of_nat (String.length (str_of_N n)))
                int_max_str_digits) as [|G]; [assumption|].
    exfalso.
    assert (Hle : (int_max_str_digits
                   <= N.of_nat (String.length (str_of_N n)) - 1)%N) by lia.
    pose proof (N.pow_le_mono_r 10 _ _ ltac:(discriminate) Hle) as M. lia.
Qed.

Lemma converts_le (n m : N) :
  (n <= m)%N -> converts m = true -> converts n = true.
Proof. rewrite !converts_iff. lia. Qed.

Lemma within_limit_format_03d (n : N) :
  converts n = true -> within_limit (format_03d n) = true.
Proof.
  unfold converts, format_03d.
  destruct (str_of_N n) as [|a [|b [|c s]]]; intros H;
    first [exact H | reflexivity].
Qed.

(** [int(format(n, "03d")) == n] for the numbers that convert. *)
Lemma int_format_03d (n : N) :
  converts n = true -> int (format_03d n) = Ok n.
Proof.
  intros H. rewrite (int_within _ (within_limit_format_03d n H)).
  now rewrite int_of_format_03d.
Qed.

End LimitFacts.

Module InsertFacts.

Import Char Str Re StrFacts ReFacts TokenFacts StoreFacts Dict DictFacts.
Import MoreDictFacts IdNumberFacts.

Lemma contains_hyphen_app (a b : string) : contains "-" (a ++ "-" ++ b) = true.
Proof.
  induction a as [|c a IH].
  - reflexivity.
  - change (String c a ++ "-" ++ b) with (String c (a ++ "-" ++ b)).
    cbn [contains]. rewrite IH. apply orb_true_r.
Qed.

Lemma token_has_hyphen (g : string) :
  is_id_token g = true -> contains "-" g = true.
Proof.
  intros H.
  destruct (is_id_token_inv g H) as (a & b & ds & -> & _).
  apply (contains_hyphen_app (String a (String b "")) ds).
Qed.

(** Every identifier [_extract_or_generate_id] returns has a hyphen, so
    it is never empty: the guard on an empty identifier in
    [add_artifact] never fires. *)
Lemma extract_or_generate_hyphen (self : Conversation) (ty text : string) :
  contains "-" (fst (_extract_or_generate_id self ty text)) = true.
Proof.
  unfold _extract_or_generate_id.
  destruct (search_header text) as [g|] eqn:E; simpl.
  - apply token_has_hyphen. now apply search_header_token in E.
  - apply contains_hyphen_app.
Qed.

Lemma extract_or_generate_nonempty (self : Conversation) (ty text : string) :
  is_empty (fst (_extract_or_generate_id self ty text)) = false.
Proof.
  pose proof (extract_or_generate_hyphen self ty text) as H.
  destruct (fst (_extract_or_generate_id self ty text)); [discriminate H|].
  reflexivity.
Qed.

Lemma extract_or_generate_rest (self : Conversation) (ty text : string) :
  let self1 := snd (_extract_or_generate_id self ty text) in
  system_topic self1 = system_topic self
  /\ artifacts self1 = artifacts self /\ traces self1 = traces self.
Proof.
  unfold _extract_or_generate_id.
  destruct (search_header text); simpl; auto.
Qed.

(** A call with a type and a text stores one artifact under the
    identifier assigned. *)
Lemma add_artifact_unfold (self : Conversation) (ty text : string) :
  ty <> "" -> text <> "" ->
  let e := _extract_or_generate_id self ty text in
  add_artifact self ty text
  = set_artifacts (snd e)
      (set (artifacts self) (fst e)
         (mk_artifact (fst e) ty (_clean_artifact_text (fst e) text)
            (_parse_components (_clean_artifact_text (fst e) text)))).
Proof.
  intros Hty Htext e. unfold add_artifact.
  rewrite (is_empty_false ty Hty), (is_empty_false text Htext). simpl.
  pose proof (extract_or_generate_nonempty self ty text) as Hne.
  destruct (extract_or_generate_rest self ty text) as (_ & Ha & _).
  subst e. destruct (_extract_or_generate_id self ty text) as [i self1].
  simpl in *. now rewrite Hne, Ha.
Qed.

Lemma add_artifact_rest (self : Conversation) (ty text : string) :
  system_topic (add_artifact self ty text) = system_topic self
  /\ traces (add_artifact self ty text) = traces self.
Proof.
  unfold add_artifact.
  destruct (is_empty ty || is_empty text); [now split|].
  destruct (extract_or_generate_rest self ty text) as (Ht & _ & Htr).
  destruct (_extract_or_generate_id self ty text) as [i self1].
  simpl in *. destruct (is_empty i); simpl; now split.
Qed.

Lemma add_artifact_skip (self : Conversation) (ty text : string) :
  ty = "" \/ text = "" -> add_artifact self ty text = self.
Proof.
  intros [-> | ->]; unfold add_artifact; simpl; [reflexivity|].
  now rewrite orb_true_r.
Qed.

Lemma empty_or_not (s : string) : s = "" \/ s <> "".
Proof. destruct s; [now left | right; discriminate]. Qed.

Lemma headerless_step (self : Conversation) (ty text : string) :
  search_header text = None ->
  _extract_or_generate_id self ty text
  = (upper ty ++ "-" ++ format_03d (_artifact_counter self + 1),
     set_counter self (_artifact_counter self + 1)).
Proof. intros H. unfold _extract_or_generate_id. now rewrite H. Qed.

Lemma count_from_cons (n : N) (len : nat) :
  count_from n (S len) = (n + 1)%N :: count_from (n + 1) len.
Proof.
  unfold count_from. cbn [seq map]. f_equal.
  rewrite <- seq_shift, map_map. apply map_ext. intros i. lia.
Qed.

Lemma count_from_above (n : N) (len : nat) (x : N) :
  In x (count_from n len) -> (n < x)%N.
Proof.
  unfold count_from. intros H. apply in_map_iff in H as (i & <- & Hi).
  apply in_seq in Hi. lia.
Qed.

Lemma count_from_NoDup (n : N) (len : nat) : NoDup (count_from n len).
Proof.
  revert n. induction len as [|len IH]; intros n; [constructor|].
  rewrite count_from_cons. constructor; [|apply IH].
  intros H. apply count_from_above in H. lia.
Qed.

Lemma max_counter_of_app (l : list string) (k : string) :
  max_counter_of (l ++ [k])
  = match search_hyphen_digits k with
    | Some g =>
        match int g with
        | Ok num => N.max (max_counter_of l) num
        | Raise _ => max_counter_of l
        end
    | None => max_counter_of l
    end.
Proof.
  unfold max_counter_of. rewrite fold_left_app. simpl.
  destruct (search_hyphen_digits k) as [g|]; [|reflexivity].
  destruct (int g) as [num|]; [|reflexivity].
  match goal with
  | |- (if (?m <? ?x)%N then _ else _) = _ =>
      destruct (N.ltb_spec m x); lia
  end.
Qed.

Lemma add_artifact_counter (self : Conversation) (ty text : string) :
  _artifact_counter (add_artifact self ty text) = _artifact_counter self
  \/ _artifact_counter (add_artifact self ty text)
     = (_artifact_counter self + 1)%N.
Proof.
  destruct (empty_or_not ty) as [E | Hty];
    [left; now rewrite add_artifact_skip by auto|].
  destruct (empty_or_not text) as [E | Htx];
    [left; now rewrite add_artifact_skip by auto|].
  rewrite (add_artifact_unfold self ty text Hty Htx).
  cbn [set_artifacts _artifact_counter].
  unfold _extract_or_generate_id.
  destruct (search_header text); [now left | now right].
Qed.

End InsertFacts.

(** X1. A call to [add_artifact] with a type and a text stores, unless
    the format of a new identifier raises: looking up the identifier
    assigned gives an artifact with that identifier, the type given, the
    cleaned text and the components parsed from the cleaned text. *)
Theorem add_artifact_then_lookup (self : Conversation) (ty text : string) :
  ty <> "" -> text <> "" -> generation_raises self text = false ->
  let artifact_id := fst (_extract_or_generate_id self ty text) in
  Dict.get (artifacts (add_artifact self ty text)) artifact_id
  = Some (mk_artifact artifact_id ty
            (_clean_artifact_text artifact_id text)
            (_parse_components (_clean_artifact_text artifact_id text))).
Proof.
  intros Hty Htext _ artifact_id.
  rewrite (InsertFacts.add_artifact_unfold self ty text Hty Htext).
  simpl. apply DictFacts.get_set_same.
Qed.

(** X2. [add_artifact] leaves the topic and the traces alone and touches
    one entry of the store at most: every other identifier looks up as
    before, and the keys keep their order (an identifier already stored
    keeps its place, a new one goes last). *)
Theorem add_artifact_frame (self : Conversation) (ty text : string) :
  let self' := add_artifact self ty text in
  let artifact_id := fst (_extract_or_generate_id self ty text) in
  system_topic self' = system_topic self
  /\ traces self' = traces self
  /\ (forall k, k <> artifact_id ->
                Dict.get (artifacts self') k = Dict.get (artifacts self) k)
  /\ (Dict.keys (artifacts self') = Dict.keys (artifacts self)
      \/ (~ In artifact_id (Dict.keys (artifacts self))
          /\ Dict.keys (artifacts self')
             = (Dict.keys (artifacts self) ++ [artifact_id])%list)).
Proof.
  intros self' artifact_id.
  destruct (InsertFacts.empty_or_not ty) as [Hty | Hty];
    [unfold self'; rewrite InsertFacts.add_artifact_skip by auto; auto|].
  destruct (InsertFacts.empty_or_not text) as [Htx | Htx];
    [unfold self'; rewrite InsertFacts.add_artifact_skip by auto; auto|].
  unfold self'.
  rewrite (InsertFacts.add_artifact_unfold self ty text Hty Htx).
  destruct (InsertFacts.extract_or_generate_rest self ty text)
    as (Ht & _ & Htr).
  simpl. split; [exact Ht|]. split; [exact Htr|]. split.
  - intros k Hk. now apply MoreDictFacts.get_set_other.
  - destruct (MoreDictFacts.keys_set_cases (artifacts self) artifact_id
                (mk_artifact artifact_id ty
                   (_clean_artifact_text artifact_id text)
                   (_parse_components
                      (_clean_artifact_text artifact_id text))))
      as [[_ E] | [Hn E]]; [now left | now right].
Qed.

(** X3. Calls whose texts carry no header get identifiers numbered from
    the counter upwards.  As long as the last number converts, none of
    the [n] calls raises, the counter has grown by [n] after them, the
    numeric suffixes of the identifiers assigned are the next [n]
    numbers in order, and no identifier is assigned twice. *)
Theorem headerless_ids_count_up (calls : list (string * string)) :
  Forall headerless calls ->
  forall self,
    Str.converts (_artifact_counter self + N.of_nat (List.length calls))
    = true ->
    none_raises self calls
    /\ _artifact_counter (add_all self calls)
       = (_artifact_counter self + N.of_nat (List.length calls))%N
    /\ map numeric_suffix (assigned_ids self calls)
       = count_from (_artifact_counter self) (List.length calls)
    /\ NoDup (assigned_ids self calls).
Proof.
  intros Hall.
  assert (Hmain : forall self,
             Str.converts
               (_artifact_counter self + N.of_nat (List.length calls))
             = true ->
             none_raises self calls
             /\ _artifact_counter (add_all self calls)
                = (_artifact_counter self + N.of_nat (List.length calls))%N
             /\ map numeric_suffix (assigned_ids self calls)
                = count_from (_artifact_counter self) (List.length calls)).
  { induction Hall as [|[ty text] calls (Hty & Htx & Hh) Hall IH];
      intros self Hlim.
    - simpl. split; [exact I|]. split; [lia | reflexivity].
    - simpl in Hty, Htx, Hh.
      cbn [add_all fold_left assigned_ids fst snd List.length map
           none_raises].
      fold (add_all (add_artifact self ty text) calls).
      assert (Hc : _artifact_counter (add_artifact self ty text)
                   = (_artifact_counter self + 1)%N).
      { rewrite (InsertFacts.add_artifact_unfold self ty text Hty Htx).
        now rewrite (InsertFacts.headerless_step self ty text Hh). }
      cbn [List.length] in Hlim.
      destruct (IH (add_artifact self ty text)) as (IH0 & IH1 & IH2).
      { rewrite Hc.
        replace (_artifact_counter self + 1 + N.of_nat (List.length calls))%N
          with (_artifact_counter self
                + N.of_nat (S (List.length calls)))%N by lia.
        exact Hlim. }
      split; [split; [|exact IH0]|].
      + unfold generation_raises. rewrite Hh.
        apply negb_false_iff.
        apply (LimitFacts.converts_le _ _) with (2 := Hlim). lia.
      + rewrite IH1, IH2, Hc. split; [lia|].
        rewrite InsertFacts.count_from_cons. f_equal.
        rewrite (InsertFacts.headerless_step self ty text Hh). simpl.
        apply IdNumberFacts.numeric_suffix_generated. }
  intros self Hlim. destruct (Hmain self Hlim) as (H0 & H1 & H2).
  split; [exact H0|]. split; [exact H1|]. split; [exact H2|].
  apply (NoDup_map_inv numeric_suffix). rewrite H2.
  apply InsertFacts.count_from_NoDup.
Qed.

(** X4. The identifier generated for a type without digits reads back:
    when the new counter value converts, the pattern [from_dict]
    searches identifiers with finds its digits in the identifier just
    generated, and [int] reads the new counter value from them. *)
Theorem generated_id_reads_back (self : Conversation) (ty text : string) :
  Str.no_digit ty = true -> Re.search_header text = None ->
  Str.converts (_artifact_counter self + 1) = true ->
  let e := _extract_or_generate_id self ty text in
  _artifact_counter (snd e) = (_artifact_counter self + 1)%N
  /\ exists g,
      Re.search_hyphen_digits (fst e) = Some g
      /\ int g = Ok (_artifact_counter (snd e)).
Proof.
  intros Hty Hh Hlim e. unfold e.
  rewrite (InsertFacts.headerless_step self ty text Hh).
  cbn [fst snd set_counter _artifact_counter].
  split; [reflexivity|].
  destruct (StoreFacts.all_digits_format_03d (_artifact_counter self + 1))
    as [Hd Hne].
  eexists. split.
  - apply ReFacts.search_hyphen_digits_tagged;
      try assumption. now apply StoreFacts.no_digit_upper.
  - now apply LimitFacts.int_format_03d.
Qed.

(** ** Reloading a conversation *)

Module ReloadFacts.

Import Dict DictFacts MoreDictFacts InsertFacts IdNumberFacts.

(** What [from_dict] makes of what [to_dict] wrote. *)
Lemma reload_value (c : Conversation) :
  system_topic c <> "" ->
  from_dict (to_dict c)
  = Ok (Some (mk_conversation (system_topic c) (artifacts c) (traces c)
                (max_counter_of (keys (artifacts c))))).
Proof.
  intros Htopic.
  unfold from_dict, to_dict, payload_is_empty, __init__. simpl.
  rewrite (StrFacts.is_empty_false _ Htopic). simpl.
  destruct (artifacts c); reflexivity.
Qed.

Lemma max_counter_of_app_ge (l : list string) (k : string) :
  (max_counter_of l <= max_counter_of (l ++ [k]))%N.
Proof.
  rewrite max_counter_of_app. destruct (Re.search_hyphen_digits k); [|lia].
  destruct (int s); lia.
Qed.

(** The counter [from_dict] computes is [0] or the numeric suffix of a
    key, when the keys are counted identifiers. *)
Lemma max_counter_of_cases (ids : list string) :
  Forall counted_id ids ->
  max_counter_of ids = 0%N
  \/ exists k, In k ids /\ max_counter_of ids = numeric_suffix k.
Proof.
  intros Hall. unfold max_counter_of.
  set (f := fun (max_counter : N) (art_id : string) => _).
  assert (H : forall m,
             fold_left f ids m = m
             \/ exists k, In k ids /\ fold_left f ids m = numeric_suffix k).
  { induction Hall as [|k ids (tag & ds & -> & Htag & Hds & Hne & Hlim) _ IH];
      intros m; [now left|].
    cbn [fold_left].
    assert (E : f m (tag ++ "-" ++ ds)
                = m \/ f m (tag ++ "-" ++ ds)
                       = numeric_suffix (tag ++ "-" ++ ds)).
    { unfold f, numeric_suffix.
      rewrite ReFacts.search_hyphen_digits_suffix by assumption.
      rewrite ReFacts.trailing_digits_tagged by assumption.
      rewrite (int_within ds Hlim).
      destruct (m <? Str.int_of_digits ds)%N; auto. }
    destruct (IH (f m (tag ++ "-" ++ ds))) as [R | (k & Hk & R)].
    - rewrite R. destruct E as [E | E]; [now left|].
      right. exists (tag ++ "-" ++ ds). split; [now left | exact E].
    - right. exists k. split; [now right | exact R]. }
  exact (H 0%N).
Qed.

(** The counter never runs ahead of what the identifiers stored would
    give on a reload, as long as types have no digit and the call does
    not raise. *)
Lemma add_artifact_counter_covered (self : Conversation) (ty text : string) :
  Str.no_digit ty = true ->
  generation_raises self text = false ->
  (_artifact_counter self <= max_counter_of (keys (artifacts self)))%N ->
  let self' := add_artifact self ty text in
  (_artifact_counter self' <= max_counter_of (keys (artifacts self')))%N.
Proof.
  intros Hty Hret J self'. unfold self'.
  destruct (empty_or_not ty) as [E | Hne];
    [now rewrite add_artifact_skip by auto|].
  destruct (empty_or_not text) as [E | Htx];
    [now rewrite add_artifact_skip by auto|].
  rewrite (add_artifact_unfold self ty text Hne Htx).
  cbn [artifacts set_artifacts _artifact_counter].
  set (v := mk_artifact _ _ _ _).
  unfold generation_raises in Hret.
  destruct (Re.search_header text) as [g|] eqn:Hh.
  - assert (E : _extract_or_generate_id self ty text = (g, self)).
    { unfold _extract_or_generate_id. now rewrite Hh. }
    subst v. rewrite E. cbn [fst snd].
    match goal with
    | |- context [set (artifacts self) g ?w] =>
        destruct (keys_set_cases (artifacts self) g w) as [[_ K] | [_ K]]
    end; rewrite K; [assumption|].
    pose proof (max_counter_of_app_ge (keys (artifacts self)) g). lia.
  - apply negb_false_iff in Hret.
    subst v. rewrite (headerless_step self ty text Hh).
    cbn [fst snd set_counter _artifact_counter].
    set (n := (_artifact_counter self + 1)%N) in *.
    assert (Hs : Re.search_hyphen_digits
                   (Str.upper ty ++ "-" ++ Str.format_03d n)
                 = Some (Str.format_03d n)).
    { destruct (StoreFacts.all_digits_format_03d n) as [Hd Hn].
      apply ReFacts.search_hyphen_digits_tagged; try assumption.
      now apply StoreFacts.no_digit_upper. }
    pose proof (LimitFacts.int_format_03d n Hret) as Hi.
    match goal with
    | |- context [set (artifacts self) ?k ?w] =>
        destruct (keys_set_cases (artifacts self) k w) as [[Hin K] | [_ K]]
    end; rewrite K.
    + exact (max_counter_of_bound _ _ _ _ Hin Hs Hi).
    + rewrite max_counter_of_app, Hs, Hi. lia.
Qed.

End ReloadFacts.

(** X5. After a reload, the identifier generated for a text without
    header is new.  For a conversation whose keys are counted
    identifiers with numeric suffixes that still convert when one is
    added, the call that follows the reload does not raise, and the
    identifier it generates is not a key of the store: the artifact
    inserted next overwrites nothing. *)
Theorem reload_then_generate_is_fresh (c : Conversation) (ty text : string) :
  system_topic c <> "" ->
  Forall counted_id (Dict.keys (artifacts c)) ->
  Forall (fun k => Str.converts (numeric_suffix k + 1) = true)
    (Dict.keys (artifacts c)) ->
  Re.search_header text = None ->
  exists c',
    from_dict (to_dict c) = Ok (Some c')
    /\ artifacts c' = artifacts c
    /\ generation_raises c' text = false
    /\ ~ In (fst (_extract_or_generate_id c' ty text))
            (Dict.keys (artifacts c')).
Proof.
  intros Htopic Htag Hconv Hh.
  eexists. split; [now apply ReloadFacts.reload_value|].
  split; [reflexivity|]. split.
  - unfold generation_raises. rewrite Hh. apply negb_false_iff.
    cbn [_artifact_counter].
    destruct (ReloadFacts.max_counter_of_cases _ Htag) as [E | (k & Hk & E)];
      rewrite E; [reflexivity|].
    rewrite Forall_forall in Hconv. now apply Hconv.
  - rewrite (InsertFacts.headerless_step _ ty text Hh).
    cbn [fst artifacts _artifact_counter]. intros Hin.
    rewrite Forall_forall in Htag.
    pose proof (numeric_suffix_le_max _ _ (Htag _ Hin) Hin) as B.
    rewrite IdNumberFacts.numeric_suffix_generated in B. lia.
Qed.

(** X6. A reload never sets the counter back.  For a conversation built
    from a new one by insertions with types that have no digit, so few
    that their number converts, no insertion raises, and the counter
    [from_dict] computes is at least the counter the conversation
    had. *)
Theorem reload_keeps_counter_ahead (topic : string)
    (calls : list (string * string)) :
  topic <> "" ->
  Forall (fun call => Str.no_digit (fst call) = true) calls ->
  Str.converts (N.of_nat (List.length calls)) = true ->
  let c := add_all (fresh topic) calls in
  none_raises (fresh topic) calls
  /\ exists c',
      from_dict (to_dict c) = Ok (Some c')
      /\ (_artifact_counter c <= _artifact_counter c')%N.
Proof.
  intros Htopic Hcalls Hlim c.
  assert (Hinv : forall self,
             (_artifact_counter self
              <= max_counter_of (Dict.keys (artifacts self)))%N ->
             Str.converts
               (_artifact_counter self + N.of_nat (List.length calls))
             = true ->
             system_topic self = topic ->
             none_raises self calls
             /\ (_artifact_counter (add_all self calls)
                 <= max_counter_of
                      (Dict.keys (artifacts (add_all self calls))))%N
             /\ system_topic (add_all self calls) = topic).
  { clear Hlim c.
    induction Hcalls as [|[ty text] calls Hty Hcalls IH];
      intros self J Hlim T; [now repeat split|].
    cbn [add_all fold_left fst snd none_raises].
    fold (add_all (add_artifact self ty text) calls).
    cbn [List.length fst] in Hlim, Hty.
    assert (Hret : generation_raises self text = false).
    { unfold generation_raises. destruct (Re.search_header text); [reflexivity|].
      apply negb_false_iff.
      apply (LimitFacts.converts_le _ _) with (2 := Hlim). lia. }
    destruct (IH (add_artifact self ty text)) as (N0 & J' & T').
    - now apply ReloadFacts.add_artifact_counter_covered.
    - apply (LimitFacts.converts_le _ _) with (2 := Hlim).
      destruct (InsertFacts.add_artifact_counter self ty text) as [E | E];
        rewrite E; lia.
    - destruct (InsertFacts.add_artifact_rest self ty text) as (Ht & _).
      congruence.
    - split; [split; assumption|]. split; assumption. }
  destruct (Hinv (fresh topic)) as (N0 & J & T);
    [simpl; lia | exact Hlim | reflexivity|].
  fold c in J, T. split; [exact N0|].
  eexists. split.
  - apply ReloadFacts.reload_value. now rewrite T.
  - exact J.
Qed.

(** X7. [from_dict] raises in one case only: a topic that is present and
    empty makes the constructor raise [ValueError].  With a topic that
    is not empty it returns a conversation, taking an empty artifact map
    and an empty trace list for the keys that are missing. *)
Theorem from_dict_with_topic (data : payload) (topic : string) :
  p_system_topic data = Some topic ->
  (topic = "" ->
   from_dict data
   = Raise (ValueError "System topic must be a non-empty string."))
  /\ (topic <> "" ->
      exists c,
        from_dict data = Ok (Some c)
        /\ system_topic c = topic
        /\ artifacts c
           = match p_artifacts data with Some a => a | None => [] end
        /\ traces c
           = match p_traces data with Some t => t | None => [] end
        /\ (p_artifacts data = None -> _artifact_counter c = 0%N)).
Proof.
  intros Ht. unfold from_dict, payload_is_empty. rewrite Ht. simpl.
  split.
  - intros ->. reflexivity.
  - intros Hne. unfold __init__.
    rewrite (StrFacts.is_empty_false topic Hne). simpl.
    eexists. split; [reflexivity|]. simpl.
    repeat split. intros ->. reflexivity.
Qed.

(** X8. The round trip the other way: a payload with the three keys of
    [to_dict], no other key and a topic that is not empty deserialises
    to a conversation that serialises to the same payload. *)
Theorem to_dict_from_dict (topic : string) (arts : Dict.dict artifact)
    (trs : list trace) :
  topic <> "" ->
  exists c,
    from_dict (mk_payload (Some topic) (Some arts) (Some trs) []) = Ok (Some c)
    /\ to_dict c = mk_payload (Some topic) (Some arts) (Some trs) [].
Proof.
  intros Hne. unfold from_dict, payload_is_empty, __init__. simpl.
  rewrite (StrFacts.is_empty_false topic Hne). simpl.
  eexists. split; reflexivity.
Qed.

(** ** The store and its read views *)

Module ViewFacts.

Import Dict DictFacts MoreDictFacts InsertFacts.

Lemma add_artifact_store_shape (self : Conversation) (ty text : string) :
  store_shape (artifacts self) ->
  store_shape (artifacts (add_artifact self ty text)).
Proof.
  intros (Hnd & Hids & Hhy).
  destruct (empty_or_not ty) as [E | Hty];
    [now rewrite add_artifact_skip by auto|].
  destruct (empty_or_not text) as [E | Htx];
    [now rewrite add_artifact_skip by auto|].
  rewrite (add_artifact_unfold self ty text Hty Htx).
  cbn [artifacts set_artifacts].
  split; [|split].
  - now apply StoreFacts.set_keeps_NoDup.
  - intros k a Hin. apply in_set in Hin as [[= -> ->] | Hin];
      [reflexivity | now apply Hids].
  - intros k Hin. apply StoreFacts.keys_set in Hin as [-> | Hin];
      [apply extract_or_generate_hyphen | now apply Hhy].
Qed.

Lemma add_all_store_shape (calls : list (string * string)) :
  forall self, store_shape (artifacts self) ->
               store_shape (artifacts (add_all self calls)).
Proof.
  induction calls as [|call calls IH]; intros self H; simpl; [assumption|].
  apply IH. now apply add_artifact_store_shape.
Qed.

Lemma add_all_topic (calls : list (string * string)) :
  forall self, system_topic (add_all self calls) = system_topic self.
Proof.
  induction calls as [|call calls IH]; intros self; simpl; [reflexivity|].
  fold (add_all (add_artifact self (fst call) (snd call)) calls).
  rewrite IH. apply add_artifact_rest.
Qed.

Lemma fresh_store_shape (topic : string) : store_shape (artifacts (fresh topic)).
Proof.
  split; [constructor|]. split; intros k; simpl; intros; contradiction.
Qed.

(** Writing the items of a map with distinct keys over a dictionary
    that has none of them. *)
Lemma context_fold (arts : dict artifact) :
  NoDup (keys arts) ->
  forall d : dict context_value,
    (forall k, In k (keys arts) -> ~ In k (keys d)) ->
    let ctx :=
      fold_left (fun d item => set d (fst item) (ArtifactValue (snd item)))
        arts d in
    keys ctx = (keys d ++ keys arts)%list
    /\ forall k,
        get ctx k
        = match get arts k with
          | Some a => Some (ArtifactValue a)
          | None => get d k
          end.
Proof.
  induction arts as [|[k0 a0] arts IH]; intros Hnd d Hfresh; simpl.
  - split; [now rewrite app_nil_r | reflexivity].
  - simpl in Hnd. inversion Hnd as [|? ? Hnot Hnd']; subst.
    assert (Hk0 : ~ In k0 (keys d)) by (apply Hfresh; now left).
    destruct (keys_set_cases d k0 (ArtifactValue a0)) as [[Hin _] | [_ K]];
      [contradiction|].
    destruct (IH Hnd' (set d k0 (ArtifactValue a0))) as [IHk IHg].
    { intros k Hin. rewrite K. intros Hin'.
      apply in_app_or in Hin' as [Hin' | [<- | []]].
      - apply (Hfresh k); [now right | assumption].
      - contradiction. }
    split.
    + rewrite IHk, K, <- app_assoc. reflexivity.
    + intros k. rewrite IHg.
      destruct (String.eqb_spec k0 k) as [-> | Hne].
      * assert (Hg : get arts k = None) by now apply get_none_keys.
        rewrite Hg. apply get_set_same.
      * destruct (get arts k); [reflexivity|].
        apply get_set_other. congruence.
Qed.

End ViewFacts.

(** X9. In a store whose keys are distinct and are not
    ["system_topic"], the context handed to text generation holds the
    topic under ["system_topic"], every artifact under its identifier,
    and nothing else, the topic first and the artifacts in the order of
    the store. *)
Theorem context_holds_topic_and_artifacts (self : Conversation) :
  NoDup (Dict.keys (artifacts self)) ->
  ~ In "system_topic" (Dict.keys (artifacts self)) ->
  let ctx := get_context_for_text_generation self in
  Dict.get ctx "system_topic" = Some (TopicValue (system_topic self))
  /\ (forall k a, Dict.get (artifacts self) k = Some a ->
                  Dict.get ctx k = Some (ArtifactValue a))
  /\ Dict.keys ctx = "system_topic" :: Dict.keys (artifacts self).
Proof.
  intros Hnd Hno ctx.
  destruct (ViewFacts.context_fold (artifacts self) Hnd
              [("system_topic", TopicValue (system_topic self))])
    as [Hk Hg].
  { intros k Hin [<- | []]. contradiction. }
  fold (get_context_for_text_generation self) in Hk, Hg. fold ctx in Hk, Hg.
  split; [|split].
  - rewrite Hg.
    assert (E : Dict.get (artifacts self) "system_topic" = None)
      by now apply MoreDictFacts.get_none_keys.
    rewrite E. reflexivity.
  - intros k a Ha. rewrite Hg, Ha. reflexivity.
  - exact Hk.
Qed.

(** X10. Every store built from a new conversation by calls to
    [add_artifact], whatever the types and texts, has no key twice,
    holds every artifact under its own identifier, and has a hyphen in
    every key (so no key is empty or ["system_topic"]); the list of
    artifacts has one entry per key and no identifier twice, and the
    topic is the one the conversation began with. *)
Theorem built_store_shape (topic : string) (calls : list (string * string)) :
  let c := add_all (fresh topic) calls in
  system_topic c = topic
  /\ NoDup (Dict.keys (artifacts c))
  /\ (forall k a, In (k, a) (artifacts c) -> art_id a = k)
  /\ (forall k, In k (Dict.keys (artifacts c)) ->
                Str.contains "-" k = true /\ k <> "" /\ k <> "system_topic")
  /\ get_all_artifacts c = get_structured_artifacts c
  /\ map art_id (get_structured_artifacts c) = Dict.keys (artifacts c)
  /\ NoDup (map art_id (get_structured_artifacts c)).
Proof.
  intros c.
  destruct (ViewFacts.add_all_store_shape calls (fresh topic)
              (ViewFacts.fresh_store_shape topic)) as (Hnd & Hids & Hhy).
  fold c in Hnd, Hids, Hhy.
  assert (Hmap : map art_id (get_structured_artifacts c)
                 = Dict.keys (artifacts c)).
  { unfold get_structured_artifacts, dict_values, Dict.keys.
    rewrite map_map. apply map_ext_in. intros [k a] Hin. simpl.
    now apply Hids. }
  split; [apply ViewFacts.add_all_topic|].
  split; [exact Hnd|]. split; [exact Hids|]. split.
  - intros k Hin. pose proof (Hhy k Hin) as H.
    split; [exact H|]. split; intros ->; discriminate H.
  - split; [reflexivity|]. split; [exact Hmap|]. now rewrite Hmap.
Qed.

(** ** More on trace building *)

Module TableFacts.

Ltac split_types :=
  repeat match goal with
         | |- context [(?a =? ?b)%string] =>
             destruct (String.eqb_spec a b); subst; try discriminate
         | H : context [(?a =? ?b)%string] |- _ =>
             destruct (String.eqb_spec a b); subst; try discriminate
         end.

(** The directions of the table, spelled out. *)
Lemma canonical_cases (tx ty : string) :
  canonical tx ty = true <->
  (tx = "SR" /\ (ty = "SD" \/ ty = "VR" \/ ty = "VM"))
  \/ (tx = "SD" /\ (ty = "VR" \/ ty = "VM")).
Proof.
  unfold canonical. split.
  - intros H. split_types; simpl in H; try discriminate; tauto.
  - intros [[-> [-> | [-> | ->]]] | [-> [-> | ->]]]; reflexivity.
Qed.

Lemma canonical_irrefl (t : string) : canonical t t = false.
Proof.
  destruct (canonical t t) eqn:E; [|reflexivity].
  apply canonical_cases in E.
  destruct E as [[-> [H | [H | H]]] | [-> [H | H]]]; discriminate.
Qed.

(** [trace_tuple] answers for every pair the table joins, whichever of
    the two is the source. *)
Lemma trace_tuple_forward (s t ts tt : string) :
  canonical ts tt = true -> trace_tuple s t ts tt = Some (s, t).
Proof.
  intros H. apply canonical_cases in H.
  destruct H as [[-> [-> | [-> | ->]]] | [-> [-> | ->]]]; reflexivity.
Qed.

Lemma trace_tuple_backward (s t ts tt : string) :
  canonical tt ts = true -> trace_tuple s t ts tt = Some (t, s).
Proof.
  intros H. apply canonical_cases in H.
  destruct H as [[-> [-> | [-> | ->]]] | [-> [-> | ->]]]; reflexivity.
Qed.

End TableFacts.

Section MoreTraceTheorems.

Import Dict DictFacts LoopFacts TraceFacts TableFacts.

Variable set_order : list string -> list string.
Hypothesis set_order_In : forall l x, In x (set_order l) <-> In x l.

(** X11. Every trace [build_traces] leaves joins two artifacts that are
    in the store and runs in a direction of the table: from a
    requirement to a design or a verification artifact, or from a
    design to a verification artifact.  No other pair of types is ever
    joined. *)
Theorem traces_follow_table (self : Conversation) :
  exists self',
    build_traces set_order self = Ok self'
    /\ forall a b, In (a, b) (traces self') ->
         exists x y,
           get (artifacts self) a = Some x /\ get (artifacts self) b = Some y
           /\ ((art_type x = "SR"
                /\ (art_type y = "SD" \/ art_type y = "VR"
                    \/ art_type y = "VM"))
               \/ (art_type x = "SD"
                   /\ (art_type y = "VR" \/ art_type y = "VM"))).
Proof.
  destruct (traces_well_formed set_order (artifacts self))
    as (tr & E & _ & Hsound).
  exists (set_traces self tr). split; [now apply build_traces_result|].
  intros a b Hin. rewrite Forall_forall in Hsound.
  destruct (Hsound _ Hin) as (_ & x & y & Hx & Hy & Hc).
  exists x, y. repeat split; try assumption. now apply canonical_cases.
Qed.

(** X12. Every mention the table can direct is traced: when the text of
    a stored artifact mentions the key of another stored artifact, the
    trace between the two is in the list, from the source when the
    table runs from the source's type to the target's, and from the
    target when it runs the other way. *)
Theorem mention_is_traced (self : Conversation) (source_id target_id : string)
    (sa ta : artifact) :
  get (artifacts self) source_id = Some sa ->
  get (artifacts self) target_id = Some ta ->
  mentions (art_text sa) target_id ->
  exists self',
    build_traces set_order self = Ok self'
    /\ (canonical (art_type sa) (art_type ta) = true ->
        In (source_id, target_id) (traces self'))
    /\ (canonical (art_type ta) (art_type sa) = true ->
        In (target_id, source_id) (traces self')).
Proof.
  intros Hs Ht Hm.
  assert (Hne : canonical (art_type sa) (art_type ta) = true
                \/ canonical (art_type ta) (art_type sa) = true ->
                source_id <> target_id).
  { intros Hc ->. rewrite Hs in Ht. injection Ht as ->.
    rewrite canonical_irrefl in Hc. destruct Hc; discriminate. }
  destruct (canonical (art_type sa) (art_type ta)) eqn:F.
  - destruct (mention_gives_trace set_order set_order_In (artifacts self)
                source_id target_id sa ta (source_id, target_id))
      as (tr & E & Hwf & Hin); auto using trace_tuple_forward.
    exists (set_traces self tr). split; [now apply build_traces_result|].
    split; [auto|]. intros B. exfalso.
    apply canonical_cases in F, B.
    destruct F as [[F1 _] | [F1 [F2 | F2]]];
      destruct B as [[B1 [B2 | [B2 | B2]]] | [B1 [B2 | B2]]]; congruence.
  - destruct (canonical (art_type ta) (art_type sa)) eqn:B.
    + destruct (mention_gives_trace set_order set_order_In (artifacts self)
                  source_id target_id sa ta (target_id, source_id))
        as (tr & E & Hwf & Hin); auto using trace_tuple_backward.
      exists (set_traces self tr). split; [now apply build_traces_result|].
      split; [discriminate | auto].
    + destruct (traces_well_formed set_order (artifacts self))
        as (tr & E & _).
      exists (set_traces self tr). split; [now apply build_traces_result|].
      split; discriminate.
Qed.

(** X13. [build_traces] recomputes the whole list: the traces it leaves
    do not depend on the traces the conversation held, and the topic,
    the artifact map and the counter stay as they were. *)
Theorem build_traces_recomputes (self : Conversation) (old : list trace) :
  exists self',
    build_traces set_order self = Ok self'
    /\ build_traces set_order (set_traces self old) = Ok self'
    /\ system_topic self' = system_topic self
    /\ artifacts self' = artifacts self
    /\ _artifact_counter self' = _artifact_counter self.
Proof.
  destruct (traces_well_formed set_order (artifacts self)) as (tr & E & _).
  exists (set_traces self tr). split; [now apply build_traces_result|].
  split; [|repeat split].
  unfold build_traces. simpl. now rewrite E.
Qed.

(** X14. A store in which no text mentions another stored artifact that
    the table joins it to gets no trace at all: every mention is of the
    artifact itself, of an identifier that is not stored, or of an
    artifact whose type the table does not join to the source's. *)
Theorem no_reference_no_trace (self : Conversation) :
  (forall k a t,
      In (k, a) (artifacts self) -> mentions (art_text a) t ->
      t = k \/ get (artifacts self) t = None
      \/ forall sa ta,
          get (artifacts self) k = Some sa ->
          get (artifacts self) t = Some ta ->
          canonical (art_type sa) (art_type ta) = false
          /\ canonical (art_type ta) (art_type sa) = false) ->
  build_traces set_order self = Ok (set_traces self []).
Proof.
  intros Hno. apply build_traces_result.
  destruct (for_each_invariant (fun tr : list trace => tr = [])
              (scan_source set_order (artifacts self)) (artifacts self))
    with (s := @nil trace) as (tr & E & ->); [|reflexivity|exact E].
  intros s [k a] Hin ->. unfold scan_source.
  destruct (in_get (artifacts self) k a Hin) as (sa & Hs).
  apply for_each_invariant; [|reflexivity].
  intros s t Ht ->. apply (proj1 (set_order_In _ _)) in Ht.
  destruct (consider_target_step (artifacts self) k sa [] t Hs)
    as (tr & E & Hcase).
  exists tr. split; [exact E|].
  destruct Hcase as [-> | (u & ta & -> & _ & Hg & Hne & Ed)]; [reflexivity|].
  exfalso. destruct (Hno k a t Hin Ht) as [-> | [Hn | Hc]];
    [congruence | congruence|].
  destruct (Hc sa ta Hs Hg) as [C1 C2].
  apply trace_tuple_canonical in Ed as [[_ C] | [_ C]]; congruence.
Qed.

End MoreTraceTheorems.

(** ** The diagram of a list of artifacts *)

Module DiagramFacts.

#[local] Open Scope list_scope.

Lemma has_type_false (t : string) (x : artifact) :
  art_type x <> t -> has_type t x = false /\ (t =? art_type x)%string = false.
Proof.
  intros H. unfold has_type. split; apply String.eqb_neq; congruence.
Qed.

Lemma has_type_of (t t' : string) (x : artifact) :
  art_type x = t -> has_type t' x = (t =? t')%string.
Proof. intros <-. reflexivity. Qed.

(** Sorting by type is filtering by type, four times. *)
Lemma group_fold (arts : list artifact) :
  forall a b c d : list artifact,
    fold_left
      (fun by_type x =>
         match Dict.get by_type (art_type x) with
         | Some l => Dict.set by_type (art_type x) (l ++ [x])
         | None => by_type
         end)
      arts [("SR", a); ("SD", b); ("VR", c); ("VM", d)]
    = [("SR", a ++ filter (has_type "SR") arts);
       ("SD", b ++ filter (has_type "SD") arts);
       ("VR", c ++ filter (has_type "VR") arts);
       ("VM", d ++ filter (has_type "VM") arts)].
Proof.
  induction arts as [|x arts IH]; intros a b c d.
  - simpl. now rewrite !app_nil_r.
  - cbn [fold_left filter].
    destruct (String.eqb_spec (art_type x) "SR") as [E | E1].
    { rewrite !(has_type_of _ _ _ E), E. simpl. rewrite IH.
      now rewrite <- app_assoc. }
    destruct (String.eqb_spec (art_type x) "SD") as [E | E2].
    { rewrite !(has_type_of _ _ _ E), E. simpl. rewrite IH.
      now rewrite <- app_assoc. }
    destruct (String.eqb_spec (art_type x) "VR") as [E | E3].
    { rewrite !(has_type_of _ _ _ E), E. simpl. rewrite IH.
      now rewrite <- app_assoc. }
    destruct (String.eqb_spec (art_type x) "VM") as [E | E4].
    { rewrite !(has_type_of _ _ _ E), E. simpl. rewrite IH.
      now rewrite <- app_assoc. }
    destruct (has_type_false "SR" x E1) as [H1 G1].
    destruct (has_type_false "SD" x E2) as [H2 G2].
    destruct (has_type_false "VR" x E3) as [H3 G3].
    destruct (has_type_false "VM" x E4) as [H4 G4].
    rewrite H1, H2, H3, H4.
    cbn [Dict.get]. rewrite G1, G2, G3, G4. apply IH.
Qed.

Lemma of_type_group (arts : list artifact) :
  of_type (group_by_type arts) "SR" = filter (has_type "SR") arts
  /\ of_type (group_by_type arts) "SD" = filter (has_type "SD") arts
  /\ of_type (group_by_type arts) "VR" = filter (has_type "VR") arts
  /\ of_type (group_by_type arts) "VM" = filter (has_type "VM") arts.
Proof.
  unfold group_by_type. rewrite (group_fold arts [] [] [] []).
  repeat split.
Qed.

(** A loop that only appends edges. *)
Lemma fold_add_edge {A} (f : A -> edge) (l : list A) :
  forall st,
    fold_left (fun st x => add_edge st (f x)) l st
    = mk_state (st_nodes st) (st_edges st ++ map f l) (st_node_ids st).
Proof.
  induction l as [|x l IH]; intros st; simpl.
  - rewrite app_nil_r. now destruct st.
  - rewrite IH. simpl. now rewrite <- app_assoc.
Qed.

Lemma add_node_once_edges (st : diagram_state) (n : node) :
  st_edges (add_node_once st n) = st_edges st.
Proof.
  unfold add_node_once. now destruct (existsb _ (st_node_ids st)).
Qed.

Lemma add_node_once_ids (st : diagram_state) (n : node) (x : string) :
  In x (st_node_ids (add_node_once st n))
  <-> In x (st_node_ids st) \/ x = node_id n.
Proof.
  unfold add_node_once.
  destruct (existsb (String.eqb (node_id n)) (st_node_ids st)) eqn:E; simpl.
  - split; [tauto|]. intros [H | ->]; [assumption|].
    apply existsb_exists in E as (y & Hy & Ey).
    apply String.eqb_eq in Ey. now subst.
  - rewrite in_app_iff. simpl. split; intros [H | H]; auto.
    + destruct H as [<- | []]. now right.
Qed.

Lemma add_node_once_ok (st : diagram_state) (n : node) :
  ids_ok st -> ids_ok (add_node_once st n).
Proof.
  intros [Hm Hnd]. unfold add_node_once.
  destruct (existsb (String.eqb (node_id n)) (st_node_ids st)) eqn:E;
    [now split|].
  split; simpl.
  - now rewrite map_app, Hm.
  - apply NoDup_app; [assumption | repeat constructor; auto|].
    intros x Hx [<- | []].
    assert (existsb (String.eqb (node_id n)) (st_node_ids st) = true);
      [|congruence].
    apply existsb_exists. exists (node_id n).
    split; [assumption | apply String.eqb_refl].
Qed.

Lemma flat_map_singleton {A B} (f : A -> B) (l : list A) :
  flat_map (fun x => [f x]) l = map f l.
Proof. induction l as [|x l IH]; simpl; [reflexivity | now rewrite IH]. Qed.

(** The four loops, each as one step on the state: nodes are added
    once, edges are appended. *)
Lemma fold_process (label group : string) (level : N)
    (extra : artifact -> list edge)
    (process : diagram_state -> artifact -> diagram_state) :
  (forall st a,
      process st a
      = let st1 :=
          add_node_once st
            (mk_node (art_id a) (art_id a ++ label)%string group None level) in
        mk_state (st_nodes st1) (st_edges st1 ++ extra a) (st_node_ids st1)) ->
  forall l st,
    let st' := fold_left process l st in
    st_edges st' = st_edges st ++ flat_map extra l
    /\ (ids_ok st -> ids_ok st')
    /\ (forall x, In x (st_node_ids st')
                  <-> In x (st_node_ids st) \/ In x (map art_id l)).
Proof.
  intros Hp.
  assert (Pe : forall st a, st_edges (process st a) = st_edges st ++ extra a).
  { intros st a. rewrite Hp. cbn [st_edges]. now rewrite add_node_once_edges. }
  assert (Pok : forall st a, ids_ok st -> ids_ok (process st a)).
  { intros st a H. rewrite Hp.
    destruct (add_node_once_ok st
                (mk_node (art_id a) (art_id a ++ label)%string group None
                   level) H) as [H1 H2].
    split; assumption. }
  assert (Pin : forall st a x,
             In x (st_node_ids (process st a))
             <-> In x (st_node_ids st) \/ x = art_id a).
  { intros st a x. rewrite Hp. cbn [st_node_ids].
    now rewrite add_node_once_ids. }
  induction l as [|a l IH]; intros st; simpl.
  - rewrite app_nil_r. split; [reflexivity|]. split; [auto|]. tauto.
  - destruct (IH (process st a)) as (He & Hok & Hin).
    split; [now rewrite He, Pe, <- app_assoc|]. split.
    + intros H. now apply Hok, Pok.
    + intros x. rewrite Hin, Pin. intuition auto.
Qed.

Lemma process_sr_step (st : diagram_state) (a : artifact) :
  process_sr st a
  = let st1 :=
      add_node_once st
        (mk_node (art_id a) (art_id a ++ ": System Requirement")%string
           "System Requirement" None 1) in
    mk_state (st_nodes st1)
      (st_edges st1 ++ [mk_edge "system_topic" (art_id a) "has requirement"])
      (st_node_ids st1).
Proof. reflexivity. Qed.

Lemma process_sd_step (srs : list artifact) (st : diagram_state)
    (a : artifact) :
  process_sd srs st a
  = let st1 :=
      add_node_once st
        (mk_node (art_id a) (art_id a ++ ": System Design")%string
           "System Design" None 1) in
    mk_state (st_nodes st1)
      (st_edges st1
         ++ mk_edge "system_topic" (art_id a) "has design"
              :: map (fun sr => mk_edge (art_id a) (art_id sr) "adheres to")
                   srs)
      (st_node_ids st1).
Proof.
  unfold process_sd. rewrite fold_add_edge. simpl.
  now rewrite <- app_assoc.
Qed.

Lemma process_vr_step (srs : list artifact) (st : diagram_state)
    (a : artifact) :
  process_vr srs st a
  = let st1 :=
      add_node_once st
        (mk_node (art_id a) (art_id a ++ ": Verification Requirement")%string
           "Verification Requirement" None 2) in
    mk_state (st_nodes st1)
      (st_edges st1
         ++ map (fun sr => mk_edge (art_id a) (art_id sr) "verifies") srs)
      (st_node_ids st1).
Proof. unfold process_vr. now rewrite fold_add_edge. Qed.

Lemma process_vm_step (vrs : list artifact) (st : diagram_state)
    (a : artifact) :
  process_vm vrs st a
  = let st1 :=
      add_node_once st
        (mk_node (art_id a) (art_id a ++ ": Verification Method")%string
           "Verification Method" None 3) in
    mk_state (st_nodes st1)
      (st_edges st1
         ++ map (fun vr => mk_edge (art_id a) (art_id vr) "satisfies") vrs)
      (st_node_ids st1).
Proof. unfold process_vm. now rewrite fold_add_edge. Qed.

(** The diagram in one piece: its edges, the agreement of nodes and
    identifiers, and which identifiers are there. *)
Lemma diagram_summary (arts : list artifact) (topic : string) :
  let d := create_system_diagram arts topic in
  edges d = expected_edges arts
  /\ NoDup (map node_id (nodes d))
  /\ forall x,
      In x (map node_id (nodes d))
      <-> x = "system_topic"
          \/ In x (map art_id (filter (has_type "SR") arts))
          \/ In x (map art_id (filter (has_type "SD") arts))
          \/ In x (map art_id (filter (has_type "VR") arts))
          \/ In x (map art_id (filter (has_type "VM") arts)).
Proof.
  unfold create_system_diagram.
  destruct (of_type_group arts) as (-> & -> & -> & ->).
  set (srs := filter (has_type "SR") arts).
  set (sds := filter (has_type "SD") arts).
  set (vrs := filter (has_type "VR") arts).
  set (vms := filter (has_type "VM") arts).
  set (st0 := add_node_once (mk_state [] [] []) _).
  assert (H0 : ids_ok st0) by (split; simpl; repeat constructor; auto).
  destruct (fold_process _ _ _ _ process_sr process_sr_step srs st0)
    as (E1 & O1 & I1).
  set (st1 := fold_left process_sr srs st0) in *.
  destruct (fold_process _ _ _ _ (process_sd srs) (process_sd_step srs)
              sds st1) as (E2 & O2 & I2).
  set (st2 := fold_left (process_sd srs) sds st1) in *.
  destruct (fold_process _ _ _ _ (process_vr srs) (process_vr_step srs)
              vrs st2) as (E3 & O3 & I3).
  set (st3 := fold_left (process_vr srs) vrs st2) in *.
  destruct (fold_process _ _ _ _ (process_vm vrs) (process_vm_step vrs)
              vms st3) as (E4 & O4 & I4).
  set (st4 := fold_left (process_vm vrs) vms st3) in *.
  destruct (O4 (O3 (O2 (O1 H0)))) as [Hm Hnd].
  cbn [edges nodes]. split; [|split].
  - rewrite E4, E3, E2, E1. unfold expected_edges.
    fold srs sds vrs vms.
    change (st_edges st0) with (@nil edge).
    rewrite flat_map_singleton. cbn [app]. now rewrite <- !app_assoc.
  - now rewrite Hm.
  - intros x. rewrite Hm, I4, I3, I2, I1.
    change (st_node_ids st0) with ["system_topic"]. simpl.
    intuition (subst; auto).
Qed.

Lemma add_node_once_prefix (st : diagram_state) (n : node) :
  exists l, st_nodes (add_node_once st n) = st_nodes st ++ l.
Proof.
  unfold add_node_once. destruct (existsb _ (st_node_ids st)).
  - exists []. now rewrite app_nil_r.
  - now exists [n].
Qed.

(** The loops only ever append nodes: the topic stays first. *)
Lemma diagram_first_node (arts : list artifact) (topic : string) :
  hd_error (nodes (create_system_diagram arts topic))
  = Some (mk_node "system_topic" topic "System" (Some "ellipse") 0).
Proof.
  assert (Hfold : forall (process : diagram_state -> artifact -> diagram_state),
             (forall st a, exists l, st_nodes (process st a) = st_nodes st ++ l) ->
             forall l st, exists l',
               st_nodes (fold_left process l st) = st_nodes st ++ l').
  { intros process Hp l. induction l as [|a l IH]; intros st; simpl.
    - exists []. now rewrite app_nil_r.
    - destruct (IH (process st a)) as (l1 & E1).
      destruct (Hp st a) as (l2 & E2).
      exists (l2 ++ l1). now rewrite E1, E2, app_assoc. }
  assert (Hstep : forall st n (es : list edge),
             exists l,
               st_nodes (mk_state (st_nodes (add_node_once st n)) es
                           (st_node_ids (add_node_once st n)))
               = st_nodes st ++ l).
  { intros st n es. apply add_node_once_prefix. }
  unfold create_system_diagram. cbn [nodes].
  destruct (Hfold (process_vm (of_type (group_by_type arts) "VR")))
    with (l := of_type (group_by_type arts) "VM")
         (st := fold_left (process_vr (of_type (group_by_type arts) "SR"))
                  (of_type (group_by_type arts) "VR")
                  (fold_left (process_sd (of_type (group_by_type arts) "SR"))
                     (of_type (group_by_type arts) "SD")
                     (fold_left process_sr (of_type (group_by_type arts) "SR")
                        (add_node_once (mk_state [] [] [])
                           (mk_node "system_topic" topic "System"
                              (Some "ellipse") 0)))))
    as (l4 & E4).
  { intros st a. rewrite process_vm_step. apply (Hstep st). }
  rewrite E4.
  destruct (Hfold (process_vr (of_type (group_by_type arts) "SR")))
    with (l := of_type (group_by_type arts) "VR")
         (st := fold_left (process_sd (of_type (group_by_type arts) "SR"))
                  (of_type (group_by_type arts) "SD")
                  (fold_left process_sr (of_type (group_by_type arts) "SR")
                     (add_node_once (mk_state [] [] [])
                        (mk_node "system_topic" topic "System"
                           (Some "ellipse") 0))))
    as (l3 & E3).
  { intros st a. rewrite process_vr_step. apply (Hstep st). }
  rewrite E3.
  destruct (Hfold (process_sd (of_type (group_by_type arts) "SR")))
    with (l := of_type (group_by_type arts) "SD")
         (st := fold_left process_sr (of_type (group_by_type arts) "SR")
                  (add_node_once (mk_state [] [] [])
                     (mk_node "system_topic" topic "System"
                        (Some "ellipse") 0)))
    as (l2 & E2).
  { intros st a. rewrite process_sd_step. apply (Hstep st). }
  rewrite E2.
  destruct (Hfold process_sr)
    with (l := of_type (group_by_type arts) "SR")
         (st := add_node_once (mk_state [] [] [])
                  (mk_node "system_topic" topic "System" (Some "ellipse") 0))
    as (l1 & E1).
  { intros st a. rewrite process_sr_step. apply (Hstep st). }
  rewrite E1. reflexivity.
Qed.

Lemma filter_filter_weaker {A} (p q : A -> bool) (l : list A) :
  (forall a, p a = true -> q a = true) ->
  filter p (filter q l) = filter p l.
Proof.
  intros H. induction l as [|a l IH]; simpl; [reflexivity|].
  destruct (q a) eqn:Q; simpl.
  - destruct (p a); now rewrite IH.
  - destruct (p a) eqn:P; [|exact IH]. rewrite (H a P) in Q. discriminate.
Qed.

Lemma has_type_known (t : string) (a : artifact) :
  t = "SR" \/ t = "SD" \/ t = "VR" \/ t = "VM" ->
  has_type t a = true -> known_type a = true.
Proof.
  unfold known_type. intros [-> | [-> | [-> | ->]]] ->;
    now rewrite ?orb_true_r.
Qed.

Lemma length_flat_map_const {A B} (f : A -> list B) (l : list A) (n : nat) :
  (forall a, List.length (f a) = n) ->
  List.length (flat_map f l) = List.length l * n.
Proof.
  intros H. induction l as [|a l IH]; simpl; [reflexivity|].
  rewrite length_app, IH, H. lia.
Qed.

End DiagramFacts.

(** X15. The diagram is a graph: no two nodes share an identifier, and
    every edge runs between two nodes of the diagram. *)
Theorem diagram_is_a_graph (arts : list artifact) (topic : string) :
  let d := create_system_diagram arts topic in
  NoDup (map node_id (nodes d))
  /\ forall e, In e (edges d) ->
       In (edge_from e) (map node_id (nodes d))
       /\ In (edge_to e) (map node_id (nodes d)).
Proof.
  intros d.
  destruct (DiagramFacts.diagram_summary arts topic) as (He & Hnd & Hin).
  fold d in He, Hnd, Hin. split; [exact Hnd|].
  intros e H. rewrite He in H. unfold expected_edges in H.
  rewrite !in_app_iff, !in_flat_map in H. rewrite !Hin.
  destruct H as [H | [(sd & Hsd & H) | [(vr & Hvr & H) | (vm & Hvm & H)]]].
  - apply in_map_iff in H as (sr & <- & Hsr). simpl.
    split; [now left|]. right; left. now apply in_map.
  - destruct H as [<- | H].
    + simpl. split; [now left|]. right; right; left. now apply in_map.
    + apply in_map_iff in H as (sr & <- & Hsr). simpl. split.
      * right; right; left. now apply in_map.
      * right; left. now apply in_map.
  - apply in_map_iff in H as (sr & <- & Hsr). simpl. split.
    + right; right; right; left. now apply in_map.
    + right; left. now apply in_map.
  - apply in_map_iff in H as (vr & <- & Hvr). simpl. split.
    + right; right; right; right. now apply in_map.
    + right; right; right; left. now apply in_map.
Qed.

(** X16. The nodes of the diagram are the topic, which comes first and
    is labelled with the topic, and the artifacts of the four types
    drawn: an identifier is a node exactly when it is ["system_topic"]
    or the identifier of an artifact of type [SR], [SD], [VR] or [VM]. *)
Theorem diagram_nodes (arts : list artifact) (topic : string) :
  let d := create_system_diagram arts topic in
  hd_error (nodes d)
  = Some (mk_node "system_topic" topic "System" (Some "ellipse") 0)
  /\ forall x,
       In x (map node_id (nodes d))
       <-> x = "system_topic"
           \/ exists a, In a arts /\ known_type a = true /\ art_id a = x.
Proof.
  intros d. split; [apply DiagramFacts.diagram_first_node|].
  destruct (DiagramFacts.diagram_summary arts topic) as (_ & _ & Hin).
  fold d in Hin. intros x. rewrite Hin. rewrite !in_map_iff.
  split.
  - intros [H | H]; [now left | right].
    destruct H as [(a & E & H) | [(a & E & H) | [(a & E & H) | (a & E & H)]]];
      apply filter_In in H as [Ha Ht]; exists a;
      (split; [assumption|]); (split; [|assumption]).
    + apply (DiagramFacts.has_type_known "SR"); tauto.
    + apply (DiagramFacts.has_type_known "SD"); tauto.
    + apply (DiagramFacts.has_type_known "VR"); tauto.
    + apply (DiagramFacts.has_type_known "VM"); tauto.
  - intros [H | (a & Ha & Hk & E)]; [now left | right].
    unfold known_type in Hk.
    apply orb_true_iff in Hk as [Hk | Hk];
      [apply orb_true_iff in Hk as [Hk | Hk];
       [apply orb_true_iff in Hk as [Hk | Hk]|]|].
    + left. exists a. split; [assumption|]. now apply filter_In.
    + right; left. exists a. split; [assumption|]. now apply filter_In.
    + right; right; left. exists a. split; [assumption|]. now apply filter_In.
    + right; right; right. exists a. split; [assumption|]. now apply filter_In.
Qed.

(** X17. The number of edges: one per requirement, one per design and
    one more for each of its requirements, one per pair of a
    verification requirement and a requirement, one per pair of a
    verification method and a verification requirement. *)
Theorem diagram_edge_count (arts : list artifact) (topic : string) :
  let count t := List.length (filter (has_type t) arts) in
  List.length (edges (create_system_diagram arts topic))
  = count "SR" + count "SD" * (1 + count "SR")
    + count "VR" * count "SR" + count "VM" * count "VR".
Proof.
  intros count.
  destruct (DiagramFacts.diagram_summary arts topic) as (He & _).
  rewrite He. unfold expected_edges.
  rewrite !length_app, length_map.
  rewrite (DiagramFacts.length_flat_map_const _ _ (1 + count "SR"))
    by (intros a; simpl; now rewrite length_map).
  rewrite (DiagramFacts.length_flat_map_const _ _ (count "SR"))
    by (intros a; now rewrite length_map).
  rewrite (DiagramFacts.length_flat_map_const _ _ (count "VR"))
    by (intros a; now rewrite length_map).
  unfold count. lia.
Qed.

(** X18. Artifacts of any other type (such as ["Unknown"]) leave no
    mark: the diagram of a list is the diagram of its artifacts of the
    four types drawn. *)
Theorem diagram_ignores_other_types (arts : list artifact) (topic : string) :
  create_system_diagram arts topic
  = create_system_diagram (filter known_type arts) topic.
Proof.
  unfold create_system_diagram.
  destruct (DiagramFacts.of_type_group arts) as (-> & -> & -> & ->).
  destruct (DiagramFacts.of_type_group (filter known_type arts))
    as (-> & -> & -> & ->).
  rewrite !DiagramFacts.filter_filter_weaker;
    try (intros a; apply DiagramFacts.has_type_known; tauto).
  reflexivity.
Qed.


(** ** The chat handler's type tag *)

(** X19. The tag the chat handler passes to [add_artifact] is one of
    five words, never empty and without digits.  So whenever the text
    generated is not empty and the format of a new identifier does not
    raise, the artifact is stored, under the identifier assigned and
    with that tag as its type; and a store whose keys are tagged
    identifiers stays so. *)
Theorem chat_tag_is_stored (self : Conversation) (prompt text : string) :
  text <> "" -> generation_raises self text = false ->
  let ty := artifact_type_of_prompt prompt in
  let self' := add_artifact self ty text in
  In ty ["SR"; "SD"; "VR"; "VM"; "Unknown"]
  /\ (exists a,
         Dict.get (artifacts self')
           (fst (_extract_or_generate_id self ty text)) = Some a
         /\ art_type a = ty)
  /\ (Forall tagged_id (Dict.keys (artifacts self)) ->
      Forall tagged_id (Dict.keys (artifacts self'))).
Proof.
  intros Htext _ ty self'.
  assert (Hin : In ty ["SR"; "SD"; "VR"; "VM"; "Unknown"]).
  { unfold ty, artifact_type_of_prompt.
    repeat match goal with
           | |- context [if ?b then _ else _] => destruct b
           end; simpl; auto 6. }
  assert (Hty : ty <> "" /\ Str.no_digit ty = true).
  { simpl in Hin.
    destruct Hin as [<- | [<- | [<- | [<- | [<- | []]]]]];
      (split; [discriminate | reflexivity]). }
  destruct Hty as [Hne Hnd].
  split; [exact Hin|]. split.
  - eexists. unfold self'.
    rewrite (InsertFacts.add_artifact_unfold self ty text Hne Htext).
    cbn [artifacts set_artifacts].
    split; [apply DictFacts.get_set_same | reflexivity].
  - intros Htag. apply Forall_forall. intros k Hk.
    apply StoreFacts.add_artifact_keys in Hk as [Hk | ->].
    + rewrite Forall_forall in Htag. now apply Htag.
    + now apply StoreFacts.extract_or_generate_tagged.
Qed.

(** ** Component parsing *)

Module ParseFacts.

Import Char Str Re StrFacts.

Lemma split_char_nonempty (sep : ascii) (s : string) :
  split_char sep s <> [].
Proof.
  destruct s as [|c t]; simpl; [discriminate|].
  destruct (c =? sep)%char; [discriminate|].
  destruct (split_char sep t); discriminate.
Qed.

Lemma split_sep_nonempty (sep : string) (s : string) :
  forall skip, split_sep sep skip s <> [].
Proof.
  induction s as [|c t IH]; intros skip; simpl; [discriminate|].
  destruct skip; [|apply IH].
  destruct (startswith sep (String c t)); [discriminate|].
  destruct (split_sep sep 0 t); discriminate.
Qed.

(** A text that starts with ["- **"], taken apart. *)
Lemma startswith_bullet (s : string) :
  startswith "- **" s = true -> exists r, s = "- **" ++ r.
Proof.
  destruct s as [|a [|b [|c [|d r]]]]; cbn [startswith]; intros H;
    repeat match type of H with
           | (_ && _) = true => apply andb_true_iff in H as [? H]
           end; try discriminate.
  repeat match goal with
         | E : (_ =? _)%char = true |- _ => apply Ascii.eqb_eq in E
         end.
  subst. now exists r.
Qed.

Lemma rstrip_cons_nonspace (c : ascii) (t : string) :
  is_space c = false -> rstrip (String c t) = String c (rstrip t).
Proof. intros H. simpl. now rewrite H. Qed.

Lemma rstrip_cons_keep (c : ascii) (t : string) :
  is_empty (rstrip t) = false -> rstrip (String c t) = String c (rstrip t).
Proof. intros H. simpl. now rewrite H, andb_false_r. Qed.

(** Stripping a line keeps a bullet at its start. *)
Lemma strip_keeps_bullet (line : string) :
  startswith "- **" line = true -> startswith "- **" (strip line) = true.
Proof.
  intros H. apply startswith_bullet in H as (r & ->).
  unfold strip.
  change (lstrip ("- **" ++ r)) with ("- **" ++ r).
  change ("- **" ++ r)
    with (String "-" (String " " (String "*" (String "*" r)))).
  rewrite (rstrip_cons_nonspace "-") by reflexivity.
  rewrite (rstrip_cons_keep " ").
  - rewrite (rstrip_cons_nonspace "*" (String "*" r)) by reflexivity.
    rewrite (rstrip_cons_nonspace "*" r) by reflexivity.
    reflexivity.
  - now rewrite (rstrip_cons_nonspace "*" (String "*" r)) by reflexivity.
Qed.

(** Whether a text starts with a bullet shows on its first line. *)
Lemma startswith_first_line (p s : string) :
  (forall i, get i p <> Some LF) ->
  startswith p s = startswith p (hd "" (split_char LF s)).
Proof.
  revert s. induction p as [|a p IH]; intros s Hp; [reflexivity|].
  destruct s as [|c t]; [reflexivity|].
  assert (Ha : a <> LF) by (intros ->; now apply (Hp 0)).
  assert (Hp' : forall i, get i p <> Some LF)
    by (intros i; apply (Hp (S i))).
  cbn [split_char]. destruct (Ascii.eqb_spec c LF) as [-> | Hc].
  - cbn [hd startswith].
    apply Ascii.eqb_neq in Ha. now rewrite Ha.
  - pose proof (split_char_nonempty LF t) as Hne.
    destruct (split_char LF t) as [|h r] eqn:E; [congruence|].
    cbn [hd startswith]. rewrite (IH t Hp'), E. reflexivity.
Qed.

Lemma bullet_has_no_newline : forall i, get i "- **" <> Some LF.
Proof. intros i. do 5 (destruct i as [|i]; [discriminate|]). discriminate. Qed.

(** The component pattern matches nowhere in a text none of whose lines
    starts with a bullet. *)
Lemma finditer_without_bullet (s : string) :
  forall skip line_start,
    (line_start = true ->
     startswith "- **" (hd "" (split_char LF s)) = false) ->
    (forall line, In line (tl (split_char LF s)) ->
                  startswith "- **" line = false) ->
    finditer_components skip line_start s = [].
Proof.
  induction s as [|c t IH]; intros skip line_start Hfirst Hrest;
    [reflexivity|].
  assert (Hnext : forall n, finditer_components n (c =? LF)%char t = []).
  { intros n. cbn [split_char] in Hfirst, Hrest.
    destruct (Ascii.eqb_spec c LF) as [-> | Hc].
    - cbn [tl] in Hrest. apply IH.
      + intros _. pose proof (split_char_nonempty LF t) as Hne.
        destruct (split_char LF t) as [|h r]; [congruence|].
        apply Hrest. now left.
      + intros line Hin. apply Hrest.
        destruct (split_char LF t) as [|h r]; [contradiction|]. now right.
    - pose proof (split_char_nonempty LF t) as Hne.
      destruct (split_char LF t) as [|h r] eqn:E; [congruence|].
      cbn [tl] in Hrest. apply IH; [discriminate|].
      first [exact Hrest | rewrite E; exact Hrest]. }
  cbn [finditer_components]. destruct skip as [|n]; [|apply Hnext].
  assert (M : component_at line_start (String c t) = None).
  { unfold component_at. destruct line_start; [|reflexivity].
    unfold lit.
    rewrite (startswith_first_line "- **" _ bullet_has_no_newline).
    now rewrite Hfirst. }
  rewrite M. apply Hnext.
Qed.

Lemma fallback_without_bullet (lines : list string) :
  (forall line, In line lines -> startswith "- **" (strip line) = false) ->
  fold_left fallback_line lines ([], None) = ([], None).
Proof.
  induction lines as [|l lines IH]; intros H; [reflexivity|].
  cbn [fold_left]. unfold fallback_line at 2.
  rewrite (H l (or_introl eq_refl)). apply IH.
  intros line Hin. apply H. now right.
Qed.

End ParseFacts.

(** X20. A text none of whose lines, once stripped, starts with
    ["- **"] has no components: neither the pattern nor the fallback
    finds any. *)
Theorem no_bullet_no_component (text : string) :
  (forall line, In line (Str.split_char Char.LF text) ->
                Str.startswith "- **" (Str.strip line) = false) ->
  _parse_components text = [].
Proof.
  intros H.
  assert (Hraw : forall line, In line (Str.split_char Char.LF text) ->
                              Str.startswith "- **" line = false).
  { intros line Hin.
    destruct (Str.startswith "- **" line) eqn:E; [|reflexivity].
    apply ParseFacts.strip_keeps_bullet in E. rewrite (H line Hin) in E.
    discriminate. }
  unfold _parse_components.
  rewrite (ParseFacts.finditer_without_bullet text 0 true).
  - simpl. now rewrite (ParseFacts.fallback_without_bullet _ H).
  - intros _. pose proof (ParseFacts.split_char_nonempty Char.LF text) as Hne.
    destruct (Str.split_char Char.LF text) as [|h r]; [congruence|].
    apply Hraw. now left.
  - intros line Hin. apply Hraw.
    destruct (Str.split_char Char.LF text) as [|h r]; [contradiction|].
    now right.
Qed.

(** X21. When the component pattern matches, every component comes from
    a match, in order, and is clean: its name is stripped, and each of
    its details is a stripped line that is not empty and does not start
    with ["- **"]. *)
Theorem pattern_components_are_clean (text : string) :
  Re.finditer_components 0 true text <> [] ->
  List.length (_parse_components text)
  = List.length (Re.finditer_components 0 true text)
  /\ forall c, In c (_parse_components text) ->
       Str.strip (comp_name c) = comp_name c
       /\ forall d, In d (comp_details c) ->
            d <> "" /\ Str.strip d = d /\ Str.startswith "- **" d = false.
Proof.
  intros Hne.
  assert (E : _parse_components text
              = map component_of_match (Re.finditer_components 0 true text)).
  { unfold _parse_components.
    destruct (Re.finditer_components 0 true text) as [|m ms];
      [congruence | reflexivity]. }
  rewrite E. split; [apply length_map|].
  intros c Hc. apply in_map_iff in Hc as (x & <- & _).
  unfold component_of_match. cbn [comp_name comp_details].
  split; [apply StrFacts.strip_idem|].
  intros d Hd. apply filter_In in Hd as [Hd Hf].
  apply andb_true_iff in Hf as [Hf1 Hf2].
  apply negb_true_iff in Hf1, Hf2.
  apply in_map_iff in Hd as (raw & <- & _).
  split; [|split; [apply StrFacts.strip_idem | exact Hf2]].
  intros Hempty. rewrite Hempty in Hf1. discriminate.
Qed.

(** X22. The fallback never indexes out of range: a line that starts
    with ["- **"] splits on ["**"] into at least two parts, the first
    of which is ["- "], so the part taken for the name exists. *)
Theorem fallback_name_exists (line : string) :
  Str.startswith "- **" line = true ->
  exists name rest, split_sep "**" 0 line = "- " :: name :: rest.
Proof.
  intros H. apply ParseFacts.startswith_bullet in H as (r & ->).
  assert (E : split_sep "**" 0 ("- **" ++ r) = "- " :: split_sep "**" 0 r)
    by reflexivity.
  rewrite E.
  pose proof (ParseFacts.split_sep_nonempty "**" r 0) as Hne.
  destruct (split_sep "**" 0 r) as [|h t]; [congruence|].
  now exists h, t.
Qed.

(** ** The further properties at work *)

Lemma add_artifact_then_lookup_witness :
  Dict.get (artifacts (add_artifact drone "VR" "Check the payload."))
    "VR-001"
  = Some (mk_artifact "VR-001" "VR" "Check the payload." []).
Proof.
  apply (add_artifact_then_lookup drone "VR" "Check the payload.");
    [discriminate | discriminate | vm_compute; reflexivity].
Defined.

Lemma plain_calls_headerless : Forall headerless plain_calls.
Proof.
  repeat constructor; try discriminate; vm_compute; reflexivity.
Qed.

Lemma headerless_ids_count_up_witness :
  none_raises (fresh "drone delivery system") plain_calls
  /\ _artifact_counter (add_all (fresh "drone delivery system") plain_calls)
     = 3%N
  /\ map numeric_suffix
       (assigned_ids (fresh "drone delivery system") plain_calls)
     = [1; 2; 3]%N
  /\ NoDup (assigned_ids (fresh "drone delivery system") plain_calls).
Proof.
  apply (headerless_ids_count_up plain_calls plain_calls_headerless
           (fresh "drone delivery system")).
  vm_compute. reflexivity.
Defined.

Lemma generated_id_reads_back_witness :
  _artifact_counter (snd (_extract_or_generate_id drone "SR" "Range."))
  = 1%N
  /\ exists g,
      Re.search_hyphen_digits
        (fst (_extract_or_generate_id drone "SR" "Range.")) = Some g
      /\ int g = Ok 1%N.
Proof.
  apply (generated_id_reads_back drone "SR" "Range.");
    vm_compute; reflexivity.
Defined.

Lemma reload_then_generate_is_fresh_witness :
  exists c',
    from_dict (to_dict drone) = Ok (Some c')
    /\ artifacts c' = artifacts drone
    /\ generation_raises c' "Range." = false
    /\ ~ In (fst (_extract_or_generate_id c' "SR" "Range."))
            (Dict.keys (artifacts c')).
Proof.
  apply (reload_then_generate_is_fresh drone "SR" "Range.").
  - vm_compute. discriminate.
  - exact drone_keys_counted.
  - vm_compute. repeat constructor.
  - vm_compute. reflexivity.
Defined.

Lemma reload_keeps_counter_ahead_witness :
  none_raises (fresh "drone delivery system") plain_calls
  /\ exists c',
      from_dict
        (to_dict (add_all (fresh "drone delivery system") plain_calls))
      = Ok (Some c')
      /\ (3 <= _artifact_counter c')%N.
Proof.
  apply (reload_keeps_counter_ahead "drone delivery system" plain_calls).
  - discriminate.
  - repeat constructor.
  - vm_compute. reflexivity.
Defined.

Lemma from_dict_with_topic_witness :
  from_dict (mk_payload (Some "") None None [])
  = Raise (ValueError "System topic must be a non-empty string.")
  /\ exists c,
      from_dict (mk_payload (Some "drone") None (Some []) ["user"])
      = Ok (Some c)
      /\ system_topic c = "drone" /\ artifacts c = [] /\ traces c = []
      /\ _artifact_counter c = 0%N.
Proof.
  split.
  - apply (proj1 (from_dict_with_topic (mk_payload (Some "") None None [])
                    "" eq_refl)).
    reflexivity.
  - destruct (proj2 (from_dict_with_topic
                       (mk_payload (Some "drone") None (Some []) ["user"])
                       "drone" eq_refl))
      as (c & E & Ht & Ha & Htr & Hc); [discriminate|].
    exists c. repeat split; try assumption. now apply Hc.
Defined.

Lemma to_dict_from_dict_witness :
  exists c,
    from_dict
      (mk_payload (Some "drone") (Some (artifacts drone))
         (Some [("SR-001", "SD-001")]) [])
    = Ok (Some c)
    /\ to_dict c
       = mk_payload (Some "drone") (Some (artifacts drone))
           (Some [("SR-001", "SD-001")]) [].
Proof.
  apply (to_dict_from_dict "drone" (artifacts drone) [("SR-001", "SD-001")]).
  discriminate.
Defined.

Lemma context_holds_topic_and_artifacts_witness :
  Dict.get (get_context_for_text_generation drone) "system_topic"
  = Some (TopicValue "drone delivery system")
  /\ Dict.keys (get_context_for_text_generation drone)
     = ["system_topic"; "SR-001"; "SD-001"].
Proof.
  destruct (context_holds_topic_and_artifacts drone) as (Ht & _ & Hk).
  - vm_compute. repeat constructor; simpl; intuition discriminate.
  - vm_compute. intuition discriminate.
  - split; [exact Ht | exact Hk].
Defined.

Lemma mention_is_traced_witness :
  exists self',
    build_traces first_seen drone = Ok self'
    /\ In ("SR-001", "SD-001") (traces self').
Proof.
  destruct (mention_is_traced first_seen first_seen_In drone
              "SD-001" "SR-001"
              (mk_artifact "SD-001" "SD"
                 (_clean_artifact_text "SD-001" sd_text)
                 (_parse_components (_clean_artifact_text "SD-001" sd_text)))
              (mk_artifact "SR-001" "SR"
                 (_clean_artifact_text "SR-001" sr_text)
                 (_parse_components (_clean_artifact_text "SR-001" sr_text))))
    as (self' & E & _ & Hback).
  - vm_compute. reflexivity.
  - vm_compute. reflexivity.
  - unfold mentions. vm_compute. auto.
  - exists self'. split; [exact E|]. apply Hback. reflexivity.
Defined.

Lemma no_reference_no_trace_witness :
  build_traces first_seen drone_sr = Ok (set_traces drone_sr []).
Proof.
  apply (no_reference_no_trace first_seen first_seen_In drone_sr).
  intros k a t Hin Hm. left.
  vm_compute in Hin. destruct Hin as [Hin | []].
  injection Hin as <- <-.
  unfold mentions in Hm. vm_compute in Hm.
  destruct Hm as [<- | []]. reflexivity.
Defined.

Lemma chat_tag_is_stored_witness :
  In (artifact_type_of_prompt "Write the System Design of the frame")
    ["SR"; "SD"; "VR"; "VM"; "Unknown"]
  /\ exists a,
      Dict.get
        (artifacts
           (add_artifact drone
              (artifact_type_of_prompt "Write the System Design of the frame")
              "### SD-002: Frame"))
        "SD-002" = Some a
      /\ art_type a = "SD".
Proof.
  destruct (chat_tag_is_stored drone "Write the System Design of the frame"
              "### SD-002: Frame") as (Hin & Hget & _).
  - discriminate.
  - vm_compute. reflexivity.
  - split; [exact Hin | exact Hget].
Defined.

Lemma no_bullet_no_component_witness :
  _parse_components sd_text = [].
Proof.
  apply (no_bullet_no_component sd_text).
  intros line Hin. vm_compute in Hin.
  destruct Hin as [<- | [<- | []]]; vm_compute; reflexivity.
Defined.

Lemma pattern_components_are_clean_witness :
  List.length (_parse_components sr_text) = 1
  /\ forall c, In c (_parse_components sr_text) ->
       Str.strip (comp_name c) = comp_name c
       /\ forall d, In d (comp_details c) ->
            d <> "" /\ Str.strip d = d /\ Str.startswith "- **" d = false.
Proof.
  apply (pattern_components_are_clean sr_text).
  vm_compute. discriminate.
Defined.

Lemma fallback_name_exists_witness :
  exists name rest,
    split_sep "**" 0 "- **Name**: d0" = "- " :: name :: rest.
Proof.
  apply (fallback_name_exists "- **Name**: d0"). reflexivity.
Defined.
